(** * ram-dashboard: the sampling and classification pipeline of [src/server.ts]

    A shallow embedding of the five asynchronous functions of the server
    ([getPythonProcesses], [getClaudeSessions], [getVSCodeWorkspaces],
    [getChromeTabs], [getSystemMemory]) and of the JavaScript primitives they
    call, followed by the properties of the pipeline.

    Conventions of the embedding.
    - A JavaScript string is the list of its UTF-16 code units ([N]).
    - A JavaScript [number] is [NaN] or a rational: every number the pipeline
      computes comes from [parseInt], [+], [-], [*], [/] by a non-zero
      constant, [Math.round] and [Math.max], so infinities never arise; the
      rounding of IEEE doubles is not modelled (exact arithmetic), and [-0] is
      identified with [0] (both are falsy and print alike).
    - [await $`cmd`.text()] either yields the text or throws: the text sources
      are fields of an environment record holding a [result].
    - [Math.random()] is the stream [random] of the environment, read through
      a call counter. *)

From Stdlib Require Import List Bool Arith ZArith NArith QArith Qround.
From Stdlib Require Import Lia Lqa Sorted Permutation.
From Stdlib Require String Ascii.
Import String.StringSyntax.
Delimit Scope string_scope with string.
Import ListNotations.

Set Implicit Arguments.

(** ** JavaScript strings *)

Module Js.

Definition char := N.
Definition jsstring := list char.

(** A literal of the source, all of whose characters are ASCII. *)
Definition str (s : String.string) : jsstring :=
List.map Ascii.N_of_ascii (String.list_ascii_of_string s).
Arguments str s%_string.

Definition char_eqb (a b : char) : bool := N.eqb a b.

Fixpoint str_eqb (a b : jsstring) : bool :=
match a, b with
| [], [] => true
| x :: a', y :: b' => char_eqb x y && str_eqb a' b'
| _, _ => false
end.

(** [WhiteSpace] and [LineTerminator] of ECMAScript: the class [\s] of
  regular expressions and the characters [trim] removes. *)
Definition is_space (c : char) : bool :=
((9 <=? c) && (c <=? 13) || (c =? 32) || (c =? 160) || (c =? 5760)
 || (8192 <=? c) && (c <=? 8202) || (c =? 8232) || (c =? 8233)
 || (c =? 8239) || (c =? 8287) || (c =? 12288) || (c =? 65279))%N.

(** The characters [.] does not match (no [s] flag). *)
Definition is_line_terminator (c : char) : bool :=
((c =? 10) || (c =? 13) || (c =? 8232) || (c =? 8233))%N.

Definition is_digit (c : char) : bool := ((48 <=? c) && (c <=? 57))%N.

Fixpoint drop_while (p : char -> bool) (s : jsstring) : jsstring :=
match s with
| [] => []
| c :: s' => if p c then drop_while p s' else s
end.

Fixpoint take_while (p : char -> bool) (s : jsstring) : jsstring :=
match s with
| [] => []
| c :: s' => if p c then c :: take_while p s' else []
end.

(** [s.trim()] *)
Definition trim (s : jsstring) : jsstring :=
rev (drop_while is_space (rev (drop_while is_space s))).

(** [s.startsWith(p)], used to test a literal at a position. *)
Fixpoint starts_with (p s : jsstring) : bool :=
match p, s with
| [], _ => true
| _ :: _, [] => false
| a :: p', b :: s' => char_eqb a b && starts_with p' s'
end.

(** [s.includes(sub)] *)
Fixpoint includes (sub s : jsstring) : bool :=
starts_with sub s ||
match s with
| [] => false
| _ :: s' => includes sub s'
end.

(** [s.substring(0, n)] *)
Definition substring0 (n : nat) (s : jsstring) : jsstring := firstn n s.

(** [s.split(sep)] for a non-empty literal [sep]: [cur] is the piece being
  read (reversed) and [skip] the number of characters of a separator just
  recognised that are still to be passed over. *)
Fixpoint split_go (sep s : jsstring) (skip : nat) (cur : jsstring)
: list jsstring :=
match s with
| [] => [rev cur]
| c :: s' =>
    match skip with
    | S k => split_go sep s' k cur
    | O =>
        if starts_with sep s
        then rev cur :: split_go sep s' (length sep - 1) []
        else split_go sep s' 0 (c :: cur)
    end
end.

Definition split (sep s : jsstring) : list jsstring := split_go sep s 0 [].

(** [s.split(/\s+/)]: a maximal run of white space is one separator; a
  separator at either end leaves an empty first or last piece. *)
Fixpoint split_ws_go (s : jsstring) (in_sep : bool) (cur : jsstring)
: list jsstring :=
match s with
| [] => [rev cur]
| c :: s' =>
    if is_space c
    then if in_sep then split_ws_go s' true cur
         else rev cur :: split_ws_go s' true []
    else split_ws_go s' false (c :: cur)
end.

Definition split_ws (s : jsstring) : list jsstring := split_ws_go s false [].

(** [parts.join(sep)] *)
Fixpoint join (sep : jsstring) (parts : list jsstring) : jsstring :=
match parts with
| [] => []
| [p] => p
| p :: rest => p ++ sep ++ join sep rest
end.

(** ASCII case folding: how a regular expression with the [i] flag (and no
  [u] flag) compares a character with an ASCII character of the pattern. *)
Definition upper (c : char) : char :=
if ((97 <=? c) && (c <=? 122))%N then (c - 32)%N else c.

Fixpoint istarts_with (p s : jsstring) : bool :=
match p, s with
| [], _ => true
| _ :: _, [] => false
| a :: p', b :: s' => char_eqb (upper a) (upper b) && istarts_with p' s'
end.

(** [/lit/i.test(s)] for a literal [lit]. *)
Fixpoint iincludes (lit s : jsstring) : bool :=
istarts_with lit s ||
match s with
| [] => false
| _ :: s' => iincludes lit s'
end.

End Js.
Import Js.

(** ** JavaScript numbers

    A number is [NaN] or an exact rational.  The doubles of the engine agree
    with this arithmetic wherever every value met is a double: integers of
    magnitude at most [2^53], their sums and differences within that range,
    and their quotients by powers of two.  Outside it (a digit string longer
    than [2^53], a draw of [Math.random()] scaled by 100) the engine rounds
    to the nearest double, which the rationals do not do: a statement that
    names the exact value of such a result carries the bound under which it
    is exact, and the others hold of the rounded value as well.  The
    infinities are not represented; the pipeline never divides by zero. *)

Inductive number : Type :=
| NaN
| Num (q : Q).

Definition num_of_Z (z : Z) : number := Num (inject_Z z).
Definition num_of_nat (n : nat) : number := num_of_Z (Z.of_nat n).

Definition num_add (a b : number) : number :=
  match a, b with
  | Num x, Num y => Num (x + y)
  | _, _ => NaN
  end.

Definition num_sub (a b : number) : number :=
  match a, b with
  | Num x, Num y => Num (x - y)
  | _, _ => NaN
  end.

Definition num_mul (a b : number) : number :=
  match a, b with
  | Num x, Num y => Num (x * y)
  | _, _ => NaN
  end.

(** [a / b].  The pipeline divides by the constants 1024 and 10 and by
    [Math.max(_, 1)] only; a division by zero, which it never makes, would
    give an infinity or [NaN] and is given [NaN] here. *)
Definition num_div (a b : number) : number :=
  match a, b with
  | Num x, Num y => if Qeq_bool y 0 then NaN else Num (x / y)
  | _, _ => NaN
  end.

(** [a < b] and [a > b]: false as soon as one side is [NaN]. *)
Definition num_lt (a b : number) : bool :=
  match a, b with
  | Num x, Num y => negb (Qle_bool y x)
  | _, _ => false
  end.

Definition num_gt (a b : number) : bool := num_lt b a.

(** [a >= b] *)
Definition num_ge (a b : number) : bool :=
  match a, b with
  | Num x, Num y => Qle_bool y x
  | _, _ => false
  end.

(** Truthiness of a number: [NaN] and [0] are falsy. *)
Definition truthy (a : number) : bool :=
  match a with
  | NaN => false
  | Num x => negb (Qeq_bool x 0)
  end.

(** [Math.round]: the nearest integer, a half rounding up. *)
Definition Math_round (a : number) : number :=
  match a with
  | NaN => NaN
  | Num x => num_of_Z (Qfloor (x + (1 # 2)))
  end.

(** [Math.max(a, b)] *)
Definition Math_max (a b : number) : number :=
  match a, b with
  | Num x, Num y => if Qle_bool x y then Num y else Num x
  | _, _ => NaN
  end.

(** The value of a digit in a radix of at most 16. *)
Definition digit_val (radix : Z) (c : char) : option Z :=
  let v :=
    if ((48 <=? c) && (c <=? 57))%N then Some (Z.of_N c - 48)%Z
    else if ((97 <=? c) && (c <=? 102))%N then Some (Z.of_N c - 87)%Z
    else if ((65 <=? c) && (c <=? 70))%N then Some (Z.of_N c - 55)%Z
    else None in
  match v with
  | Some d => if (d <? radix)%Z then Some d else None
  | None => None
  end.

(** The longest prefix of digits, read in the radix: [None] without a digit. *)
Fixpoint read_digits (radix : Z) (s : jsstring) (acc : option Z) : option Z :=
  match s with
  | [] => acc
  | c :: s' =>
      match digit_val radix c with
      | Some d =>
          read_digits radix s'
            (Some (match acc with Some a => a * radix + d | None => d end)%Z)
      | None => acc
      end
  end.

(** [parseInt(s)] without a radix: leading white space is skipped, a sign is
    read, a [0x] or [0X] prefix selects radix 16, the longest prefix of digits
    is the value and what follows is ignored; without a digit the result is
    [NaN].  The value is the integer that the digits write; the engine
    returns the double nearest to it, which is that integer up to [2^53]. *)
Definition parseInt_string (s : jsstring) : number :=
  let s1 := drop_while is_space s in
  let '(neg, s2) :=
    match s1 with
    | c :: r => if (c =? 45)%N then (true, r)
                else if (c =? 43)%N then (false, r) else (false, s1)
    | [] => (false, s1)
    end in
  let '(radix, s3) :=
    match s2 with
    | c0 :: c1 :: r =>
        if ((c0 =? 48) && ((c1 =? 120) || (c1 =? 88)))%N
        then (16%Z, r) else (10%Z, s2)
    | _ => (10%Z, s2)
    end in
  match read_digits radix s3 None with
  | Some v => num_of_Z (if neg then - v else v)
  | None => NaN
  end.

(** [parseInt(x)] where [x] may be [undefined] (an index past the end of an
    array): [undefined] is converted to the string "undefined", which has no
    digit. *)
Definition parseInt (x : option jsstring) : number :=
  match x with
  | Some s => parseInt_string s
  | None => NaN
  end.

(** ** Arrays, maps and exceptions *)

(** [arr.sort(cmp)]: ECMAScript requires the sort to be stable, so with a
    consistent comparator the result is determined; it is computed here by
    insertion.  An element is placed before the first element of the already
    sorted rest that does not have to precede it, a comparator result of
    [NaN] counting as [0].  A comparator that meets a [NaN] key is not
    consistent, and ECMAScript then leaves the order to the implementation:
    on such a list the order computed here is one arrangement of the
    elements and need not be the one the engine chooses. *)
Section Sort.
Variable A : Type.
Variable cmp : A -> A -> number.

(** [cmp a b < 0]: [a] has to come before [b]. *)
Definition precedes (a b : A) : bool := num_lt (cmp a b) (num_of_Z 0).

Fixpoint insert (x : A) (l : list A) : list A :=
  match l with
  | [] => [x]
  | y :: l' => if precedes y x then y :: insert x l' else x :: y :: l'
  end.

Fixpoint sort (l : list A) : list A :=
  match l with
  | [] => []
  | x :: l' => insert x (sort l')
  end.
End Sort.

(** The comparator [(a, b) => b.memory - a.memory] of every list of the
    snapshot, for a record whose memory field is [key]. *)
Definition by_memory_desc (A : Type) (key : A -> number) (a b : A) : number :=
  num_sub (key b) (key a).

(** A [Map] with string keys: its entries in insertion order.  [set] on a key
    already present replaces the value and keeps the position. *)
Section JsMap.
Variable V : Type.

Definition Map := list (jsstring * V).

Fixpoint map_get (m : Map) (k : jsstring) : option V :=
  match m with
  | [] => None
  | (k', v) :: m' => if str_eqb k' k then Some v else map_get m' k
  end.

Fixpoint map_set (m : Map) (k : jsstring) (v : V) : Map :=
  match m with
  | [] => [(k, v)]
  | (k', v') :: m' =>
      if str_eqb k' k then (k', v) :: m' else (k', v') :: map_set m' k v
  end.
End JsMap.

(** The outcome of an awaited computation: a value, or an exception (a
    rejected promise). *)
Inductive result (A : Type) : Type :=
| Ok (a : A)
| Throw.
Arguments Throw {A}.

Definition bind (A B : Type) (m : result A) (k : A -> result B) : result B :=
  match m with
  | Ok a => k a
  | Throw => Throw
  end.

(** [try { m } catch { h }] *)
Definition try_catch (A : Type) (m h : result A) : result A :=
  match m with
  | Ok a => Ok a
  | Throw => h
  end.

Notation "x <- m ;; k" := (bind m (fun x => k))
  (at level 61, m at next level, right associativity).

(** ** The data model (the interfaces of the source) *)

Module AppMemory.
Record t := mk
  { name : jsstring; memory : number; processes : number; color : jsstring }.
End AppMemory.

Module ChromeTab.
Record t := mk { title : jsstring; url : jsstring; memory : number }.
End ChromeTab.

Module PythonProcess.
Record t := mk { script : jsstring; memory : number; pid : number }.
End PythonProcess.

Module ClaudeSession.
Record t := mk
  { workingDir : jsstring; projectName : jsstring; memory : number;
    pid : number; isSubagent : bool }.
End ClaudeSession.

Module VSCodeWorkspace.
Record t := mk { path : jsstring; memory : number; processes : number }.
End VSCodeWorkspace.

Module SystemMemory.
Record t := mk
  { total : number; used : number; free : number;
    apps : list AppMemory.t;
    chromeTabs : list ChromeTab.t;
    pythonProcesses : list PythonProcess.t;
    claudeSessions : list ClaudeSession.t;
    vscodeWorkspaces : list VSCodeWorkspace.t;
    timestamp : Z }.
End SystemMemory.

(** ** The collaborators

    Every text source of the pipeline, the stream of [Math.random()] and the
    clock of [new Date()]. *)
Record Env : Type := mkEnv
  { sysctl_memsize : result jsstring;      (* sysctl -n hw.memsize *)
    vm_stat : result jsstring;             (* vm_stat *)
    ps_aux : result jsstring;              (* ps aux *)
    ps_python : result jsstring;           (* ps aux | grep -i "[p]ython" *)
    ps_claude : result jsstring;           (* ps aux | grep "[c]laude" *)
    lsof_cwd : number -> result jsstring;  (* lsof -p pid | grep cwd | ... *)
    ps_vscode : result jsstring;           (* ps aux | grep -E "[C]ode ..." *)
    osascript_windows : result jsstring;   (* names of the VS Code windows *)
    ps_renderers : result jsstring;        (* Chrome renderers, sort -k6 -rn *)
    osascript_tabs : result jsstring;      (* title|||URL of every tab *)
    random : nat -> Q;                     (* the n-th Math.random() *)
    now : Z }.

(** Every draw of [Math.random()] lies in the interval from 0 (included) to 1
    (excluded). *)
Definition random_ok (random : nat -> Q) : Prop :=
  forall n, 0 <= random n /\ random n < 1.

Definition nonempty (s : jsstring) : bool :=
  match s with [] => false | _ :: _ => true end.

(** The separator ['\n']. *)
Definition newline : jsstring := [10%N].

(** [output.trim().split('\n').filter(l => l.length > 0)] *)
Definition output_lines (output : jsstring) : list jsstring :=
  filter nonempty (split newline (trim output)).

(** [line.trim().split(/\s+/)] *)
Definition fields (line : jsstring) : list jsstring := split_ws (trim line).

(** [Math.round(parseInt(parts[5]) / 1024)] *)
Definition memory_MB (parts : list jsstring) : number :=
  Math_round (num_div (parseInt (nth_error parts 5)) (num_of_Z 1024)).

(** [parts.slice(10).join(' ')] *)
Definition command_of (parts : list jsstring) : jsstring :=
  join (str " ") (skipn 10 parts).

(** ** getPythonProcesses (lines 48-95) *)

(** The class [[^\s\/]] of the script pattern. *)
Definition is_name_char (c : char) : bool :=
  negb (is_space c) && negb (c =? 47)%N.

(** The pattern [[^\s\/]+\.py] tried at the head of [s].  The class is
    greedy: the longest run is tried first, and the run is given back one
    character at a time until [.py] follows it. *)
Fixpoint py_at (s : jsstring) : option jsstring :=
  match s with
  | [] => None
  | c :: s' =>
      if is_name_char c then
        match py_at s' with
        | Some m => Some (c :: m)
        | None => if starts_with (str ".py") s'
                  then Some (c :: str ".py") else None
        end
      else None
  end.

(** [command.match(/([^\s\/]+\.py)/)]: the match at the leftmost position
    that has one, which is also the first capture group. *)
Fixpoint pyMatch (command : jsstring) : option jsstring :=
  match py_at command with
  | Some m => Some m
  | None =>
      match command with
      | [] => None
      | _ :: rest => pyMatch rest
      end
  end.

(** Lines 62-84: the label of a process, or [None] where the loop
    [continue]s. *)
Definition script_label (command : jsstring) (memory : number)
  : option jsstring :=
  match pyMatch command with
  | Some m => Some m
  | None =>
      if includes (str "voice-mode") command then Some (str "voice-mode (MCP)")
      else if includes (str "ingest") command then Some (str "Supabase Ingestor")
      else if includes (str "uv run") command then Some (str "uv script")
      else if num_gt memory (num_of_Z 100)
           then Some (substring0 40 command ++ str "...")
      else None
  end.

(** One iteration of the loop of lines 55-89. *)
Definition python_step (processes : list PythonProcess.t) (line : jsstring)
  : list PythonProcess.t :=
  let parts := fields line in
  let pid := parseInt (nth_error parts 1) in
  let memory := memory_MB parts in
  let command := command_of parts in
  match script_label command memory with
  | None => processes
  | Some script =>
      if num_gt memory (num_of_Z 10)
      then processes ++ [PythonProcess.mk script memory pid]
      else processes
  end.

(** The array [processes] when the loop ends. *)
Definition python_unsorted (output : jsstring) : list PythonProcess.t :=
  let lines := output_lines output in
  fold_left python_step lines [].

Definition python_of_output (output : jsstring) : list PythonProcess.t :=
  sort (by_memory_desc PythonProcess.memory) (python_unsorted output).

Definition getPythonProcesses (e : Env) : result (list PythonProcess.t) :=
  try_catch
    (output <- ps_python e ;;
     Ok (python_of_output output))
    (Ok []).

(** ** getClaudeSessions (lines 97-138) *)

(** [workingDir.split('/').filter(p => p && p !== 'Users' &&
    p !== 'maxghenis').slice(-1)[0] || 'Home'] *)
Definition project_name (workingDir : jsstring) : jsstring :=
  let segments :=
    filter (fun p => nonempty p && negb (str_eqb p (str "Users"))
                     && negb (str_eqb p (str "maxghenis")))
           (split (str "/") workingDir) in
  match rev segments with
  | p :: _ => p
  | [] => str "Home"
  end.

(** One iteration of the loop of lines 104-132; the lookup of the working
    directory has a [try] of its own. *)
Definition claude_step (lsof : number -> result jsstring)
    (sessions : list ClaudeSession.t) (line : jsstring)
  : list ClaudeSession.t :=
  let parts := fields line in
  let pid := parseInt (nth_error parts 1) in
  let memory := memory_MB parts in
  let command := command_of parts in
  if num_lt memory (num_of_Z 50) then sessions
  else
    let workingDir :=
      match lsof pid with
      | Ok lsofOutput => trim lsofOutput
      | Throw => []
      end in
    let projectName := project_name workingDir in
    let isSubagent :=
      num_lt memory (num_of_Z 500) && includes (str "claude") command in
    sessions ++ [ClaudeSession.mk workingDir projectName memory pid isSubagent].

(** The array [sessions] when the loop ends. *)
Definition claude_unsorted (lsof : number -> result jsstring)
    (output : jsstring) : list ClaudeSession.t :=
  let lines := output_lines output in
  fold_left (claude_step lsof) lines [].

Definition claude_of_output (lsof : number -> result jsstring)
    (output : jsstring) : list ClaudeSession.t :=
  sort (by_memory_desc ClaudeSession.memory) (claude_unsorted lsof output).

Definition getClaudeSessions (e : Env) : result (list ClaudeSession.t) :=
  try_catch
    (output <- ps_claude e ;;
     Ok (claude_of_output (lsof_cwd e) output))
    (Ok []).

(** ** getVSCodeWorkspaces (lines 140-183) *)

(** The value type of the map [workspaces]. *)
Record WorkspaceData := mkWorkspaceData
  { ws_memory : number; ws_processes : number }.

(** The loop of lines 149-154: the pair of [totalMemory] and
    [totalProcesses]. *)
Definition vscode_step (totals : number * number) (line : jsstring)
  : number * number :=
  let parts := fields line in
  let memory := memory_MB parts in
  (num_add (fst totals) memory, num_add (snd totals) (num_of_Z 1)).

(** The pattern of line 168 tried at the head of [s]: an em dash (U+2014), a
    space, then the longest non-empty run of characters other than the
    opening bracket, which is the capture. *)
Definition window_at (s : jsstring) : option jsstring :=
  if starts_with [8212%N; 32%N] s then
    match take_while (fun c => negb (c =? 91)%N) (skipn 2 s) with
    | [] => None
    | capture => Some capture
    end
  else None.

(** The capture of the leftmost match of the pattern in [window]. *)
Fixpoint window_match (window : jsstring) : option jsstring :=
  match window_at window with
  | Some m => Some m
  | None =>
      match window with
      | [] => None
      | _ :: rest => window_match rest
      end
  end.

(** The loop of lines 166-171. *)
Definition window_step (memPerWindow procsPerWindow : number)
    (workspaces : Map WorkspaceData) (window : jsstring) : Map WorkspaceData :=
  let path :=
    match window_match window with
    | Some m => trim m
    | None => window
    end in
  map_set workspaces path (mkWorkspaceData memPerWindow procsPerWindow).

(** Lines 156-175: the map after the windows are enumerated, or after the
    enumeration failed. *)
Definition vscode_workspaces (windowsOutput : result jsstring)
    (totalMemory totalProcesses : number) : Map WorkspaceData :=
  match windowsOutput with
  | Ok out =>
      let windows := filter nonempty (split (str ", ") (trim out)) in
      let n := Math_max (num_of_nat (List.length windows)) (num_of_Z 1) in
      let memPerWindow := Math_round (num_div totalMemory n) in
      let procsPerWindow := Math_round (num_div totalProcesses n) in
      fold_left (window_step memPerWindow procsPerWindow) windows []
  | Throw =>
      map_set [] (str "VS Code (total)")
        (mkWorkspaceData totalMemory totalProcesses)
  end.

(** [Array.from(workspaces.entries()).map(([path, data]) => ({ path,
    ...data }))] *)
Definition vscode_unsorted (windowsOutput : result jsstring)
    (output : jsstring) : list VSCodeWorkspace.t :=
  let lines := output_lines output in
  let totals := fold_left vscode_step lines (num_of_Z 0, num_of_Z 0) in
  let workspaces := vscode_workspaces windowsOutput (fst totals) (snd totals) in
  map (fun entry =>
         VSCodeWorkspace.mk (fst entry) (ws_memory (snd entry))
           (ws_processes (snd entry)))
      workspaces.

Definition vscode_of_output (windowsOutput : result jsstring)
    (output : jsstring) : list VSCodeWorkspace.t :=
  sort (by_memory_desc VSCodeWorkspace.memory)
    (vscode_unsorted windowsOutput output).

Definition getVSCodeWorkspaces (e : Env) : result (list VSCodeWorkspace.t) :=
  try_catch
    (output <- ps_vscode e ;;
     Ok (vscode_of_output (osascript_windows e) output))
    (Ok []).

(** ** getChromeTabs (lines 185-224) *)

(** Line 189-192: the memory of one renderer line, [parts[5] || '0'] being
    the sixth field or, where it is missing or empty, the string "0". *)
Definition renderer_memory (line : jsstring) : number :=
  let parts := fields line in
  let field :=
    match nth_error parts 5 with
    | Some f => if nonempty f then f else str "0"
    | None => str "0"
    end in
  Math_round (num_div (parseInt_string field) (num_of_Z 1024)).

(** [Math.round(50 + Math.random() * 100)] for the draw [r].  The sum is
    taken exactly; the engine rounds the product and the sum to doubles
    before [Math.round], which can move a value next to a half to the
    neighbouring integer, within the same range of 50 to 150. *)
Definition fallback_estimate (r : Q) : number :=
  Math_round (num_add (num_of_Z 50) (num_mul (Num r) (num_of_Z 100))).

(** [title?.substring(0, 60) || 'Unknown'] *)
Definition tab_title (title : option jsstring) : jsstring :=
  match title with
  | Some t => if nonempty (substring0 60 t) then substring0 60 t
              else str "Unknown"
  | None => str "Unknown"
  end.

(** [url || ''] *)
Definition tab_url (url : option jsstring) : jsstring :=
  match url with
  | Some u => u
  | None => []
  end.

(** The loop of lines 211-219 from index [i] on: [calls] counts the draws of
    [Math.random()] made so far, a draw being made only where
    [rendererMemory[i]] is missing, [0] or [NaN]. *)
Fixpoint tabs_loop (random : nat -> Q) (rendererMemory : list number)
    (tabLines : list jsstring) (i calls : nat) (tabs : list ChromeTab.t)
  : list ChromeTab.t :=
  match tabLines with
  | [] => tabs
  | line :: rest =>
      let pieces := split (str "|||") line in
      let title := nth_error pieces 0 in
      let url := nth_error pieces 1 in
      let known :=
        match nth_error rendererMemory i with
        | Some m => if truthy m then Some m else None
        | None => None
        end in
      let estimatedMemory :=
        match known with
        | Some m => m
        | None => fallback_estimate (random calls)
        end in
      let calls' := match known with Some _ => calls | None => S calls end in
      tabs_loop random rendererMemory rest (S i) calls'
        (tabs ++ [ChromeTab.mk (tab_title title) (tab_url url) estimatedMemory])
  end.

(** Lines 188-192 and 208. *)
Definition renderers_of_output (psOutput : jsstring) : list number :=
  map renderer_memory (output_lines psOutput).

Definition tab_lines (tabsOutput : jsstring) : list jsstring :=
  filter (includes (str "|||")) (split newline (trim tabsOutput)).

(** The tabs before the final sort. *)
Definition correlate_tabs (random : nat -> Q) (rendererMemory : list number)
    (tabLines : list jsstring) : list ChromeTab.t :=
  tabs_loop random rendererMemory tabLines 0 0 [].

Definition getChromeTabs (e : Env) : result (list ChromeTab.t) :=
  try_catch
    (psOutput <- ps_renderers e ;;
     let rendererMemory := renderers_of_output psOutput in
     tabsOutput <- osascript_tabs e ;;
     let tabLines := tab_lines tabsOutput in
     Ok (sort (by_memory_desc ChromeTab.memory)
           (correlate_tabs (random e) rendererMemory tabLines)))
    (Ok []).

(** ** getSystemMemory (lines 226-299) *)

(** A rule of [appPatterns]; [pattern] is [pattern.test]. *)
Record AppPattern := mkAppPattern
  { name : jsstring; pattern : jsstring -> bool; color : jsstring }.

(** [/.*lit/i] tried at the head of [s]: [.] matches any character but a
    line terminator. *)
Fixpoint dot_star_then (lit s : jsstring) : bool :=
  istarts_with lit s ||
  match s with
  | [] => false
  | c :: s' => negb (is_line_terminator c) && dot_star_then lit s'
  end.

(** [/node(?!.*[Cc]ode)/i.test(s)] *)
Fixpoint node_test (s : jsstring) : bool :=
  (istarts_with (str "node") s
   && negb (dot_star_then (str "code") (skipn 4 s))) ||
  match s with
  | [] => false
  | _ :: s' => node_test s'
  end.

(** Lines 244-255. *)
Definition appPatterns : list AppPattern :=
  [ mkAppPattern (str "Chrome")
      (fun c => iincludes (str "Google Chrome") c || iincludes (str "chrome") c)
      (str "#4285f4");
    mkAppPattern (str "Claude Code") (iincludes (str "claude")) (str "#cc785c");
    mkAppPattern (str "VS Code")
      (fun c => iincludes (str "Visual Studio Code") c
                || iincludes (str "Code Helper") c)
      (str "#007acc");
    mkAppPattern (str "Slack") (iincludes (str "Slack")) (str "#4a154b");
    mkAppPattern (str "Python") (iincludes (str "python")) (str "#3776ab");
    mkAppPattern (str "Node.js") node_test (str "#339933");
    mkAppPattern (str "Next.js") (iincludes (str "next-server")) (str "#000000");
    mkAppPattern (str "WhatsApp") (iincludes (str "WhatsApp")) (str "#25d366");
    mkAppPattern (str "Obsidian") (iincludes (str "Obsidian")) (str "#7c3aed");
    mkAppPattern (str "Docker")
      (fun c => iincludes (str "docker") c || iincludes (str "containerd") c)
      (str "#2496ed") ].

(** The value type of the map [appMemory]. *)
Record AppData := mkAppData
  { app_memory : number; app_processes : number; app_color : jsstring }.

(** The inner loop of lines 265-273: the first rule whose pattern matches
    updates its entry and [break]s. *)
Fixpoint scan_patterns (patterns : list AppPattern) (command : jsstring)
    (rss : number) (appMemory : Map AppData) : Map AppData :=
  match patterns with
  | [] => appMemory
  | app :: rest =>
      if pattern app command then
        let current :=
          match map_get appMemory (name app) with
          | Some data => data
          | None => mkAppData (num_of_Z 0) (num_of_Z 0) (color app)
          end in
        map_set appMemory (name app)
          (mkAppData (num_add (app_memory current) rss)
                     (num_add (app_processes current) (num_of_Z 1))
                     (app_color current))
      else scan_patterns rest command rss appMemory
  end.

(** One iteration of the loop of lines 259-274. *)
Definition classify_line (patterns : list AppPattern)
    (appMemory : Map AppData) (line : jsstring) : Map AppData :=
  let parts := fields line in
  if (List.length parts <? 11)%nat then appMemory
  else
    let rss := num_div (parseInt (nth_error parts 5)) (num_of_Z 1024) in
    let command := command_of parts in
    scan_patterns patterns command rss appMemory.

(** Lines 276-278. *)
Definition apps_unsorted (appMemory : Map AppData) : list AppMemory.t :=
  map (fun entry =>
         AppMemory.mk (fst entry) (Math_round (app_memory (snd entry)))
           (app_processes (snd entry)) (app_color (snd entry)))
      appMemory.

Definition apps_of_map (appMemory : Map AppData) : list AppMemory.t :=
  sort (by_memory_desc AppMemory.memory) (apps_unsorted appMemory).

(** Lines 242 and 257-278 for a rule list: the groups of a process table. *)
Definition classify (patterns : list AppPattern) (lines : list jsstring)
  : Map AppData :=
  fold_left (classify_line patterns) lines [].

(** [psOutput.trim().split('\n').slice(1)] *)
Definition table_lines (psOutput : jsstring) : list jsstring :=
  skipn 1 (split newline (trim psOutput)).

(** The pattern [key:\s+(\d+)] tried at the head of [s], for a [key] of
    letters and spaces; the capture is the longest run of digits. *)
Definition vm_at (key s : jsstring) : option jsstring :=
  if starts_with (key ++ str ":") s then
    let rest := skipn (List.length key + 1) s in
    match take_while is_space rest with
    | [] => None
    | _ :: _ =>
        match take_while is_digit (drop_while is_space rest) with
        | [] => None
        | digits => Some digits
        end
    end
  else None.

Fixpoint vm_match (key vmStat : jsstring) : option jsstring :=
  match vm_at key vmStat with
  | Some m => Some m
  | None =>
      match vmStat with
      | [] => None
      | _ :: rest => vm_match key rest
      end
  end.

(** [x / 1024 / 1024 / 1024] *)
Definition to_GB (x : number) : number :=
  num_div (num_div (num_div x (num_of_Z 1024)) (num_of_Z 1024))
    (num_of_Z 1024).

(** Lines 231-234, with [pageSize = 16384]. *)
Definition parseVmStat (vmStat key : jsstring) : number :=
  match vm_match key vmStat with
  | Some digits =>
      to_GB (num_mul (parseInt_string digits) (num_of_Z 16384))
  | None => num_of_Z 0
  end.

(** [Math.round(x * 10) / 10] *)
Definition round1 (x : number) : number :=
  num_div (Math_round (num_mul x (num_of_Z 10))) (num_of_Z 10).

(** [Promise.all] awaits the four breakdowns and rejects as soon as one of
    them does; they share no state, so they are taken in turn. *)
Definition getSystemMemory (e : Env) : result SystemMemory.t :=
  memsize <- sysctl_memsize e ;;
  let totalRam := to_GB (parseInt_string memsize) in
  vmStat <- vm_stat e ;;
  let wired := parseVmStat vmStat (str "Pages wired down") in
  let active := parseVmStat vmStat (str "Pages active") in
  let compressed := parseVmStat vmStat (str "Pages occupied by compressor") in
  let used := num_add (num_add wired active) compressed in
  psOutput <- ps_aux e ;;
  let lines := table_lines psOutput in
  let appMemory := classify appPatterns lines in
  let apps := apps_of_map appMemory in
  chromeTabs <- getChromeTabs e ;;
  pythonProcesses <- getPythonProcesses e ;;
  claudeSessions <- getClaudeSessions e ;;
  vscodeWorkspaces <- getVSCodeWorkspaces e ;;
  Ok (SystemMemory.mk (Math_round totalRam) (round1 used)
        (round1 (num_sub totalRam used))
        apps chromeTabs pythonProcesses claudeSessions vscodeWorkspaces
        (now e)).

(** ** Vocabulary of the properties *)

(** The value is a number, not [NaN]. *)
Definition is_number (a : number) : Prop := a <> NaN.


Section Ordering.
Variable A : Type.
Variable key : A -> number.

(** Every memory value of the list is a number. *)
Definition numeric (l : list A) : Prop := Forall (fun x => is_number (key x)) l.

(** Descending order of memory: every entry is at least as large as every
    later one. *)
Definition descending (l : list A) : Prop :=
  StronglySorted (fun a b => num_ge (key a) (key b) = true) l.


End Ordering.


(** The environment with one text source replaced. *)
Definition with_ps_python (out : result jsstring) (e : Env) : Env :=
  mkEnv (sysctl_memsize e) (vm_stat e) (ps_aux e) out (ps_claude e)
    (lsof_cwd e) (ps_vscode e) (osascript_windows e) (ps_renderers e)
    (osascript_tabs e) (random e) (now e).

Definition with_ps_claude (out : result jsstring) (e : Env) : Env :=
  mkEnv (sysctl_memsize e) (vm_stat e) (ps_aux e) (ps_python e) out
    (lsof_cwd e) (ps_vscode e) (osascript_windows e) (ps_renderers e)
    (osascript_tabs e) (random e) (now e).

Definition with_lsof_cwd (lsof : number -> result jsstring) (e : Env) : Env :=
  mkEnv (sysctl_memsize e) (vm_stat e) (ps_aux e) (ps_python e) (ps_claude e)
    lsof (ps_vscode e) (osascript_windows e) (ps_renderers e)
    (osascript_tabs e) (random e) (now e).

Definition with_ps_vscode (out : result jsstring) (e : Env) : Env :=
  mkEnv (sysctl_memsize e) (vm_stat e) (ps_aux e) (ps_python e) (ps_claude e)
    (lsof_cwd e) out (osascript_windows e) (ps_renderers e)
    (osascript_tabs e) (random e) (now e).

Definition with_osascript_windows (out : result jsstring) (e : Env) : Env :=
  mkEnv (sysctl_memsize e) (vm_stat e) (ps_aux e) (ps_python e) (ps_claude e)
    (lsof_cwd e) (ps_vscode e) out (ps_renderers e)
    (osascript_tabs e) (random e) (now e).

Definition with_ps_renderers (out : result jsstring) (e : Env) : Env :=
  mkEnv (sysctl_memsize e) (vm_stat e) (ps_aux e) (ps_python e) (ps_claude e)
    (lsof_cwd e) (ps_vscode e) (osascript_windows e) out
    (osascript_tabs e) (random e) (now e).

Definition with_osascript_tabs (out : result jsstring) (e : Env) : Env :=
  mkEnv (sysctl_memsize e) (vm_stat e) (ps_aux e) (ps_python e) (ps_claude e)
    (lsof_cwd e) (ps_vscode e) (osascript_windows e) (ps_renderers e)
    out (random e) (now e).

(** A row of [ps aux]: USER PID %CPU %MEM VSZ RSS TT STAT STARTED TIME
    COMMAND, the columns separated by one space. *)
Definition ps_row (user pid cpu mem vsz rss tt stat started time : jsstring)
    (command : list jsstring) : jsstring :=
  join (str " ")
    ([user; pid; cpu; mem; vsz; rss; tt; stat; started; time] ++ command).

(** A column of a row of [ps]: not empty and without white space. *)
Definition column (t : jsstring) : Prop :=
  t <> [] /\ Forall (fun c => is_space c = false) t.

(** The columns of a row that the scenario leaves open. *)
Record Columns : Type := mkColumns
  { col_user : jsstring; col_cpu : jsstring; col_mem : jsstring;
    col_vsz : jsstring; col_tt : jsstring; col_stat : jsstring;
    col_started : jsstring; col_time : jsstring }.

Definition columns_ok (c : Columns) : Prop :=
  column (col_user c) /\ column (col_cpu c) /\ column (col_mem c)
  /\ column (col_vsz c) /\ column (col_tt c) /\ column (col_stat c)
  /\ column (col_started c) /\ column (col_time c).

(** The row of [ps aux] of a process, given its pid, its RSS in KB and the
    words of its command line. *)
Definition process_row (c : Columns) (pid rss : jsstring)
    (command : list jsstring) : jsstring :=
  ps_row (col_user c) pid (col_cpu c) (col_mem c) (col_vsz c) rss (col_tt c)
    (col_stat c) (col_started c) (col_time c) command.

Definition sample_columns : Columns :=
  mkColumns (str "max") (str "0.0") (str "1.2") (str "410000") (str "??")
    (str "S") (str "10:00AM") (str "0:01.00").

(** Text made of lines, each ended by a newline. *)
Fixpoint text (lines : list jsstring) : jsstring :=
  match lines with
  | [] => []
  | l :: rest => l ++ newline ++ text rest
  end.

(** The two processes of the end-to-end scenario of the scripts list, the
    columns that the scenario leaves open being [c1] and [c2]. *)
Definition scenario_row_100 (c1 : Columns) : jsstring :=
  process_row c1 (str "100") (str "204800")
    [str "/usr/bin/python3"; str "ingest_pipeline.py"].

Definition scenario_row_101 (c2 : Columns) : jsstring :=
  process_row c2 (str "101") (str "5120")
    [str "/usr/bin/python3"; str "tiny.py"].

Definition scenario_output (c1 c2 : Columns) : jsstring :=
  text [scenario_row_100 c1; scenario_row_101 c2].

(** Rows of seven fields, the command in the seventh. *)
Definition short_claude_row : jsstring :=
  str "max 4242 0.0 1.2 410000 102400 claude".

Definition short_python_row : jsstring :=
  str "max 77 0.0 1.2 410000 204800 python3".


(** Somewhere in [s] the text [.py] comes right after a character other than
    white space and the slash. *)
Fixpoint py_inside (s : jsstring) : bool :=
  match s with
  | [] => false
  | c :: s' => (is_name_char c && starts_with (str ".py") s') || py_inside s'
  end.



(** The number is an integer from 50 to 150. *)
Definition in_fallback_range (a : number) : Prop :=
  exists z : Z, a = num_of_Z z /\ (50 <= z <= 150)%Z.

(** [rendererMemory[i]] when it is neither missing, [0] nor [NaN]. *)
Definition known_memory (rendererMemory : list number) (i : nat)
  : option number :=
  match nth_error rendererMemory i with
  | Some m => if truthy m then Some m else None
  | None => None
  end.

(** The title and the URL that line 212 reads off a tab line. *)
Definition line_title (line : jsstring) : option jsstring :=
  nth_error (split (str "|||") line) 0.

Definition line_url (line : jsstring) : option jsstring :=
  nth_error (split (str "|||") line) 1.

(** The tabs before the sort of line 220: empty when a source failed. *)
Definition tabs_presort (e : Env) : list ChromeTab.t :=
  match ps_renderers e, osascript_tabs e with
  | Ok psOutput, Ok tabsOutput =>
      correlate_tabs (random e) (renderers_of_output psOutput)
        (tab_lines tabsOutput)
  | _, _ => []
  end.

(** The first rule, in list order, whose pattern matches the command line of
    the row; a row with fewer than eleven fields is no process record and has
    no owner. *)
Definition owner (patterns : list AppPattern) (line : jsstring)
  : option AppPattern :=
  if (List.length (fields line) <? 11)%nat then None
  else find (fun app => pattern app (command_of (fields line))) patterns.

(** The row is attributed to the group named [g]. *)
Definition owned_by (patterns : list AppPattern) (g : jsstring)
    (line : jsstring) : bool :=
  match owner patterns line with
  | Some app => str_eqb (name app) g
  | None => false
  end.

(** [parseInt(parts[5]) / 1024] of a row. *)
Definition rss_of (line : jsstring) : number :=
  num_div (parseInt (nth_error (fields line) 5)) (num_of_Z 1024).

(** The rows attributed to the group [g], in the order of the table. *)
Definition rows_of (patterns : list AppPattern) (g : jsstring)
    (lines : list jsstring) : list jsstring :=
  filter (owned_by patterns g) lines.

(** The sum [0 + r1 + r2 + ...] of the resident sizes of rows. *)
Definition rss_sum (rows : list jsstring) : number :=
  fold_left num_add (map rss_of rows) (num_of_Z 0).

Definition with_vm_stat (out : result jsstring) (e : Env) : Env :=
  mkEnv (sysctl_memsize e) out (ps_aux e) (ps_python e) (ps_claude e)
    (lsof_cwd e) (ps_vscode e) (osascript_windows e) (ps_renderers e)
    (osascript_tabs e) (random e) (now e).

Definition with_random (draws : nat -> Q) (e : Env) : Env :=
  mkEnv (sysctl_memsize e) (vm_stat e) (ps_aux e) (ps_python e) (ps_claude e)
    (lsof_cwd e) (ps_vscode e) (osascript_windows e) (ps_renderers e)
    (osascript_tabs e) draws (now e).

(** The lists of the snapshot before their final sort; a list whose
    process-table source failed is empty. *)
Definition python_presort (e : Env) : list PythonProcess.t :=
  match ps_python e with
  | Ok output => python_unsorted output
  | Throw => []
  end.

Definition claude_presort (e : Env) : list ClaudeSession.t :=
  match ps_claude e with
  | Ok output => claude_unsorted (lsof_cwd e) output
  | Throw => []
  end.

Definition vscode_presort (e : Env) : list VSCodeWorkspace.t :=
  match ps_vscode e with
  | Ok output => vscode_unsorted (osascript_windows e) output
  | Throw => []
  end.

Definition apps_presort (psOutput : jsstring) : list AppMemory.t :=
  apps_unsorted (classify appPatterns (table_lines psOutput)).

(** [used] of line 239. *)
Definition used_of (vmStat : jsstring) : number :=
  num_add
    (num_add (parseVmStat vmStat (str "Pages wired down"))
             (parseVmStat vmStat (str "Pages active")))
    (parseVmStat vmStat (str "Pages occupied by compressor")).

(** The snapshot returned when the three top-level sources answered
    [memsize], [vmStat] and [psOutput]. *)
Definition snapshot_of (e : Env) (memsize vmStat psOutput : jsstring)
  : SystemMemory.t :=
  let totalRam := to_GB (parseInt_string memsize) in
  SystemMemory.mk (Math_round totalRam) (round1 (used_of vmStat))
    (round1 (num_sub totalRam (used_of vmStat)))
    (sort (by_memory_desc AppMemory.memory) (apps_presort psOutput))
    (sort (by_memory_desc ChromeTab.memory) (tabs_presort e))
    (sort (by_memory_desc PythonProcess.memory) (python_presort e))
    (sort (by_memory_desc ClaudeSession.memory) (claude_presort e))
    (sort (by_memory_desc VSCodeWorkspace.memory) (vscode_presort e))
    (now e).

(** A snapshot with one field replaced. *)
Definition set_chromeTabs (l : list ChromeTab.t) (s : SystemMemory.t)
  : SystemMemory.t :=
  SystemMemory.mk (SystemMemory.total s) (SystemMemory.used s)
    (SystemMemory.free s) (SystemMemory.apps s) l
    (SystemMemory.pythonProcesses s) (SystemMemory.claudeSessions s)
    (SystemMemory.vscodeWorkspaces s) (SystemMemory.timestamp s).

Definition set_pythonProcesses (l : list PythonProcess.t) (s : SystemMemory.t)
  : SystemMemory.t :=
  SystemMemory.mk (SystemMemory.total s) (SystemMemory.used s)
    (SystemMemory.free s) (SystemMemory.apps s) (SystemMemory.chromeTabs s)
    l (SystemMemory.claudeSessions s)
    (SystemMemory.vscodeWorkspaces s) (SystemMemory.timestamp s).

Definition set_claudeSessions (l : list ClaudeSession.t) (s : SystemMemory.t)
  : SystemMemory.t :=
  SystemMemory.mk (SystemMemory.total s) (SystemMemory.used s)
    (SystemMemory.free s) (SystemMemory.apps s) (SystemMemory.chromeTabs s)
    (SystemMemory.pythonProcesses s) l
    (SystemMemory.vscodeWorkspaces s) (SystemMemory.timestamp s).

Definition set_vscodeWorkspaces (l : list VSCodeWorkspace.t)
    (s : SystemMemory.t) : SystemMemory.t :=
  SystemMemory.mk (SystemMemory.total s) (SystemMemory.used s)
    (SystemMemory.free s) (SystemMemory.apps s) (SystemMemory.chromeTabs s)
    (SystemMemory.pythonProcesses s) (SystemMemory.claudeSessions s)
    l (SystemMemory.timestamp s).

Definition set_timestamp (t : Z) (s : SystemMemory.t) : SystemMemory.t :=
  SystemMemory.mk (SystemMemory.total s) (SystemMemory.used s)
    (SystemMemory.free s) (SystemMemory.apps s) (SystemMemory.chromeTabs s)
    (SystemMemory.pythonProcesses s) (SystemMemory.claudeSessions s)
    (SystemMemory.vscodeWorkspaces s) t.

(** Two runs read the same raw text from every source. *)
Definition same_inputs (e1 e2 : Env) : Prop :=
  sysctl_memsize e1 = sysctl_memsize e2
  /\ vm_stat e1 = vm_stat e2
  /\ ps_aux e1 = ps_aux e2
  /\ ps_python e1 = ps_python e2
  /\ ps_claude e1 = ps_claude e2
  /\ (forall pid, lsof_cwd e1 pid = lsof_cwd e2 pid)
  /\ ps_vscode e1 = ps_vscode e2
  /\ osascript_windows e1 = osascript_windows e2
  /\ ps_renderers e1 = ps_renderers e2
  /\ osascript_tabs e1 = osascript_tabs e2.

(** Two runs draw the same values from [Math.random()]. *)
Definition same_draws (e1 e2 : Env) : Prop :=
  forall n, random e1 n = random e2 n.

(** Every tab has, at its index, a renderer value that is a number other
    than 0: no estimate is drawn. *)
Definition no_fallback (e : Env) : Prop :=
  forall psOutput tabsOutput,
    ps_renderers e = Ok psOutput -> osascript_tabs e = Ok tabsOutput ->
    forall i, (i < List.length (tab_lines tabsOutput))%nat ->
              known_memory (renderers_of_output psOutput) i <> None.

(** The two runs agree: both throw, or both return and the snapshots differ
    in the timestamp at most. *)
Definition same_up_to_timestamp (r1 r2 : result SystemMemory.t) : Prop :=
  match r1, r2 with
  | Ok s1, Ok s2 => s2 = set_timestamp (SystemMemory.timestamp s2) s1
  | Throw, Throw => True
  | _, _ => False
  end.

(** A sample of every source, as the commands print them. *)
Definition sample_ps_aux : jsstring :=
  text
    [ str "USER PID %CPU %MEM VSZ RSS TT STAT STARTED TIME COMMAND";
      scenario_row_100 sample_columns;
      str "max 210 1.0 2.0 900000 614400 ?? S 9:00AM 1:00.00 claude";
      str "max 300 3.0 1.0 800000 307200 ?? S 9:00AM 2:00.00 /Applications/Google Chrome.app/Contents/MacOS/Google Chrome";
      str "max 400 0.0 0.1 500000 51200 ?? S 9:00AM 0:10.00 node server.js";
      str "root 1 0.0 0.0 400000 10240 ?? Ss 8:00AM 0:05.00 /sbin/launchd" ].

Definition sample_ps_claude : jsstring :=
  text
    [ str "max 211 0.5 1.0 700000 102400 ?? S 9:05AM 0:20.00 claude --resume";
      str "max 210 1.0 2.0 900000 614400 ?? S 9:00AM 1:00.00 claude" ].

Definition sample_ps_vscode : jsstring :=
  text
    [ str "max 500 0.5 1.0 700000 204800 ?? S 9:05AM 0:20.00 /Applications/Visual Studio Code.app/Contents/Frameworks/Code Helper";
      str "max 501 0.5 1.0 700000 102400 ?? S 9:05AM 0:20.00 /Applications/Visual Studio Code.app/Contents/MacOS/Electron" ].

Definition sample_ps_renderers : jsstring :=
  text
    [ str "max 301 2.0 1.0 800000 307200 ?? S 9:00AM 2:00.00 Google Chrome Helper (Renderer)";
      str "max 302 1.0 1.0 800000 122880 ?? S 9:00AM 1:00.00 Google Chrome Helper (Renderer)" ].

Definition sample_tabs : jsstring :=
  text [ str "Inbox|||https://mail.example"; str "News|||https://news.example";
         str "Docs|||https://docs.example" ].

Definition sample_vm_stat : jsstring :=
  text
    [ str "Mach Virtual Memory Statistics: (page size of 16384 bytes)";
      str "Pages free:                               10000.";
      str "Pages active:                            524288.";
      str "Pages wired down:                        262144.";
      str "Pages occupied by compressor:            131072." ].

Definition sample_env : Env :=
  mkEnv (Ok (text [str "34359738368"])) (Ok sample_vm_stat)
    (Ok sample_ps_aux) (Ok (scenario_output sample_columns sample_columns))
    (Ok sample_ps_claude)
    (fun _ => Ok (text [str "/Users/maxghenis/ram-dashboard"]))
    (Ok sample_ps_vscode)
    (Ok (str "server.ts " ++ [8212%N] ++ str " ram-dashboard, notes.md "
           ++ [8212%N] ++ str " notes [2]"))
    (Ok sample_ps_renderers) (Ok sample_tabs) (fun _ => 1 # 3) 0%Z.



(** ** Vocabulary of the further properties *)

(** A non-empty string of decimal digits. *)
Definition all_digits (s : jsstring) : Prop :=
  s <> [] /\ Forall (fun c => is_digit c = true) s.

(** The number that decimal digits write after the digits of [acc]. *)
Fixpoint digits_value (s : jsstring) (acc : Z) : Z :=
  match s with
  | [] => acc
  | c :: s' => digits_value s' (acc * 10 + (Z.of_N c - 48))
  end.

(** An integer that [parseInt] returns exactly: every integer of magnitude
    at most [2^53] is a double, and a double divided by a power of two is
    again a double, so the arithmetic of the pipeline on such a value is
    exact.  A longer digit string is rounded by [parseInt] to the nearest
    double. *)
Definition exactly_read (k : Z) : Prop :=
  (- 9007199254740992 <= k <= 9007199254740992)%Z.

(** [s] is empty or begins with a character that is neither a digit nor the
    [x] of a hexadecimal prefix. *)
Definition ends_number (s : jsstring) : Prop :=
  match s with
  | [] => True
  | c :: _ => is_digit c = false /\ c <> 120%N /\ c <> 88%N
  end.

(** The literal [pat] begins at one of the positions of [pre] in the text
    [pre ++ rest]. *)
Fixpoint begins_within (pat pre rest : jsstring) : bool :=
  match pre with
  | [] => false
  | _ :: pre' => starts_with pat (pre ++ rest) || begins_within pat pre' rest
  end.


(** The value is a number and is not negative. *)
Definition nonneg (a : number) : Prop := exists q : Q, a = Num q /\ 0 <= q.

(** The columns of a row as [ps] prints it: at least one column. *)
Definition row_columns (r : list jsstring) : Prop :=
  r <> [] /\ Forall column r.

(** The text of a table whose rows are given by their columns. *)
Definition table_text (rows : list (list jsstring)) : jsstring :=
  text (map (join (str " ")) rows).

(** A path segment that names a project: not empty, without a slash, and
    neither of the two segments that the session path filters out. *)
Definition informative (seg : jsstring) : Prop :=
  seg <> [] /\ Forall (fun c => c <> 47%N) seg
  /\ seg <> str "Users" /\ seg <> str "maxghenis".

(** The three kinds of label that a script entry can carry: the match of the
    [.py] pattern, the friendly name of a known tool, or the first 40
    characters of the command followed by three dots. *)
Inductive label_kind (script : jsstring) (memory : number) : Prop :=
| label_py (stem : jsstring) :
    stem <> [] -> Forall (fun c => is_name_char c = true) stem ->
    script = stem ++ str ".py" -> label_kind script memory
| label_tool :
    In script [str "voice-mode (MCP)"; str "Supabase Ingestor";
               str "uv script"] ->
    label_kind script memory
| label_truncated (prefix : jsstring) :
    (List.length prefix <= 40)%nat -> script = prefix ++ str "..." ->
    num_gt memory (num_of_Z 100) = true -> label_kind script memory.

(** The filter [p => p && p !== 'Users' && p !== 'maxghenis'] of the path
    segments. *)
Definition keeps_segment (p : jsstring) : bool :=
  nonempty p && negb (str_eqb p (str "Users"))
  && negb (str_eqb p (str "maxghenis")).

(** What the session loop keeps of every session it pushes. *)
Definition session_ok (s : ClaudeSession.t) : Prop :=
  num_lt (ClaudeSession.memory s) (num_of_Z 50) = false
  /\ ClaudeSession.projectName s = project_name (ClaudeSession.workingDir s)
  /\ trim (ClaudeSession.workingDir s) = ClaudeSession.workingDir s
  /\ (ClaudeSession.isSubagent s = true ->
      exists q, ClaudeSession.memory s = Num q /\ 50 <= q /\ q < 500).

(** ** The script of the page (lines 916-1033)

    The snapshot reaches the script as JSON, in which [NaN] is written
    [null]; compared with the positive thresholds below, [null] gives [false]
    as [NaN] does, so the memory values are taken as the server computed
    them. *)

(** [getMemClass] (lines 917-921). *)
Definition getMemClass (mb : number) : jsstring :=
  if num_ge mb (num_of_Z 500) then str "high"
  else if num_ge mb (num_of_Z 200) then str "medium"
  else str "low".

(** [c.memory > 500 ? 'main' : 'subagent'] (line 974). *)
Definition session_badge (memory : number) : jsstring :=
  if num_gt memory (num_of_Z 500) then str "main" else str "subagent".

(** [data.claudeSessions.filter(c => c.memory > 200).length] (line 967). *)
Definition mainSessions (sessions : list ClaudeSession.t) : nat :=
  List.length
    (filter (fun c => num_gt (ClaudeSession.memory c) (num_of_Z 200)) sessions).

(** [data.claudeSessions.filter(c => c.memory > 50)] (line 970): the sessions
    that are shown. *)
Definition shown_sessions (sessions : list ClaudeSession.t)
  : list ClaudeSession.t :=
  filter (fun c => num_gt (ClaudeSession.memory c) (num_of_Z 50)) sessions.

(** [data.chromeTabs.slice(0, 15)] (line 1006): the tabs that are shown. *)
Definition shown_tabs (tabs : list ChromeTab.t) : list ChromeTab.t :=
  firstn 15 tabs.

(** The sum of the memories of the process rows of VS Code, and their
    number: [totalMemory] and [totalProcesses] when the loop of lines
    149-154 ends. *)
Definition vscode_total_memory (output : jsstring) : number :=
  fold_left num_add
    (map (fun line => memory_MB (fields line)) (output_lines output))
    (num_of_Z 0).

Definition vscode_total_processes (output : jsstring) : number :=
  num_of_nat (List.length (output_lines output)).

(** [windowsOutput.trim().split(', ').filter(w => w.length > 0)] *)
Definition window_titles (windowsOutput : jsstring) : list jsstring :=
  filter nonempty (split (str ", ") (trim windowsOutput)).

(** The path that line 169 reads off a window title. *)
Definition window_path (window : jsstring) : jsstring :=
  match window_match window with
  | Some m => trim m
  | None => window
  end.

(** The share of a total that each of [n] windows receives:
    [Math.round(total / Math.max(n, 1))]. *)
Definition window_share (total : number) (n : nat) : number :=
  Math_round (num_div total (Math_max (num_of_nat n) (num_of_Z 1))).

(** The em dash and the space that precede the path in a window title. *)
Definition dash_space : jsstring := [8212%N; 32%N].

(** The row is attributed to a group. *)
Definition has_owner (patterns : list AppPattern) (line : jsstring) : bool :=
  match owner patterns line with
  | Some _ => true
  | None => false
  end.

(** A session without what the lookup of the working directory gave: the
    session that is pushed when the lookup fails. *)
Definition without_directory (s : ClaudeSession.t) : ClaudeSession.t :=
  ClaudeSession.mk [] (str "Home") (ClaudeSession.memory s)
    (ClaudeSession.pid s) (ClaudeSession.isSubagent s).

(** No character of the text is a line terminator. *)
Definition one_line (s : jsstring) : Prop :=
  Forall (fun c => is_line_terminator c = false) s.
(** ** Properties of the primitives *)

Lemma str_eqb_eq (a b : jsstring) : str_eqb a b = true <-> a = b.
Proof.
  revert b; induction a as [|x a IH]; intros [|y b]; simpl;
    try (split; [discriminate | congruence]); try tauto.
  unfold char_eqb. rewrite andb_true_iff, N.eqb_eq, IH.
  split; [intros [-> ->]; reflexivity | intros H; injection H; auto].
Qed.

Lemma str_eqb_refl (a : jsstring) : str_eqb a a = true.
Proof. apply str_eqb_eq; reflexivity. Qed.

Lemma str_eqb_neq (a b : jsstring) : str_eqb a b = false <-> a <> b.
Proof.
  rewrite <- str_eqb_eq. destruct (str_eqb a b); split; congruence.
Qed.

Section SortFacts.
Variable A : Type.
Variable key : A -> number.

Let cmp := by_memory_desc key.

Lemma precedes_numbers (x y : A) (a b : Q) :
  key x = Num a -> key y = Num b ->
  (precedes cmp y x = true <-> a < b).
Proof.
  intros Hx Hy. unfold precedes, cmp, by_memory_desc.
  rewrite Hx, Hy. simpl. rewrite negb_true_iff.
  split.
  - intros H. apply Qnot_le_lt. intros Hle.
    assert (Qle_bool (inject_Z 0) (a - b) = true) as E
        by (apply Qle_bool_iff; change (inject_Z 0) with 0; lra).
    congruence.
  - intros H. destruct (Qle_bool (inject_Z 0) (a - b)) eqn:E; [|reflexivity].
    apply Qle_bool_iff in E. change (inject_Z 0) with 0 in E. lra.
Qed.

Lemma precedes_NaN_l (x y : A) : key x = NaN -> precedes cmp y x = false.
Proof.
  intros Hx. unfold precedes, cmp, by_memory_desc. rewrite Hx. reflexivity.
Qed.

Lemma insert_perm (x : A) (l : list A) :
  Permutation (x :: l) (insert cmp x l).
Proof.
  induction l as [|y l IH]; simpl; [reflexivity|].
  destruct (precedes cmp y x); [|reflexivity].
  rewrite perm_swap. apply perm_skip, IH.
Qed.

Lemma sort_perm (l : list A) : Permutation l (sort cmp l).
Proof.
  induction l as [|x l IH]; simpl; [constructor|].
  rewrite <- insert_perm. apply perm_skip, IH.
Qed.

Lemma sort_length (l : list A) : List.length (sort cmp l) = List.length l.
Proof. symmetry. apply Permutation_length, sort_perm. Qed.

Lemma sort_In (x : A) (l : list A) : In x (sort cmp l) <-> In x l.
Proof.
  split; apply Permutation_in; [symmetry|]; apply sort_perm.
Qed.

Lemma numeric_perm (l l' : list A) :
  Permutation l l' -> numeric key l -> numeric key l'.
Proof. intros P H. unfold numeric in *. now rewrite <- P. Qed.

Lemma num_ge_trans (a b c : number) :
  num_ge a b = true -> num_ge b c = true -> num_ge a c = true.
Proof.
  destruct a, b, c; simpl; try discriminate.
  rewrite !Qle_bool_iff. intros; lra.
Qed.

Lemma insert_descending (x : A) (l : list A) :
  is_number (key x) -> numeric key l ->
  descending key l -> descending key (insert cmp x l).
Proof.
  intros Hx Hl Hs. induction l as [|y l IH]; simpl.
  - repeat constructor.
  - inversion Hl as [|? ? Hy Hl']; subst.
    apply StronglySorted_inv in Hs as [Hs Hall].
    unfold is_number in Hx, Hy.
    destruct (key x) as [|a] eqn:Ex; [congruence|].
    destruct (key y) as [|b] eqn:Ey; [congruence|].
    destruct (precedes cmp y x) eqn:E.
    + apply (precedes_numbers Ex Ey) in E.
      constructor; [apply IH; assumption|].
      rewrite <- (insert_perm x l). rewrite Ey.
      constructor; [|assumption].
      rewrite Ex. simpl. apply Qle_bool_iff. lra.
    + assert (Qle_bool b a = true) as Hxy.
      { apply Qle_bool_iff. apply Qnot_lt_le. intros Hlt.
        apply (precedes_numbers Ex Ey) in Hlt. congruence. }
      constructor.
      * constructor; [assumption|]. rewrite Ey. assumption.
      * rewrite Ex. constructor; [rewrite Ey; exact Hxy|].
        eapply Forall_impl; [|exact Hall].
        intros z Hz. eapply num_ge_trans; [|exact Hz]. exact Hxy.
Qed.

Lemma sort_descending (l : list A) :
  numeric key l -> descending key (sort cmp l).
Proof.
  induction l as [|x l IH]; intros Hl; simpl; [constructor|].
  inversion Hl; subst.
  apply insert_descending; auto.
  eapply numeric_perm; [apply sort_perm | assumption].
Qed.



End SortFacts.

(** ** The script pattern *)



Lemma py_at_inside (s m : jsstring) : py_at s = Some m -> py_inside s = true.
Proof.
  revert m. induction s as [|c s IH]; intros m; cbn [py_at py_inside];
    [discriminate|].
  destruct (is_name_char c); [|discriminate].
  destruct (py_at s) as [m'|].
  - intros _. rewrite (IH m' eq_refl). apply orb_true_r.
  - destruct (starts_with (str ".py") s); [reflexivity|discriminate].
Qed.






(** ** The tab loop *)

Lemma fallback_estimate_range (r : Q) :
  0 <= r /\ r < 1 -> in_fallback_range (fallback_estimate r).
Proof.
  intros [H0 H1]. unfold fallback_estimate, in_fallback_range.
  cbn [num_of_Z num_mul num_add Math_round].
  eexists; split; [reflexivity|].
  set (x := inject_Z 50 + r * inject_Z 100 + (1 # 2)).
  assert (inject_Z 50 <= x) as Hlo
      by (unfold x; change (inject_Z 50) with 50;
          change (inject_Z 100) with 100; lra).
  assert (x <= 301 # 2) as Hhi
      by (unfold x; change (inject_Z 50) with 50;
          change (inject_Z 100) with 100; lra).
  apply Qfloor_resp_le in Hlo, Hhi.
  rewrite Qfloor_Z in Hlo.
  change (Qfloor (301 # 2)) with 150%Z in Hhi. lia.
Qed.

Section TabLoop.
Variable random : nat -> Q.
Variable rendererMemory : list number.

Lemma tabs_loop_acc (tabLines : list jsstring) (i calls : nat)
    (tabs : list ChromeTab.t) :
  tabs_loop random rendererMemory tabLines i calls tabs
  = tabs ++ tabs_loop random rendererMemory tabLines i calls [].
Proof.
  revert i calls tabs.
  induction tabLines as [|line rest IH]; intros i calls tabs;
    cbn [tabs_loop]; [now rewrite app_nil_r|].
  rewrite IH. rewrite (IH _ _ ([] ++ _)).
  rewrite <- app_assoc. reflexivity.
Qed.

Lemma tabs_loop_length (tabLines : list jsstring) (i calls : nat) :
  List.length (tabs_loop random rendererMemory tabLines i calls [])
  = List.length tabLines.
Proof.
  revert i calls. induction tabLines as [|line rest IH]; intros i calls;
    cbn [tabs_loop]; [reflexivity|].
  rewrite tabs_loop_acc, length_app, IH. reflexivity.
Qed.

Lemma tabs_loop_titles (tabLines : list jsstring) (i calls : nat) :
  map ChromeTab.title (tabs_loop random rendererMemory tabLines i calls [])
  = map (fun line => tab_title (line_title line)) tabLines.
Proof.
  revert i calls. induction tabLines as [|line rest IH]; intros i calls;
    cbn [tabs_loop]; [reflexivity|].
  rewrite tabs_loop_acc, map_app, IH. reflexivity.
Qed.

Lemma tabs_loop_urls (tabLines : list jsstring) (i calls : nat) :
  map ChromeTab.url (tabs_loop random rendererMemory tabLines i calls [])
  = map (fun line => tab_url (line_url line)) tabLines.
Proof.
  revert i calls. induction tabLines as [|line rest IH]; intros i calls;
    cbn [tabs_loop]; [reflexivity|].
  rewrite tabs_loop_acc, map_app, IH. reflexivity.
Qed.

(** The memory of the tab at index [j] of the rest of the loop, which is
    the tab of index [i + j]. *)
Lemma tabs_loop_memory (tabLines : list jsstring) (i calls j : nat)
    (tab : ChromeTab.t) :
  random_ok random ->
  nth_error (tabs_loop random rendererMemory tabLines i calls []) j
  = Some tab ->
  match known_memory rendererMemory (i + j) with
  | Some m => ChromeTab.memory tab = m
  | None => in_fallback_range (ChromeTab.memory tab)
  end.
Proof.
  intros Hr. revert i calls j.
  induction tabLines as [|line rest IH]; intros i calls j;
    cbn [tabs_loop]; [destruct j; discriminate|].
  rewrite tabs_loop_acc. cbn [app].
  destruct j as [|j]; cbn [nth_error].
  - intros H. injection H as <-. cbn [ChromeTab.memory].
    rewrite Nat.add_0_r. unfold known_memory.
    destruct (nth_error rendererMemory i) as [m|];
      [destruct (truthy m)|]; try reflexivity;
      apply fallback_estimate_range, Hr.
  - intros H. apply IH in H. rewrite <- plus_n_Sm. exact H.
Qed.
End TabLoop.

Lemma in_fallback_range_number (a : number) :
  in_fallback_range a -> is_number a.
Proof. intros (z & -> & _). discriminate. Qed.

Lemma truthy_number (a : number) : truthy a = true -> is_number a.
Proof. destruct a; [discriminate|intros _; discriminate]. Qed.

Lemma tab_title_bound (title : option jsstring) :
  (List.length (tab_title title) <= 60)%nat /\ tab_title title <> [].
Proof.
  unfold tab_title. destruct title as [t|]; [|split; [cbn; lia|discriminate]].
  destruct (nonempty (substring0 60 t)) eqn:E.
  - split; [apply firstn_le_length|].
    intros H. rewrite H in E. discriminate.
  - split; [cbn; lia|discriminate].
Qed.

Lemma line_title_empty (rest : jsstring) :
  line_title (str "|||" ++ rest) = Some [].
Proof. reflexivity. Qed.

Lemma split_bars_go (t cur : jsstring) :
  Forall (fun c => c <> 124%N) t ->
  split_go (str "|||") (t ++ str "|||") 0 cur = [rev cur ++ t; []].
Proof.
  intros Ht. revert cur. induction Ht as [|c t Hc _ IH]; intros cur.
  - cbn. rewrite app_nil_r. reflexivity.
  - change ((c :: t) ++ str "|||") with (c :: (t ++ str "|||")).
    cbn [split_go].
    assert (starts_with (str "|||") (c :: t ++ str "|||") = false) as ->.
    { change (str "|||") with [124; 124; 124]%N. cbn [starts_with].
      unfold char_eqb. destruct (N.eqb_spec 124 c); [congruence|reflexivity]. }
    rewrite IH. cbn [rev]. rewrite <- app_assoc. reflexivity.
Qed.

Lemma line_without_url (t : jsstring) :
  Forall (fun c => c <> 124%N) t ->
  line_title (t ++ str "|||") = Some t /\ line_url (t ++ str "|||") = Some [].
Proof.
  intros Ht. unfold line_title, line_url, split.
  rewrite split_bars_go by assumption. split; reflexivity.
Qed.

Lemma correlate_tabs_nth (random : nat -> Q) (rendererMemory : list number)
    (tabLines : list jsstring) (i : nat) (line : jsstring) (tab : ChromeTab.t) :
  nth_error tabLines i = Some line ->
  nth_error (correlate_tabs random rendererMemory tabLines) i = Some tab ->
  ChromeTab.title tab = tab_title (line_title line)
  /\ ChromeTab.url tab = tab_url (line_url line).
Proof.
  intros Hl Ht. unfold correlate_tabs in Ht.
  pose proof (tabs_loop_titles random rendererMemory tabLines 0 0) as T.
  pose proof (tabs_loop_urls random rendererMemory tabLines 0 0) as U.
  apply (f_equal (fun l => nth_error l i)) in T, U.
  rewrite !nth_error_map, Ht, Hl in T, U. cbn in T, U.
  injection T as T. injection U as U. auto.
Qed.

(** [getChromeTabs] when both of its sources answer. *)
Lemma getChromeTabs_ok (e : Env) (psOutput tabsOutput : jsstring) :
  ps_renderers e = Ok psOutput -> osascript_tabs e = Ok tabsOutput ->
  getChromeTabs e
  = Ok (sort (by_memory_desc ChromeTab.memory)
          (correlate_tabs (random e) (renderers_of_output psOutput)
             (tab_lines tabsOutput))).
Proof.
  intros H1 H2. unfold getChromeTabs. rewrite H1. cbn. rewrite H2.
  reflexivity.
Qed.

(** What [getChromeTabs] returns, source by source. *)
Lemma getChromeTabs_cases (e : Env) :
  getChromeTabs e =
  match ps_renderers e, osascript_tabs e with
  | Ok psOutput, Ok tabsOutput =>
      Ok (sort (by_memory_desc ChromeTab.memory)
            (correlate_tabs (random e) (renderers_of_output psOutput)
               (tab_lines tabsOutput)))
  | _, _ => Ok []
  end.
Proof.
  unfold getChromeTabs.
  destruct (ps_renderers e); cbn; [|reflexivity].
  destruct (osascript_tabs e); reflexivity.
Qed.

(** ** The map of application groups *)

Section MapFacts.
Variable V : Type.

Lemma map_get_set (m : Map V) (k g : jsstring) (v : V) :
  map_get (map_set m k v) g
  = if str_eqb k g then Some v else map_get m g.
Proof.
  induction m as [|[k' v'] m IH]; cbn [map_set map_get].
  - destruct (str_eqb k g); reflexivity.
  - destruct (str_eqb k' k) eqn:E; cbn [map_get].
    + apply str_eqb_eq in E. subst k'.
      destruct (str_eqb k g); reflexivity.
    + rewrite IH. destruct (str_eqb k' g) eqn:E'; [|reflexivity].
      apply str_eqb_eq in E'. subst k'.
      destruct (str_eqb k g) eqn:E2; [|reflexivity].
      apply str_eqb_eq in E2. subst k.
      rewrite str_eqb_refl in E. discriminate E.
Qed.

Lemma map_get_In (m : Map V) (g : jsstring) :
  In g (map fst m) <-> map_get m g <> None.
Proof.
  induction m as [|[k v] m IH]; cbn [map fst map_get In].
  - split; [tauto|congruence].
  - destruct (str_eqb k g) eqn:E.
    + apply str_eqb_eq in E. split; [discriminate|auto].
    + apply str_eqb_neq in E. rewrite <- IH. tauto.
Qed.

Lemma map_set_keys (m : Map V) (k : jsstring) (v : V) :
  NoDup (map fst m) -> NoDup (map fst (map_set m k v)).
Proof.
  induction m as [|[k' v'] m IH]; cbn [map_set map fst]; intros H.
  - repeat constructor. tauto.
  - inversion H as [|? ? Hnot Hnd]; subst.
    destruct (str_eqb k' k) eqn:E; cbn [map fst]; [constructor; assumption|].
    constructor; [|apply IH, Hnd].
    intros Hin. apply map_get_In in Hin. rewrite map_get_set in Hin.
    apply str_eqb_neq in E.
    destruct (str_eqb k k') eqn:E'.
    * apply str_eqb_eq in E'. congruence.
    * apply map_get_In in Hin. contradiction.
Qed.
End MapFacts.

Lemma num_succ (n : nat) :
  num_add (num_of_nat n) (num_of_Z 1) = num_of_nat (S n).
Proof.
  unfold num_of_nat, num_of_Z, num_add, Qplus, inject_Z. cbn [Qnum Qden].
  f_equal. f_equal. lia.
Qed.

Lemma fold_left_snoc (A B : Type) (f : A -> B -> A) (l : list B) (x : B)
    (a : A) :
  fold_left f (l ++ [x]) a = f (fold_left f l a) x.
Proof. rewrite fold_left_app. reflexivity. Qed.

(** The inner loop credits the first matching rule, or nobody. *)
Lemma scan_patterns_find (patterns : list AppPattern) (command : jsstring)
    (rss : number) (m : Map AppData) :
  scan_patterns patterns command rss m
  = match find (fun app => pattern app command) patterns with
    | Some app =>
        let current :=
          match map_get m (name app) with
          | Some data => data
          | None => mkAppData (num_of_Z 0) (num_of_Z 0) (color app)
          end in
        map_set m (name app)
          (mkAppData (num_add (app_memory current) rss)
             (num_add (app_processes current) (num_of_Z 1))
             (app_color current))
    | None => m
    end.
Proof.
  induction patterns as [|app rest IH]; cbn [scan_patterns find];
    [reflexivity|].
  destruct (pattern app command); [reflexivity|exact IH].
Qed.

Lemma classify_line_owner (patterns : list AppPattern) (m : Map AppData)
    (line : jsstring) :
  classify_line patterns m line
  = match owner patterns line with
    | Some app =>
        let current :=
          match map_get m (name app) with
          | Some data => data
          | None => mkAppData (num_of_Z 0) (num_of_Z 0) (color app)
          end in
        map_set m (name app)
          (mkAppData (num_add (app_memory current) (rss_of line))
             (num_add (app_processes current) (num_of_Z 1))
             (app_color current))
    | None => m
    end.
Proof.
  unfold classify_line, owner.
  destruct (List.length (fields line) <? 11)%nat; [reflexivity|].
  apply scan_patterns_find.
Qed.

Lemma classify_snoc (patterns : list AppPattern) (lines : list jsstring)
    (line : jsstring) :
  classify patterns (lines ++ [line])
  = classify_line patterns (classify patterns lines) line.
Proof. apply fold_left_snoc. Qed.

Lemma classify_keys (patterns : list AppPattern) (lines : list jsstring) :
  NoDup (map fst (classify patterns lines)).
Proof.
  induction lines as [|line lines IH] using rev_ind; [constructor|].
  rewrite classify_snoc, classify_line_owner.
  destruct (owner patterns line); [apply map_set_keys|]; exact IH.
Qed.

(** The entry of the group [g] after the table is read: absent when no row
    is attributed to [g], and otherwise the count and the sum of its rows. *)
Lemma classify_entry (patterns : list AppPattern) (lines : list jsstring)
    (g : jsstring) :
  match map_get (classify patterns lines) g with
  | None => rows_of patterns g lines = []
  | Some data =>
      rows_of patterns g lines <> []
      /\ app_processes data
         = num_of_nat (List.length (rows_of patterns g lines))
      /\ app_memory data = rss_sum (rows_of patterns g lines)
  end.
Proof.
  induction lines as [|line lines IH] using rev_ind; [reflexivity|].
  rewrite classify_snoc, classify_line_owner.
  unfold rows_of in *. rewrite filter_app. cbn [filter].
  destruct (owner patterns line) as [app|] eqn:Eo.
  - assert (owned_by patterns g line = str_eqb (name app) g) as ->
        by (unfold owned_by; rewrite Eo; reflexivity).
    cbn zeta. rewrite map_get_set.
    destruct (str_eqb (name app) g) eqn:E.
    + apply str_eqb_eq in E. subst g.
      destruct (map_get (classify patterns lines) (name app)) as [data|].
      * destruct IH as (Hne & Hp & Hm). cbn [app_memory app_processes].
        split; [intros H; apply app_eq_nil in H as [_ H]; discriminate|].
        rewrite length_app, Hp, Hm. cbn [List.length].
        rewrite Nat.add_1_r, num_succ. split; [reflexivity|].
        unfold rss_sum. rewrite map_app. cbn [map]. rewrite fold_left_snoc. reflexivity.
      * rewrite IH. cbn. split; [discriminate|split; reflexivity].
    + rewrite app_nil_r. exact IH.
  - assert (owned_by patterns g line = false) as ->
        by (unfold owned_by; rewrite Eo; reflexivity).
    rewrite app_nil_r. exact IH.
Qed.

Lemma map_get_of_In (V : Type) (m : Map V) (k : jsstring) (v : V) :
  NoDup (map fst m) -> In (k, v) m -> map_get m k = Some v.
Proof.
  induction m as [|[k' v'] m IH]; cbn [map fst map_get In]; [tauto|].
  intros Hnd [H|H].
  - injection H as -> ->. rewrite str_eqb_refl. reflexivity.
  - inversion Hnd as [|? ? Hnot Hnd']; subst.
    destruct (str_eqb k' k) eqn:E; [|apply IH; assumption].
    apply str_eqb_eq in E. subst k'.
    exfalso. apply Hnot. apply (in_map fst) in H. exact H.
Qed.

Lemma find_first (A : Type) (p : A -> bool) (l : list A) (x : A) :
  find p l = Some x ->
  exists before after,
    l = before ++ x :: after /\ p x = true
    /\ Forall (fun y => p y = false) before.
Proof.
  induction l as [|y l IH]; cbn [find]; [discriminate|].
  destruct (p y) eqn:E.
  - intros H. injection H as ->. exists [], l. auto.
  - intros H. destruct (IH H) as (before & after & -> & Hx & Hb).
    exists (y :: before), after. auto.
Qed.

Lemma apps_unsorted_names (m : Map AppData) :
  map AppMemory.name (apps_unsorted m) = map fst m.
Proof. unfold apps_unsorted. rewrite map_map. reflexivity. Qed.

(** ** The operations, source by source *)

Lemma sort_nil (A : Type) (cmp : A -> A -> number) : sort cmp [] = [].
Proof. reflexivity. Qed.

Lemma getChromeTabs_presort (e : Env) :
  getChromeTabs e = Ok (sort (by_memory_desc ChromeTab.memory) (tabs_presort e)).
Proof.
  rewrite getChromeTabs_cases. unfold tabs_presort.
  destruct (ps_renderers e); [destruct (osascript_tabs e)|]; reflexivity.
Qed.

Lemma getPythonProcesses_presort (e : Env) :
  getPythonProcesses e
  = Ok (sort (by_memory_desc PythonProcess.memory) (python_presort e)).
Proof.
  unfold getPythonProcesses, python_presort.
  destruct (ps_python e); reflexivity.
Qed.

Lemma getClaudeSessions_presort (e : Env) :
  getClaudeSessions e
  = Ok (sort (by_memory_desc ClaudeSession.memory) (claude_presort e)).
Proof.
  unfold getClaudeSessions, claude_presort.
  destruct (ps_claude e); reflexivity.
Qed.

Lemma getVSCodeWorkspaces_presort (e : Env) :
  getVSCodeWorkspaces e
  = Ok (sort (by_memory_desc VSCodeWorkspace.memory) (vscode_presort e)).
Proof.
  unfold getVSCodeWorkspaces, vscode_presort.
  destruct (ps_vscode e); reflexivity.
Qed.

(** [getSystemMemory] throws exactly when one of its three own sources
    does, and otherwise returns [snapshot_of]. *)
Lemma getSystemMemory_cases (e : Env) :
  getSystemMemory e =
  match sysctl_memsize e, vm_stat e, ps_aux e with
  | Ok memsize, Ok vmStat, Ok psOutput =>
      Ok (snapshot_of e memsize vmStat psOutput)
  | _, _, _ => Throw
  end.
Proof.
  unfold getSystemMemory.
  destruct (sysctl_memsize e) as [memsize|]; [|reflexivity].
  destruct (vm_stat e) as [vmStat|]; [|reflexivity].
  destruct (ps_aux e) as [psOutput|]; [|reflexivity].
  cbn [bind].
  rewrite getChromeTabs_presort, getPythonProcesses_presort,
    getClaudeSessions_presort, getVSCodeWorkspaces_presort.
  reflexivity.
Qed.

Lemma getSystemMemory_inv (e : Env) (s : SystemMemory.t) :
  getSystemMemory e = Ok s ->
  exists memsize vmStat psOutput,
    sysctl_memsize e = Ok memsize /\ vm_stat e = Ok vmStat
    /\ ps_aux e = Ok psOutput /\ s = snapshot_of e memsize vmStat psOutput.
Proof.
  rewrite getSystemMemory_cases.
  destruct (sysctl_memsize e) as [memsize|]; [|discriminate].
  destruct (vm_stat e) as [vmStat|]; [|discriminate].
  destruct (ps_aux e) as [psOutput|]; [|discriminate].
  intros H. injection H as <-. eauto 7.
Qed.

(** ** Dependence on the draws and on the lookups *)

Lemma fold_left_ext (A B : Type) (f g : A -> B -> A) (l : list B) (a : A) :
  (forall x y, f x y = g x y) -> fold_left f l a = fold_left g l a.
Proof.
  intros H. revert a. induction l as [|y l IH]; intros a; cbn; [reflexivity|].
  rewrite H. apply IH.
Qed.

Lemma claude_unsorted_ext (l1 l2 : number -> result jsstring)
    (output : jsstring) :
  (forall pid, l1 pid = l2 pid) ->
  claude_unsorted l1 output = claude_unsorted l2 output.
Proof.
  intros H. unfold claude_unsorted. apply fold_left_ext.
  intros sessions line. unfold claude_step. rewrite H. reflexivity.
Qed.

Lemma tabs_loop_ext (r1 r2 : nat -> Q) (rendererMemory : list number)
    (tabLines : list jsstring) (i calls : nat) (tabs : list ChromeTab.t) :
  (forall n, r1 n = r2 n) ->
  tabs_loop r1 rendererMemory tabLines i calls tabs
  = tabs_loop r2 rendererMemory tabLines i calls tabs.
Proof.
  intros H. revert i calls tabs.
  induction tabLines as [|line rest IH]; intros i calls tabs;
    cbn [tabs_loop]; [reflexivity|].
  rewrite H. apply IH.
Qed.

Lemma tabs_loop_known (r1 r2 : nat -> Q) (rendererMemory : list number)
    (tabLines : list jsstring) (i c1 c2 : nat) (tabs : list ChromeTab.t) :
  (forall j, (j < List.length tabLines)%nat ->
             known_memory rendererMemory (i + j) <> None) ->
  tabs_loop r1 rendererMemory tabLines i c1 tabs
  = tabs_loop r2 rendererMemory tabLines i c2 tabs.
Proof.
  revert i c1 c2 tabs.
  induction tabLines as [|line rest IH]; intros i c1 c2 tabs H;
    cbn [tabs_loop]; [reflexivity|].
  pose proof (H 0%nat ltac:(cbn; lia)) as H0. rewrite Nat.add_0_r in H0.
  unfold known_memory in H0.
  destruct (nth_error rendererMemory i) as [m|]; [|congruence].
  destruct (truthy m); [|congruence].
  apply IH. intros j Hj.
  pose proof (H (S j) ltac:(cbn; lia)) as HS.
  rewrite <- plus_n_Sm in HS. exact HS.
Qed.

Lemma tabs_presort_same (e1 e2 : Env) :
  same_inputs e1 e2 -> same_draws e1 e2 \/ no_fallback e1 ->
  tabs_presort e1 = tabs_presort e2.
Proof.
  intros (_ & _ & _ & _ & _ & _ & _ & _ & Hr & Ht) H.
  unfold tabs_presort. rewrite <- Hr, <- Ht.
  destruct (ps_renderers e1) as [psOutput|] eqn:E1; [|reflexivity].
  destruct (osascript_tabs e1) as [tabsOutput|] eqn:E2; [|reflexivity].
  unfold correlate_tabs. destruct H as [H|H].
  - apply tabs_loop_ext, H.
  - apply tabs_loop_known. intros j Hj. apply (H _ _ E1 E2 j Hj).
Qed.

(** ** Which lists hold numbers only *)

Lemma tabs_loop_numeric (random : nat -> Q) (rendererMemory : list number)
    (tabLines : list jsstring) (i calls : nat) :
  numeric ChromeTab.memory
    (tabs_loop random rendererMemory tabLines i calls []).
Proof.
  revert i calls. induction tabLines as [|line rest IH]; intros i calls;
    cbn [tabs_loop]; [constructor|].
  rewrite tabs_loop_acc. cbn [app]. constructor; [|apply IH].
  cbn [ChromeTab.memory].
  destruct (nth_error rendererMemory i) as [m|];
    [destruct (truthy m) eqn:E|]; try discriminate.
  apply truthy_number, E.
Qed.

Lemma tabs_presort_numeric (e : Env) :
  numeric ChromeTab.memory (tabs_presort e).
Proof.
  unfold tabs_presort.
  destruct (ps_renderers e); [destruct (osascript_tabs e)|];
    try constructor.
  apply tabs_loop_numeric.
Qed.




(** A list of two entries or more that is in descending order holds numbers
    only: [NaN] is not comparable. *)
Lemma descending_numeric (A : Type) (key : A -> number) (l : list A) :
  descending key l -> (2 <= List.length l)%nat -> numeric key l.
Proof.
  intros H Hlen. destruct l as [|a [|b l]]; cbn in Hlen; try lia.
  apply StronglySorted_inv in H as [_ H].
  assert (is_number (key a)) as Ha.
  { inversion H as [|? ? Hab _]; subst.
    destruct (key a); [discriminate Hab|discriminate]. }
  constructor; [exact Ha|].
  eapply Forall_impl; [|exact H].
  intros z Hz. destruct (key a); [discriminate|].
  destruct (key z); [discriminate Hz|discriminate].
Qed.

(** ** Rows and their fields *)

Lemma split_ws_go_word (t rest cur : jsstring) (b : bool) :
  column t ->
  split_ws_go (t ++ rest) b cur = split_ws_go rest false (rev t ++ cur).
Proof.
  intros [Hne Ht]. revert b cur.
  induction Ht as [|c t Hc Ht IH]; intros b cur; [congruence|].
  change ((c :: t) ++ rest) with (c :: (t ++ rest)).
  cbn [split_ws_go]. rewrite Hc.
  destruct t as [|d t]; [reflexivity|].
  rewrite IH by discriminate. cbn [rev]. rewrite <- !app_assoc. reflexivity.
Qed.

Lemma split_ws_go_join (t : jsstring) (ts : list jsstring) (b : bool) :
  Forall column (t :: ts) ->
  split_ws_go (join (str " ") (t :: ts)) b [] = t :: ts.
Proof.
  revert t b. induction ts as [|t2 ts IH]; intros t b H;
    inversion H as [|? ? Ht Hts]; subst.
  - cbn [join]. rewrite <- (app_nil_r t) at 1.
    rewrite split_ws_go_word by assumption.
    cbn [split_ws_go]. rewrite app_nil_r, rev_involutive. reflexivity.
  - change (join (str " ") (t :: t2 :: ts))
      with (t ++ str " " ++ join (str " ") (t2 :: ts)).
    rewrite split_ws_go_word by assumption.
    change (str " " ++ join (str " ") (t2 :: ts))
      with (32%N :: join (str " ") (t2 :: ts)).
    cbn [split_ws_go]. change (is_space 32%N) with true. cbn iota.
    rewrite app_nil_r, rev_involutive, IH by assumption. reflexivity.
Qed.

Lemma drop_while_head (p : char -> bool) (s : jsstring) :
  p (hd 0%N s) = false -> s <> [] -> drop_while p s = s.
Proof.
  destruct s as [|c s]; [congruence|]. cbn. intros -> _. reflexivity.
Qed.

Lemma hd_rev (s : jsstring) (d : char) : hd d (rev s) = last s d.
Proof.
  induction s as [|c s IH]; [reflexivity|].
  cbn [rev]. destruct s as [|c2 s]; [reflexivity|].
  change (last (c :: c2 :: s) d) with (last (c2 :: s) d). rewrite <- IH.
  destruct (rev (c2 :: s)) eqn:E; [|reflexivity].
  apply (f_equal (@List.length char)) in E. rewrite length_rev in E.
  discriminate E.
Qed.

Lemma trim_id (s : jsstring) :
  s <> [] -> is_space (hd 0%N s) = false -> is_space (last s 0%N) = false ->
  trim s = s.
Proof.
  intros Hne Hh Hl. unfold trim.
  rewrite (@drop_while_head is_space s Hh Hne).
  rewrite drop_while_head; [apply rev_involutive| |].
  - rewrite hd_rev. exact Hl.
  - intros H. apply (f_equal (@rev char)) in H.
    rewrite rev_involutive in H. exact (Hne H).
Qed.

Lemma column_hd (t rest : jsstring) :
  column t -> is_space (hd 0%N (t ++ rest)) = false.
Proof. intros [Hne Ht]. destruct Ht; [congruence|assumption]. Qed.

Lemma column_last (t : jsstring) : column t -> is_space (last t 0%N) = false.
Proof.
  intros [Hne Ht]. induction Ht as [|c t Hc Ht IH]; [congruence|].
  destruct t as [|d t]; [exact Hc|]. apply IH. discriminate.
Qed.

Lemma last_app_nonempty (A : Type) (l l' : list A) (d : A) :
  l' <> [] -> last (l ++ l') d = last l' d.
Proof.
  intros H. induction l as [|x l IH]; [reflexivity|].
  cbn [app]. destruct (l ++ l') eqn:E; [|exact IH].
  apply app_eq_nil in E as [_ E]. congruence.
Qed.

Lemma join_nonempty (t : jsstring) (ts : list jsstring) :
  column t -> join (str " ") (t :: ts) <> [].
Proof.
  intros [Hne _]. destruct ts; cbn [join]; [exact Hne|].
  intros H. apply app_eq_nil in H as [H _]. congruence.
Qed.

Lemma join_last (t : jsstring) (ts : list jsstring) :
  Forall column (t :: ts) ->
  is_space (last (join (str " ") (t :: ts)) 0%N) = false.
Proof.
  revert t. induction ts as [|t2 ts IH]; intros t H;
    inversion H as [|? ? Ht Hts]; subst.
  - apply column_last, Ht.
  - change (join (str " ") (t :: t2 :: ts))
      with (t ++ (str " " ++ join (str " ") (t2 :: ts))).
    rewrite last_app_nonempty by discriminate.
    rewrite last_app_nonempty; [apply IH, Hts|].
    inversion Hts; subst. apply join_nonempty. assumption.
Qed.

(** The fields of a row made of columns are these columns. *)
Lemma fields_join (t : jsstring) (ts : list jsstring) :
  Forall column (t :: ts) -> fields (join (str " ") (t :: ts)) = t :: ts.
Proof.
  intros H. unfold fields, split_ws.
  rewrite trim_id.
  - apply split_ws_go_join, H.
  - inversion H; subst. apply join_nonempty. assumption.
  - inversion H; subst. destruct ts; cbn [join]; [rewrite <- (app_nil_r t)|];
      apply column_hd; assumption.
  - apply join_last, H.
Qed.

(** A row made of columns has no newline, is not empty and has no white
    space at either end. *)
Definition row_ok (r : jsstring) : Prop :=
  r <> [] /\ Forall (fun c => c <> 10%N) r
  /\ is_space (hd 0%N r) = false /\ is_space (last r 0%N) = false.

Lemma column_no_newline (t : jsstring) :
  column t -> Forall (fun c => c <> 10%N) t.
Proof.
  intros [_ Ht]. eapply Forall_impl; [|exact Ht].
  intros c Hc ->. discriminate Hc.
Qed.

Lemma join_row_ok (t : jsstring) (ts : list jsstring) :
  Forall column (t :: ts) -> row_ok (join (str " ") (t :: ts)).
Proof.
  intros H. split; [|split; [|split]].
  - inversion H; subst. apply join_nonempty. assumption.
  - revert t H. induction ts as [|t2 ts IH]; intros t H;
      inversion H as [|? ? Ht Hts]; subst.
    + apply column_no_newline, Ht.
    + change (join (str " ") (t :: t2 :: ts))
        with (t ++ 32%N :: join (str " ") (t2 :: ts)).
      apply Forall_app. split; [apply column_no_newline, Ht|].
      constructor; [discriminate|apply IH, Hts].
  - inversion H; subst. destruct ts; cbn [join]; [rewrite <- (app_nil_r t)|];
      apply column_hd; assumption.
  - apply join_last, H.
Qed.

Lemma split_go_line (r rest cur : jsstring) :
  Forall (fun c => c <> 10%N) r ->
  split_go newline (r ++ rest) 0 cur = split_go newline rest 0 (rev r ++ cur).
Proof.
  intros Hr. revert cur. induction Hr as [|c r Hc Hr IH]; intros cur;
    [reflexivity|].
  change ((c :: r) ++ rest) with (c :: (r ++ rest)). cbn [split_go].
  assert (starts_with newline (c :: r ++ rest) = false) as ->.
  { unfold newline. cbn [starts_with]. unfold char_eqb.
    destruct (N.eqb_spec 10 c); [congruence|reflexivity]. }
  rewrite IH. cbn [rev]. rewrite <- app_assoc. reflexivity.
Qed.

Lemma split_go_lines (r : jsstring) (rows : list jsstring) (cur : jsstring) :
  Forall row_ok (r :: rows) ->
  split_go newline (join newline (r :: rows)) 0 cur = (rev cur ++ r) :: rows.
Proof.
  revert r cur. induction rows as [|r2 rows IH]; intros r cur H;
    inversion H as [|? ? (_ & Hr & _) Hrows]; subst.
  - cbn [join]. rewrite <- (app_nil_r r) at 1.
    rewrite split_go_line by assumption. cbn [split_go].
    rewrite rev_app_distr, rev_involutive. reflexivity.
  - change (join newline (r :: r2 :: rows))
      with (r ++ 10%N :: join newline (r2 :: rows)).
    rewrite split_go_line by assumption.
    cbn [split_go starts_with newline]. unfold char_eqb.
    cbn [N.eqb Pos.eqb andb List.length Nat.sub].
    rewrite rev_app_distr, rev_involutive.
    change (List.length newline - 1)%nat with 0%nat.
    rewrite (IH r2 [] Hrows). reflexivity.
Qed.

Lemma split_lines (r : jsstring) (rows : list jsstring) :
  Forall row_ok (r :: rows) ->
  split newline (join newline (r :: rows)) = r :: rows.
Proof.
  intros H. unfold split. rewrite split_go_lines by assumption. reflexivity.
Qed.

Lemma text_join (r : jsstring) (rows : list jsstring) :
  text (r :: rows) = join newline (r :: rows) ++ newline.
Proof.
  revert r. induction rows as [|r2 rows IH]; intros r.
  - cbn [text join]. rewrite app_nil_r. reflexivity.
  - change (text (r :: r2 :: rows)) with (r ++ newline ++ text (r2 :: rows)).
    rewrite IH.
    change (join newline (r :: r2 :: rows))
      with (r ++ newline ++ join newline (r2 :: rows)).
    rewrite <- !app_assoc. reflexivity.
Qed.

Lemma join_lines_ends (r : jsstring) (rows : list jsstring) :
  Forall row_ok (r :: rows) ->
  join newline (r :: rows) <> []
  /\ is_space (hd 0%N (join newline (r :: rows))) = false
  /\ is_space (last (join newline (r :: rows)) 0%N) = false.
Proof.
  revert r. induction rows as [|r2 rows IH]; intros r H;
    inversion H as [|? ? (Hne & _ & Hh & Hl) Hrows]; subst.
  - cbn [join]. auto.
  - change (join newline (r :: r2 :: rows))
      with (r ++ (newline ++ join newline (r2 :: rows))).
    destruct (IH r2 Hrows) as (Hne2 & _ & Hl2).
    split; [intros E; apply app_eq_nil in E as [E _]; congruence|].
    split; [destruct r; [congruence|exact Hh]|].
    rewrite last_app_nonempty by discriminate.
    rewrite last_app_nonempty by assumption. exact Hl2.
Qed.

Lemma trim_trailing_newline (s : jsstring) :
  s <> [] -> is_space (hd 0%N s) = false -> is_space (last s 0%N) = false ->
  trim (s ++ newline) = s.
Proof.
  intros Hne Hh Hl. unfold trim.
  rewrite (@drop_while_head is_space (s ++ newline));
    [|destruct s; [congruence|exact Hh]
     |intros E; apply app_eq_nil in E as [E _]; congruence].
  rewrite rev_app_distr. cbn [newline rev app drop_while].
  change (is_space 10%N) with true. cbn iota.
  rewrite drop_while_head; [apply rev_involutive| |].
  - rewrite hd_rev. exact Hl.
  - intros H. apply (f_equal (@rev char)) in H.
    rewrite rev_involutive in H. exact (Hne H).
Qed.

(** The lines of a text whose rows are made of columns are these rows. *)
Lemma output_lines_text (rows : list jsstring) :
  Forall row_ok rows -> output_lines (text rows) = rows.
Proof.
  intros H. destruct rows as [|r rows]; [reflexivity|].
  unfold output_lines. rewrite text_join.
  destruct (join_lines_ends H) as (Hne & Hh & Hl).
  rewrite trim_trailing_newline by assumption.
  rewrite split_lines by assumption.
  apply forallb_filter_id. apply forallb_forall. intros x Hx.
  rewrite Forall_forall in H. destruct (H x Hx) as (Hx' & _).
  destruct x; [congruence|reflexivity].
Qed.

Lemma process_row_fields (c : Columns) (pid rss : jsstring)
    (command : list jsstring) :
  columns_ok c -> column pid -> column rss -> Forall column command ->
  fields (process_row c pid rss command)
  = [col_user c; pid; col_cpu c; col_mem c; col_vsz c; rss; col_tt c;
     col_stat c; col_started c; col_time c] ++ command.
Proof.
  intros (H1 & H2 & H3 & H4 & H5 & H6 & H7 & H8) Hp Hr Hc.
  unfold process_row, ps_row. apply fields_join.
  repeat (constructor; [assumption|]). exact Hc.
Qed.

Lemma process_row_ok (c : Columns) (pid rss : jsstring)
    (command : list jsstring) :
  columns_ok c -> column pid -> column rss -> Forall column command ->
  row_ok (process_row c pid rss command).
Proof.
  intros (H1 & H2 & H3 & H4 & H5 & H6 & H7 & H8) Hp Hr Hc.
  unfold process_row, ps_row. apply join_row_ok.
  repeat (constructor; [assumption|]). exact Hc.
Qed.

Lemma column_literal (s : jsstring) :
  nonempty s && forallb (fun c => negb (is_space c)) s = true -> column s.
Proof.
  intros H. apply andb_true_iff in H as [H1 H2]. split.
  - destruct s; [discriminate|discriminate].
  - apply Forall_forall. intros c Hc.
    rewrite forallb_forall in H2. apply negb_true_iff, H2, Hc.
Qed.

(** The columns of a row that are hypotheses or literals of the source. *)
Ltac literal_columns :=
  auto; repeat constructor; apply column_literal; reflexivity.

(** ** The totals of the process rows of VS Code *)

Lemma vscode_totals (lines : list jsstring) (a : number) (k : nat) :
  fold_left vscode_step lines (a, num_of_nat k)
  = (fold_left num_add (map (fun line => memory_MB (fields line)) lines) a,
     num_of_nat (k + List.length lines)).
Proof.
  revert a k. induction lines as [|line lines IH]; intros a k.
  - cbn. rewrite Nat.add_0_r. reflexivity.
  - cbn [fold_left map List.length]. unfold vscode_step at 2.
    cbn [fst snd]. rewrite num_succ, IH. do 2 f_equal. lia.
Qed.

(** ** Splitting at a literal separator *)

Lemma starts_with_prefix (pat rest : jsstring) :
  starts_with pat (pat ++ rest) = true.
Proof.
  induction pat as [|c pat IH]; [reflexivity|].
  cbn [app starts_with]. unfold char_eqb. rewrite N.eqb_refl. exact IH.
Qed.

Section SplitLiteral.
Variable c0 : char.
Variable sep' : jsstring.

(** The characters of a separator just recognised are passed over. *)
Lemma split_go_skip (x u cur : jsstring) :
  split_go (c0 :: sep') (x ++ u) (List.length x) cur
  = split_go (c0 :: sep') u 0 cur.
Proof.
  induction x as [|c x IH]; [reflexivity|].
  cbn [app List.length split_go]. exact IH.
Qed.

Lemma split_go_sep (u cur : jsstring) :
  split_go (c0 :: sep') ((c0 :: sep') ++ u) 0 cur
  = rev cur :: split_go (c0 :: sep') u 0 [].
Proof.
  change ((c0 :: sep') ++ u) with (c0 :: (sep' ++ u)).
  cbn [split_go].
  change (c0 :: (sep' ++ u)) with ((c0 :: sep') ++ u).
  rewrite starts_with_prefix. cbn [List.length Nat.sub].
  rewrite Nat.sub_0_r, split_go_skip. reflexivity.
Qed.

(** The first piece ends where the separator first begins. *)
Lemma split_go_first (t u cur : jsstring) :
  begins_within (c0 :: sep') t ((c0 :: sep') ++ u) = false ->
  split_go (c0 :: sep') (t ++ (c0 :: sep') ++ u) 0 cur
  = (rev cur ++ t) :: split_go (c0 :: sep') u 0 [].
Proof.
  revert cur. induction t as [|c t IH]; intros cur H.
  - cbn [app]. rewrite app_nil_r.
    change (c0 :: (sep' ++ u)) with ((c0 :: sep') ++ u).
    apply split_go_sep.
  - cbn [begins_within] in H. apply orb_false_iff in H as [H1 H2].
    change ((c :: t) ++ (c0 :: sep') ++ u)
      with (c :: (t ++ (c0 :: sep') ++ u)) in *.
    cbn [split_go]. rewrite H1, (IH _ H2). cbn [rev].
    rewrite <- app_assoc. reflexivity.
Qed.

(** A text without the separator is one piece. *)
Lemma split_go_whole (s cur : jsstring) :
  includes (c0 :: sep') s = false ->
  split_go (c0 :: sep') s 0 cur = [rev cur ++ s].
Proof.
  revert cur. induction s as [|c s IH]; intros cur H.
  - cbn [split_go]. rewrite app_nil_r. reflexivity.
  - cbn [includes] in H. apply orb_false_iff in H as [H1 H2].
    cbn [split_go]. rewrite H1, (IH _ H2). cbn [rev].
    rewrite <- app_assoc. reflexivity.
Qed.
End SplitLiteral.

(** A tab line that holds a title, the separator and a URL. *)
Lemma line_with_url (t u : jsstring) :
  begins_within (str "|||") t (str "|||" ++ u) = false ->
  includes (str "|||") u = false ->
  line_title (t ++ str "|||" ++ u) = Some t
  /\ line_url (t ++ str "|||" ++ u) = Some u.
Proof.
  intros Ht Hu.
  assert (split (str "|||") (t ++ str "|||" ++ u)
          = t :: split (str "|||") u) as E1
      by exact (@split_go_first 124%N [124; 124]%N t u [] Ht).
  assert (split (str "|||") u = [u]) as E2
      by exact (@split_go_whole 124%N [124; 124]%N u [] Hu).
  unfold line_title, line_url. rewrite E1, E2. split; reflexivity.
Qed.

(** A tab line with a second separator after the URL. *)
Lemma line_with_more (t u rest : jsstring) :
  begins_within (str "|||") t (str "|||" ++ u ++ str "|||" ++ rest) = false ->
  begins_within (str "|||") u (str "|||" ++ rest) = false ->
  line_title (t ++ str "|||" ++ u ++ str "|||" ++ rest) = Some t
  /\ line_url (t ++ str "|||" ++ u ++ str "|||" ++ rest) = Some u.
Proof.
  intros Ht Hu.
  assert (split (str "|||") (t ++ str "|||" ++ u ++ str "|||" ++ rest)
          = t :: split (str "|||") (u ++ str "|||" ++ rest)) as E1
      by exact (@split_go_first 124%N [124; 124]%N t _ [] Ht).
  assert (split (str "|||") (u ++ str "|||" ++ rest)
          = u :: split (str "|||") rest) as E2
      by exact (@split_go_first 124%N [124; 124]%N u rest [] Hu).
  unfold line_title, line_url. rewrite E1, E2. split; reflexivity.
Qed.

Lemma tab_title_some (t : jsstring) :
  tab_title (Some t)
  = if nonempty t then substring0 60 t else str "Unknown".
Proof. unfold tab_title. destruct t; reflexivity. Qed.

(** ** The application classifier *)

(** C1. For every rule list and process table: a row is credited to one group
    at most, the group of its owner, which is the first rule of the list
    whose pattern matches the command line of the row (every rule before it
    fails to match); a row without an owner leaves the map of groups as it
    is.  In the output every group appears once; a group is present exactly
    when some row is attributed to it, it counts exactly those rows and its
    memory is the rounded sum of their resident sizes. *)
Theorem C1_first_match_owns (patterns : list AppPattern)
    (lines : list jsstring) :
  (forall (line : jsstring) (app : AppPattern),
      owner patterns line = Some app ->
      exists before after,
        patterns = before ++ app :: after
        /\ pattern app (command_of (fields line)) = true
        /\ Forall (fun r => pattern r (command_of (fields line)) = false)
             before)
  /\ (forall (m : Map AppData) (line : jsstring),
         match owner patterns line with
         | None => classify_line patterns m line = m
         | Some app =>
             (forall g, g <> name app ->
                        map_get (classify_line patterns m line) g
                        = map_get m g)
             /\ exists data,
                 map_get (classify_line patterns m line) (name app)
                 = Some data
                 /\ app_processes data
                    = num_add
                        (match map_get m (name app) with
                         | Some old => app_processes old
                         | None => num_of_Z 0
                         end) (num_of_Z 1)
         end)
  /\ (forall (line : jsstring) (g g' : jsstring),
         owned_by patterns g line = true ->
         owned_by patterns g' line = true -> g = g')
  /\ let apps := apps_of_map (classify patterns lines) in
     NoDup (map AppMemory.name apps)
     /\ (forall g, In g (map AppMemory.name apps)
                   <-> rows_of patterns g lines <> [])
     /\ (forall a, In a apps ->
           AppMemory.processes a
           = num_of_nat
               (List.length (rows_of patterns (AppMemory.name a) lines))
           /\ AppMemory.memory a
              = Math_round (rss_sum (rows_of patterns (AppMemory.name a) lines))).
Proof.
  split; [|split; [|split]].
  - intros line app. unfold owner.
    destruct (List.length (fields line) <? 11)%nat; [discriminate|].
    apply find_first.
  - intros m line. rewrite classify_line_owner.
    destruct (owner patterns line) as [app|]; [|reflexivity]. cbn zeta.
    split.
    + intros g Hg. rewrite map_get_set.
      destruct (str_eqb (name app) g) eqn:E; [|reflexivity].
      apply str_eqb_eq in E. congruence.
    + eexists. rewrite map_get_set, str_eqb_refl. split; [reflexivity|].
      destruct (map_get m (name app)); reflexivity.
  - intros line g g'. unfold owned_by.
    destruct (owner patterns line); [|discriminate].
    rewrite !str_eqb_eq. congruence.
  - intros apps.
    assert (Permutation (map fst (classify patterns lines))
              (map AppMemory.name apps)) as P.
    { rewrite <- apps_unsorted_names. apply Permutation_map, sort_perm. }
    split; [eapply Permutation_NoDup; [exact P|apply classify_keys]|].
    split.
    + intros g. rewrite <- P, map_get_In.
      pose proof (classify_entry patterns lines g) as H.
      destruct (map_get (classify patterns lines) g).
      * split; [tauto|discriminate].
      * split; [congruence|]. intros H'. contradiction.
    + intros a Ha. apply sort_In in Ha. unfold apps_unsorted in Ha.
      apply in_map_iff in Ha as ([k data] & <- & Hin).
      cbn [fst snd AppMemory.name AppMemory.processes AppMemory.memory].
      apply map_get_of_In in Hin; [|apply classify_keys].
      pose proof (classify_entry patterns lines k) as H.
      rewrite Hin in H. destruct H as (_ & -> & ->). auto.
Qed.

Lemma C1_first_match_owns_witness :
  let python := nth 4 appPatterns (mkAppPattern [] (fun _ => false) []) in
  let command := command_of (fields (scenario_row_100 sample_columns)) in
  exists before after,
    appPatterns = before ++ python :: after
    /\ Forall (fun r => pattern r command = false) before.
Proof.
  intros python command.
  destruct (proj1 (C1_first_match_owns appPatterns [])
              (scenario_row_100 sample_columns) python)
    as (before & after & H1 & _ & H3).
  - vm_compute. reflexivity.
  - exists before, after. split; assumption.
Defined.

(** ** Failures of the sources *)

(** C2, as stated, fails: when the window enumeration of
    [getVSCodeWorkspaces] fails while its process rows are read, the result
    is the entry [VS Code (total)], not the empty list. *)
Lemma C2_window_enumeration_fails :
  ~ (forall e : Env,
        osascript_windows e = Throw -> getVSCodeWorkspaces e = Ok []).
Proof.
  intros H.
  specialize (H (with_osascript_windows Throw sample_env) eq_refl).
  vm_compute in H. discriminate H.
Qed.

(** C2 (amended). None of the four operations ever propagates a failure.
    When the process rows of an operation cannot be read (or, for
    [getChromeTabs], the tab enumeration) it returns the empty list; when
    only the window enumeration of [getVSCodeWorkspaces] fails it returns the
    single entry [VS Code (total)] with the totals of its process rows: the
    sum of their memories and their number.  In the snapshot, making a source of one operation fail changes the list of
    that operation only: the other three lists, the application groups and
    the totals stay as they are. *)
Theorem C2_detail_failures_isolated :
  (forall e : Env,
      getChromeTabs e <> Throw /\ getPythonProcesses e <> Throw
      /\ getClaudeSessions e <> Throw /\ getVSCodeWorkspaces e <> Throw)
  /\ (forall e : Env, ps_python e = Throw -> getPythonProcesses e = Ok [])
  /\ (forall e : Env, ps_claude e = Throw -> getClaudeSessions e = Ok [])
  /\ (forall e : Env, ps_vscode e = Throw -> getVSCodeWorkspaces e = Ok [])
  /\ (forall e : Env,
         ps_renderers e = Throw \/ osascript_tabs e = Throw ->
         getChromeTabs e = Ok [])
  /\ (forall (e : Env) (output : jsstring),
         ps_vscode e = Ok output -> osascript_windows e = Throw ->
         getVSCodeWorkspaces e
         = Ok [VSCodeWorkspace.mk (str "VS Code (total)")
                 (vscode_total_memory output)
                 (vscode_total_processes output)])
  /\ (forall (e : Env) (s : SystemMemory.t),
         getSystemMemory e = Ok s ->
         getSystemMemory (with_ps_python Throw e)
         = Ok (set_pythonProcesses [] s)
         /\ getSystemMemory (with_ps_claude Throw e)
            = Ok (set_claudeSessions [] s)
         /\ getSystemMemory (with_ps_vscode Throw e)
            = Ok (set_vscodeWorkspaces [] s)
         /\ getSystemMemory (with_ps_renderers Throw e)
            = Ok (set_chromeTabs [] s)
         /\ getSystemMemory (with_osascript_tabs Throw e)
            = Ok (set_chromeTabs [] s)
         /\ (exists l, getSystemMemory (with_osascript_windows Throw e)
                       = Ok (set_vscodeWorkspaces l s))
         /\ (exists l, getSystemMemory (with_lsof_cwd (fun _ => Throw) e)
                       = Ok (set_claudeSessions l s))).
Proof.
  repeat apply conj.
  - intros e. rewrite getChromeTabs_presort, getPythonProcesses_presort,
      getClaudeSessions_presort, getVSCodeWorkspaces_presort.
    repeat split; discriminate.
  - intros e H. unfold getPythonProcesses. rewrite H. reflexivity.
  - intros e H. unfold getClaudeSessions. rewrite H. reflexivity.
  - intros e H. unfold getVSCodeWorkspaces. rewrite H. reflexivity.
  - intros e H. rewrite getChromeTabs_cases.
    destruct H as [H|H]; rewrite H; [|destruct (ps_renderers e)]; reflexivity.
  - intros e output H1 H2. unfold getVSCodeWorkspaces. rewrite H1.
    cbn [bind try_catch]. unfold vscode_of_output, vscode_unsorted.
    rewrite H2.
    change (num_of_Z 0, num_of_Z 0) with (num_of_Z 0, num_of_nat 0).
    rewrite vscode_totals. reflexivity.
  - intros e s H.
    apply getSystemMemory_inv in H
      as (memsize & vmStat & psOutput & H1 & H2 & H3 & ->).
    rewrite !getSystemMemory_cases. cbn [sysctl_memsize vm_stat ps_aux
      with_ps_python with_ps_claude with_ps_vscode with_ps_renderers
      with_osascript_tabs with_osascript_windows with_lsof_cwd].
    rewrite H1, H2, H3.
    repeat apply conj; try reflexivity.
    + unfold snapshot_of, set_chromeTabs, tabs_presort.
      cbn [ps_renderers osascript_tabs with_osascript_tabs].
      destruct (ps_renderers e); reflexivity.
    + eexists. reflexivity.
    + eexists. reflexivity.
Qed.

Lemma C2_detail_failures_isolated_witness :
  getSystemMemory (with_ps_python Throw sample_env)
  = Ok (set_pythonProcesses [] (snapshot_of sample_env
          (text [str "34359738368"]) sample_vm_stat sample_ps_aux)).
Proof.
  apply C2_detail_failures_isolated.
  vm_compute. reflexivity.
Defined.

(** When the statistics of virtual memory cannot be read, [getSystemMemory]
    throws and no snapshot is returned. *)
Lemma C3_vm_stat_fails :
  ~ (forall e : Env,
        ps_aux e = Throw \/ vm_stat e = Throw ->
        exists s : SystemMemory.t, getSystemMemory e = Ok s).
Proof.
  intros H.
  destruct (H (with_vm_stat Throw sample_env) (or_intror eq_refl)) as [s Hs].
  vm_compute in Hs. discriminate Hs.
Qed.

(** C3. What the code does where the claim asks for a snapshot with empty
    lists and zero totals: lines 227, 228 and 241 await the size of the
    memory, the statistics of virtual memory and the process table outside
    any [try], so when one of the three cannot be read [getSystemMemory]
    throws and returns no snapshot.  The four breakdowns, each of which has
    the [try]/[catch] that [getSystemMemory] lacks, behave as the claim says:
    when the three sources are read a snapshot is returned, whatever happens
    to the sources of the breakdowns, a breakdown whose process rows cannot
    be read being the empty list. *)
Theorem C3_top_level_failures_propagate :
  (forall e : Env,
      sysctl_memsize e = Throw \/ vm_stat e = Throw \/ ps_aux e = Throw ->
      getSystemMemory e = Throw)
  /\ (forall (e : Env) (memsize vmStat psOutput : jsstring),
         sysctl_memsize e = Ok memsize -> vm_stat e = Ok vmStat ->
         ps_aux e = Ok psOutput ->
         exists s : SystemMemory.t,
           getSystemMemory e = Ok s
           /\ (ps_renderers e = Throw \/ osascript_tabs e = Throw ->
               SystemMemory.chromeTabs s = [])
           /\ (ps_python e = Throw -> SystemMemory.pythonProcesses s = [])
           /\ (ps_claude e = Throw -> SystemMemory.claudeSessions s = [])
           /\ (ps_vscode e = Throw -> SystemMemory.vscodeWorkspaces s = [])).
Proof.
  split.
  - intros e H. rewrite getSystemMemory_cases.
    destruct H as [H|[H|H]]; rewrite H; [reflexivity| |].
    + destruct (sysctl_memsize e); reflexivity.
    + destruct (sysctl_memsize e); [destruct (vm_stat e)|]; reflexivity.
  - intros e memsize vmStat psOutput H1 H2 H3.
    rewrite getSystemMemory_cases, H1, H2, H3.
    eexists. split; [reflexivity|].
    unfold snapshot_of, tabs_presort, python_presort, claude_presort,
      vscode_presort.
    cbn [SystemMemory.chromeTabs SystemMemory.pythonProcesses
         SystemMemory.claudeSessions SystemMemory.vscodeWorkspaces].
    repeat apply conj.
    + intros [H|H]; rewrite H; [|destruct (ps_renderers e)]; reflexivity.
    + intros H; rewrite H; reflexivity.
    + intros H; rewrite H; reflexivity.
    + intros H; rewrite H; reflexivity.
Qed.

Lemma C3_top_level_failures_propagate_witness :
  getSystemMemory (with_vm_stat Throw sample_env) = Throw.
Proof.
  apply C3_top_level_failures_propagate.
  right. left. reflexivity.
Defined.

(** ** Two runs on the same raw text *)

(** C4, as stated, fails: with three tabs for two renderers the third tab
    has an estimate drawn from [Math.random()], and two runs on the same raw
    text differ in it. *)
Lemma C4_random_estimate_differs :
  ~ (forall e1 e2 : Env,
        same_inputs e1 e2 ->
        same_up_to_timestamp (getSystemMemory e1) (getSystemMemory e2)).
Proof.
  intros H.
  specialize (H sample_env (with_random (fun _ => 9 # 10) sample_env)).
  assert (same_inputs sample_env (with_random (fun _ => 9 # 10) sample_env))
    as S by (repeat split).
  apply H in S. vm_compute in S. discriminate S.
Qed.

(** C4 (amended). Two runs that read the same raw text from every source
    agree in whether they throw, and return snapshots equal in every field
    except the timestamp, provided the draws of [Math.random()] are the same
    in both runs or no estimate is drawn (every tab has at its index a
    renderer value that is a number other than 0). *)
Theorem C4_two_run_determinism (e1 e2 : Env) :
  same_inputs e1 e2 ->
  same_draws e1 e2 \/ no_fallback e1 ->
  same_up_to_timestamp (getSystemMemory e1) (getSystemMemory e2).
Proof.
  intros S D.
  pose proof (tabs_presort_same S D) as Htabs.
  destruct S as (H1 & H2 & H3 & H4 & H5 & H6 & H7 & H8 & H9 & H10).
  rewrite !getSystemMemory_cases. rewrite <- H1, <- H2, <- H3.
  destruct (sysctl_memsize e1) as [memsize|]; [|exact I].
  destruct (vm_stat e1) as [vmStat|]; [|exact I].
  destruct (ps_aux e1) as [psOutput|]; [|exact I].
  unfold same_up_to_timestamp, set_timestamp, snapshot_of.
  cbn [SystemMemory.total SystemMemory.used SystemMemory.free
       SystemMemory.apps SystemMemory.chromeTabs SystemMemory.pythonProcesses
       SystemMemory.claudeSessions SystemMemory.vscodeWorkspaces
       SystemMemory.timestamp].
  rewrite Htabs.
  assert (python_presort e1 = python_presort e2) as ->
      by (unfold python_presort; rewrite H4; reflexivity).
  assert (claude_presort e1 = claude_presort e2) as ->.
  { unfold claude_presort. rewrite <- H5.
    destruct (ps_claude e1); [|reflexivity].
    apply claude_unsorted_ext, H6. }
  assert (vscode_presort e1 = vscode_presort e2) as ->
      by (unfold vscode_presort; rewrite H7, H8; reflexivity).
  reflexivity.
Qed.

Lemma C4_two_run_determinism_witness :
  same_up_to_timestamp (getSystemMemory sample_env)
    (getSystemMemory
       (mkEnv (sysctl_memsize sample_env) (vm_stat sample_env)
          (ps_aux sample_env) (ps_python sample_env) (ps_claude sample_env)
          (lsof_cwd sample_env) (ps_vscode sample_env)
          (osascript_windows sample_env) (ps_renderers sample_env)
          (osascript_tabs sample_env) (random sample_env) 3000%Z)).
Proof.
  apply C4_two_run_determinism.
  - repeat split.
  - left. intros n. reflexivity.
Defined.

(** ** The tab correlator *)

(** C5, as stated, fails: for a renderer whose resident size rounds to 0 MB
    the tab at its index gets a synthesized estimate and not the value of
    the renderer. *)
Lemma C5_zero_renderer_value :
  ~ (forall (random : nat -> Q) (rendererMemory : list number)
            (tabLines : list jsstring),
        random_ok random ->
        descending (fun m : number => m) rendererMemory ->
        (List.length rendererMemory < List.length tabLines)%nat ->
        forall (i : nat) (m : number) (tab : ChromeTab.t),
          nth_error rendererMemory i = Some m ->
          nth_error (correlate_tabs random rendererMemory tabLines) i
          = Some tab ->
          ChromeTab.memory tab = m).
Proof.
  intros H.
  specialize (H (fun _ => 0) [num_of_Z 0] [str "Inbox|||a"; str "News|||b"]).
  assert (ChromeTab.memory
            (ChromeTab.mk (str "Inbox") (str "a") (num_of_Z 50))
          = num_of_Z 0) as E.
  { apply (H ltac:(intros n; split; [apply Qle_refl | reflexivity])
             ltac:(repeat constructor) ltac:(cbn; lia) 0%nat);
      reflexivity. }
  discriminate E.
Qed.

(** C5 (amended). For T tab lines and any list of renderer values, the
    correlator produces exactly T entries, before and after the sort; the tab
    at index [i] is assigned the [i]-th renderer value when there is one and
    it is a number other than 0, and otherwise (no [i]-th value, or a value
    that is 0 or [NaN]) an integer estimate from 50 to 150. *)
Theorem C5_tab_correlation (random : nat -> Q) (rendererMemory : list number)
    (tabLines : list jsstring) :
  random_ok random ->
  let tabs := correlate_tabs random rendererMemory tabLines in
  List.length tabs = List.length tabLines
  /\ List.length (sort (by_memory_desc ChromeTab.memory) tabs)
     = List.length tabLines
  /\ (forall (i : nat) (tab : ChromeTab.t) (m : number),
         nth_error tabs i = Some tab ->
         nth_error rendererMemory i = Some m -> truthy m = true ->
         ChromeTab.memory tab = m)
  /\ (forall (i : nat) (tab : ChromeTab.t),
         nth_error tabs i = Some tab ->
         (List.length rendererMemory <= i)%nat
         \/ (exists m,
                nth_error rendererMemory i = Some m /\ truthy m = false) ->
         in_fallback_range (ChromeTab.memory tab)).
Proof.
  intros Hr tabs. unfold tabs, correlate_tabs.
  split; [apply tabs_loop_length|].
  split; [rewrite sort_length; apply tabs_loop_length|].
  split.
  - intros i tab m Ht Hm Hm'.
    apply (tabs_loop_memory _ _ _ _ _ Hr) in Ht. cbn [Nat.add] in Ht.
    unfold known_memory in Ht. rewrite Hm, Hm' in Ht. exact Ht.
  - intros i tab Ht Hi.
    apply (tabs_loop_memory _ _ _ _ _ Hr) in Ht. cbn [Nat.add] in Ht.
    unfold known_memory in Ht.
    destruct Hi as [Hi | (m & Hm & Hm')].
    + apply nth_error_None in Hi. rewrite Hi in Ht. exact Ht.
    + rewrite Hm, Hm' in Ht. exact Ht.
Qed.

Lemma C5_tab_correlation_witness :
  List.length
    (correlate_tabs (fun _ => 1 # 3) [num_of_Z 300; num_of_Z 120]
       [str "Inbox|||a"; str "News|||b"; str "Docs|||c"]) = 3%nat.
Proof.
  apply (@C5_tab_correlation (fun _ => 1 # 3) [num_of_Z 300; num_of_Z 120]
           [str "Inbox|||a"; str "News|||b"; str "Docs|||c"]).
  intros n. split; [discriminate | reflexivity].
Defined.

(** C10. Every tab of the list has a title of at most 60 characters, which is
    never empty, and a URL (possibly the empty string): the title of a tab
    line is its text before the first [|||] cut at 60 characters, or
    [Unknown] when that text is empty; the URL is the text between the first
    and the second [|||], or after the first when there is no second.  In
    particular a line beginning with [|||] gives the title [Unknown], and a
    line with nothing after its [|||] gives the URL [''].  The list returned
    is the list of the tabs so made from the tab lines, one tab for each
    line, put in another order. *)
Theorem C10_tab_fields :
  (forall (e : Env) (tab : ChromeTab.t) (tabs : list ChromeTab.t),
      getChromeTabs e = Ok tabs -> In tab tabs ->
      (List.length (ChromeTab.title tab) <= 60)%nat
      /\ ChromeTab.title tab <> [])
  /\ (forall random rendererMemory tabLines (i : nat) (tab : ChromeTab.t)
             (rest : jsstring),
         nth_error tabLines i = Some (str "|||" ++ rest) ->
         nth_error (correlate_tabs random rendererMemory tabLines) i
         = Some tab ->
         ChromeTab.title tab = str "Unknown")
  /\ (forall random rendererMemory tabLines (i : nat) (tab : ChromeTab.t)
             (t : jsstring),
         Forall (fun c => c <> 124%N) t ->
         nth_error tabLines i = Some (t ++ str "|||") ->
         nth_error (correlate_tabs random rendererMemory tabLines) i
         = Some tab ->
         ChromeTab.url tab = []
         /\ ChromeTab.title tab
            = (if nonempty t then substring0 60 t else str "Unknown"))
  /\ (forall random rendererMemory tabLines (i : nat) (tab : ChromeTab.t)
             (t u : jsstring),
         begins_within (str "|||") t (str "|||" ++ u) = false ->
         includes (str "|||") u = false ->
         nth_error tabLines i = Some (t ++ str "|||" ++ u) ->
         nth_error (correlate_tabs random rendererMemory tabLines) i
         = Some tab ->
         ChromeTab.title tab
         = (if nonempty t then substring0 60 t else str "Unknown")
         /\ ChromeTab.url tab = u)
  /\ (forall random rendererMemory tabLines (i : nat) (tab : ChromeTab.t)
             (t u rest : jsstring),
         begins_within (str "|||") t (str "|||" ++ u ++ str "|||" ++ rest)
         = false ->
         begins_within (str "|||") u (str "|||" ++ rest) = false ->
         nth_error tabLines i
         = Some (t ++ str "|||" ++ u ++ str "|||" ++ rest) ->
         nth_error (correlate_tabs random rendererMemory tabLines) i
         = Some tab ->
         ChromeTab.title tab
         = (if nonempty t then substring0 60 t else str "Unknown")
         /\ ChromeTab.url tab = u)
  /\ (forall (e : Env) (psOutput tabsOutput : jsstring),
         ps_renderers e = Ok psOutput -> osascript_tabs e = Ok tabsOutput ->
         exists tabs : list ChromeTab.t,
           getChromeTabs e = Ok tabs
           /\ Permutation
                (correlate_tabs (random e) (renderers_of_output psOutput)
                   (tab_lines tabsOutput))
                tabs
           /\ List.length tabs = List.length (tab_lines tabsOutput)).
Proof.
  split; [|split; [|split; [|split; [|split]]]].
  - intros e tab tabs He Hin. rewrite getChromeTabs_presort in He.
    injection He as <-. apply sort_In in Hin. unfold tabs_presort in Hin.
    destruct (ps_renderers e) as [psOutput|]; [|contradiction].
    destruct (osascript_tabs e) as [tabsOutput|]; [|contradiction].
    apply In_nth_error in Hin as [i Hi].
    destruct (nth_error (tab_lines tabsOutput) i) as [line|] eqn:Hl.
    + destruct (correlate_tabs_nth _ _ _ _ Hl Hi) as [-> _].
      apply tab_title_bound.
    + apply nth_error_None in Hl.
      assert (i < List.length (tab_lines tabsOutput))%nat; [|lia].
      unfold correlate_tabs in Hi.
      rewrite <- (tabs_loop_length (random e)
                    (renderers_of_output psOutput) (tab_lines tabsOutput) 0 0).
      apply nth_error_Some. congruence.
  - intros random rendererMemory tabLines i tab rest Hl Ht.
    destruct (correlate_tabs_nth _ _ _ _ Hl Ht) as [-> _].
    rewrite line_title_empty. reflexivity.
  - intros random rendererMemory tabLines i tab t Hbar Hl Ht.
    destruct (correlate_tabs_nth _ _ _ _ Hl Ht) as [-> ->].
    destruct (line_without_url Hbar) as [-> ->].
    split; [reflexivity|].
    unfold tab_title. destruct t; reflexivity.
  - intros random rendererMemory tabLines i tab t u H1 H2 Hl Ht.
    destruct (correlate_tabs_nth _ _ _ _ Hl Ht) as [-> ->].
    destruct (line_with_url _ _ H1 H2) as [-> ->].
    split; [apply tab_title_some|reflexivity].
  - intros random rendererMemory tabLines i tab t u rest H1 H2 Hl Ht.
    destruct (correlate_tabs_nth _ _ _ _ Hl Ht) as [-> ->].
    destruct (line_with_more _ _ _ H1 H2) as [-> ->].
    split; [apply tab_title_some|reflexivity].
  - intros e psOutput tabsOutput H1 H2.
    rewrite (getChromeTabs_ok _ H1 H2). eexists.
    split; [reflexivity|]. split; [apply sort_perm|].
    rewrite sort_length. apply tabs_loop_length.
Qed.

Lemma C10_tab_fields_witness :
  ((List.length (ChromeTab.title
                   (ChromeTab.mk (str "Docs") (str "https://docs.example")
                      (num_of_Z 83))) <= 60)%nat
   /\ ChromeTab.title
        (ChromeTab.mk (str "Docs") (str "https://docs.example") (num_of_Z 83))
      <> [])
  /\ (ChromeTab.title
        (ChromeTab.mk (str "Inbox | Mail") (str "https://mail.example")
           (num_of_Z 300))
      = str "Inbox | Mail"
      /\ ChromeTab.url
           (ChromeTab.mk (str "Inbox | Mail") (str "https://mail.example")
              (num_of_Z 300))
         = str "https://mail.example").
Proof.
  split.
  - apply (proj1 C10_tab_fields sample_env _
             [ChromeTab.mk (str "Inbox") (str "https://mail.example")
                (num_of_Z 300);
              ChromeTab.mk (str "News") (str "https://news.example")
                (num_of_Z 120);
              ChromeTab.mk (str "Docs") (str "https://docs.example")
                (num_of_Z 83)]).
    + vm_compute. reflexivity.
    + right. right. left. reflexivity.
  - apply (proj1 (proj2 (proj2 (proj2 C10_tab_fields)))
             (fun _ => 1 # 3) [num_of_Z 300]
             [str "Inbox | Mail|||https://mail.example"] 0%nat
             (ChromeTab.mk (str "Inbox | Mail") (str "https://mail.example")
                (num_of_Z 300))
             (str "Inbox | Mail") (str "https://mail.example")).
    + vm_compute. reflexivity.
    + vm_compute. reflexivity.
    + reflexivity.
    + vm_compute. reflexivity.
Defined.

(** ** Lines with fewer than eleven fields *)

(** The application classifier skips a line with fewer than eleven fields. *)
Lemma classify_line_short (patterns : list AppPattern) (m : Map AppData)
    (line : jsstring) :
  (List.length (fields line) < 11)%nat -> classify_line patterns m line = m.
Proof.
  intros H. unfold classify_line.
  apply Nat.ltb_lt in H. rewrite H. reflexivity.
Qed.

(** C6. A row of seven fields is not skipped by the session path nor by the
    script path: each produces a record from it.  The classifier skips the
    same rows: it alone has the guard on the number of fields. *)
Theorem C6_short_rows_yield_records :
  List.length (fields short_claude_row) = 7%nat
  /\ (forall e : Env,
         getClaudeSessions
           (with_ps_claude (Ok short_claude_row)
              (with_lsof_cwd (fun _ => Throw) e))
         = Ok [ClaudeSession.mk [] (str "Home") (num_of_Z 100)
                 (num_of_Z 4242) false])
  /\ List.length (fields short_python_row) = 7%nat
  /\ (forall e : Env,
         getPythonProcesses (with_ps_python (Ok short_python_row) e)
         = Ok [PythonProcess.mk (str "...") (num_of_Z 200) (num_of_Z 77)])
  /\ (forall (patterns : list AppPattern) (m : Map AppData),
         classify_line patterns m short_claude_row = m
         /\ classify_line patterns m short_python_row = m).
Proof.
  split; [reflexivity|]. split; [intros e; vm_compute; reflexivity|].
  split; [reflexivity|]. split; [intros e; vm_compute; reflexivity|].
  intros patterns m. split; apply classify_line_short; vm_compute; lia.
Qed.

(** ** The scripts list *)

(** C7. The two processes of the scenario (pid 100 with 204800 KB running
    [/usr/bin/python3 ingest_pipeline.py], pid 101 with 5120 KB running
    [/usr/bin/python3 tiny.py]), whatever their other columns, give exactly
    one entry, labelled [ingest_pipeline.py] with 200 MB and pid 100.  The
    command of the first contains the marker [ingest] and is still labelled
    by its [.py] token; the second earns the label [tiny.py] and is dropped
    because 5 is not above 10. *)
Theorem C7_scenario_scripts (c1 c2 : Columns) :
  columns_ok c1 -> columns_ok c2 ->
  (forall e : Env,
      getPythonProcesses (with_ps_python (Ok (scenario_output c1 c2)) e)
      = Ok [PythonProcess.mk (str "ingest_pipeline.py")
              (num_of_Z 200) (num_of_Z 100)])
  /\ command_of (fields (scenario_row_100 c1))
     = str "/usr/bin/python3 ingest_pipeline.py"
  /\ includes (str "ingest") (command_of (fields (scenario_row_100 c1))) = true
  /\ script_label (command_of (fields (scenario_row_101 c2)))
       (memory_MB (fields (scenario_row_101 c2))) = Some (str "tiny.py")
  /\ memory_MB (fields (scenario_row_101 c2)) = num_of_Z 5
  /\ python_step [] (scenario_row_101 c2) = [].
Proof.
  intros H1 H2.
  assert (fields (scenario_row_100 c1)
          = [col_user c1; str "100"; col_cpu c1; col_mem c1; col_vsz c1;
             str "204800"; col_tt c1; col_stat c1; col_started c1;
             col_time c1; str "/usr/bin/python3"; str "ingest_pipeline.py"])
    as F1 by (apply process_row_fields; literal_columns).
  assert (fields (scenario_row_101 c2)
          = [col_user c2; str "101"; col_cpu c2; col_mem c2; col_vsz c2;
             str "5120"; col_tt c2; col_stat c2; col_started c2;
             col_time c2; str "/usr/bin/python3"; str "tiny.py"])
    as F2 by (apply process_row_fields; literal_columns).
  assert (row_ok (scenario_row_100 c1)) as R1
      by (apply process_row_ok; literal_columns).
  assert (row_ok (scenario_row_101 c2)) as R2
      by (apply process_row_ok; literal_columns).
  split.
  - intros e. unfold getPythonProcesses, with_ps_python.
    cbn [ps_python bind try_catch].
    unfold python_of_output, python_unsorted, scenario_output.
    rewrite output_lines_text
      by (constructor; [|constructor; [|constructor]]; assumption).
    cbn [fold_left]. unfold python_step. rewrite F1, F2.
    vm_compute. reflexivity.
  - unfold python_step. rewrite F1, F2. repeat split; vm_compute; reflexivity.
Qed.

Lemma C7_scenario_scripts_witness :
  getPythonProcesses sample_env
  = Ok [PythonProcess.mk (str "ingest_pipeline.py")
          (num_of_Z 200) (num_of_Z 100)].
Proof.
  apply (proj1 (@C7_scenario_scripts sample_columns sample_columns
                  ltac:(repeat split; try discriminate; repeat constructor)
                  ltac:(repeat split; try discriminate; repeat constructor))
           sample_env).
Defined.

(** ** The label of a script *)




(** ** The order of the lists *)

(** Whatever order an engine gives to a list of two entries or more one of
    which has the memory [NaN], the list is not in descending order. *)
Lemma no_order_places_NaN (A : Type) (key : A -> number) (l l' : list A) :
  (2 <= List.length l)%nat -> ~ numeric key l ->
  Permutation l l' -> ~ descending key l'.
Proof.
  intros Hlen Hnan P D. apply Hnan.
  apply (numeric_perm (Permutation_sym P)).
  apply descending_numeric; [exact D|].
  rewrite <- (Permutation_length P). exact Hlen.
Qed.




(** * Further properties of the pipeline *)

(** ** Numbers read from text *)

Lemma digit_cases (c : char) :
  is_digit c = true ->
  (c = 48 \/ c = 49 \/ c = 50 \/ c = 51 \/ c = 52 \/ c = 53 \/ c = 54
   \/ c = 55 \/ c = 56 \/ c = 57)%N.
Proof.
  unfold is_digit. rewrite andb_true_iff, !N.leb_le. lia.
Qed.

Ltac by_digit H :=
  apply digit_cases in H;
  repeat (destruct H as [H|H]; [subst; reflexivity|]); subst; reflexivity.

Lemma digit_not_space (c : char) : is_digit c = true -> is_space c = false.
Proof. intros H. by_digit H. Qed.

Lemma digit_val_digit (c : char) :
  is_digit c = true -> digit_val 10 c = Some (Z.of_N c - 48)%Z.
Proof. intros H. by_digit H. Qed.

Lemma digit_val_other (c : char) :
  is_digit c = false -> digit_val 10 c = None.
Proof.
  unfold is_digit, digit_val. intros ->.
  destruct ((97 <=? c) && (c <=? 102))%N eqn:E1.
  - apply andb_true_iff in E1 as [H1 H2]. apply N.leb_le in H1, H2.
    replace (Z.of_N c - 87 <? 10)%Z with false; [reflexivity|].
    symmetry. apply Z.ltb_ge. lia.
  - destruct ((65 <=? c) && (c <=? 70))%N eqn:E2; [|reflexivity].
    apply andb_true_iff in E2 as [H1 H2]. apply N.leb_le in H1, H2.
    replace (Z.of_N c - 55 <? 10)%Z with false; [reflexivity|].
    symmetry. apply Z.ltb_ge. lia.
Qed.

Lemma read_digits_value (ds rest : jsstring) (a : Z) :
  Forall (fun c => is_digit c = true) ds -> ends_number rest ->
  read_digits 10 (ds ++ rest) (Some a) = Some (digits_value ds a).
Proof.
  intros Hds Hrest. revert a.
  induction Hds as [|c ds Hc _ IH]; intros a.
  - destruct rest as [|c rest]; [reflexivity|].
    destruct Hrest as (Hc & _). cbn [app read_digits].
    rewrite (digit_val_other _ Hc). reflexivity.
  - cbn [app read_digits digits_value].
    rewrite (digit_val_digit _ Hc). apply IH.
Qed.

Lemma digits_value_nonneg (ds : jsstring) (a : Z) :
  Forall (fun c => is_digit c = true) ds -> (0 <= a)%Z ->
  (0 <= digits_value ds a)%Z.
Proof.
  intros Hds. revert a. induction Hds as [|c ds Hc _ IH]; intros a Ha;
    [exact Ha|].
  cbn [digits_value]. apply IH.
  apply digit_cases in Hc. lia.
Qed.

(** [parseInt] reads the leading decimal digits and ignores what follows. *)
Lemma parseInt_digits (ds rest : jsstring) :
  all_digits ds -> ends_number rest ->
  parseInt_string (ds ++ rest) = num_of_Z (digits_value ds 0).
Proof.
  intros [Hne Hds] Hrest.
  destruct ds as [|d ds]; [congruence|].
  inversion Hds as [|? ? Hd Hds']; subst.
  unfold parseInt_string. cbn [app drop_while].
  rewrite (digit_not_space _ Hd).
  assert ((d =? 45) = false /\ (d =? 43) = false)%N as [-> ->]
      by (split; by_digit Hd).
  assert (match ds ++ rest with
          | [] => True
          | c1 :: _ => ((c1 =? 120) || (c1 =? 88))%N = false
          end) as Hx.
  { destruct ds as [|c1 ds].
    - destruct rest as [|c1 rest]; [exact I|].
      destruct Hrest as (_ & H1 & H2). cbn [app].
      apply orb_false_iff. split; apply N.eqb_neq; assumption.
    - inversion Hds' as [|? ? Hc1 _]; subst. cbn [app]. by_digit Hc1. }
  assert (read_digits 10 (d :: ds ++ rest) None
          = Some (digits_value (d :: ds) 0)) as R.
  { cbn [read_digits]. rewrite (digit_val_digit _ Hd).
    rewrite read_digits_value by assumption. reflexivity. }
  destruct (ds ++ rest) as [|c1 r] eqn:E.
  - rewrite R. reflexivity.
  - rewrite Hx, andb_false_r. rewrite R. reflexivity.
Qed.

Lemma round_KB (k : Z) :
  Math_round (num_div (num_of_Z k) (num_of_Z 1024))
  = num_of_Z ((k + 512) / 1024).
Proof.
  unfold num_of_Z, num_div, Math_round.
  change (Qeq_bool (inject_Z 1024) 0) with false. cbn iota.
  unfold num_of_Z. do 2 f_equal.
  assert (inject_Z k / inject_Z 1024 + (1 # 2) == (k + 512) # 1024) as E.
  { unfold Qeq, Qdiv, Qmult, Qplus, Qinv, inject_Z. simpl. lia. }
  rewrite (Qfloor_comp _ _ E). reflexivity.
Qed.

(** X1. A row whose RSS column is the decimal number [k] (possibly followed
    by text that does not continue the number), [k] being at most [2^53]
    so that [parseInt] returns it exactly, has the memory
    [floor ((k + 512) / 1024)] MB: kilobytes are rounded to the nearest
    megabyte, a half going up, so that a size below 512 KB is 0 MB, and the
    memory is never negative. *)
Theorem memory_MB_of_row (parts : list jsstring) (ds rest : jsstring) :
  nth_error parts 5 = Some (ds ++ rest) ->
  all_digits ds -> ends_number rest ->
  exactly_read (digits_value ds 0) ->
  let k := digits_value ds 0 in
  memory_MB parts = num_of_Z ((k + 512) / 1024)
  /\ (0 <= (k + 512) / 1024)%Z
  /\ ((k < 512)%Z -> memory_MB parts = num_of_Z 0).
Proof.
  intros Hp Hds Hrest _ k. unfold memory_MB. rewrite Hp. cbn [parseInt].
  rewrite parseInt_digits by assumption. fold k. rewrite round_KB.
  assert (0 <= k)%Z as Hk
      by (apply digits_value_nonneg; [apply Hds|lia]).
  split; [reflexivity|]. split.
  - apply Z.div_pos; lia.
  - intros Hlt. rewrite Z.div_small by lia. reflexivity.
Qed.

Lemma memory_MB_of_row_witness :
  memory_MB (fields (scenario_row_100 sample_columns)) = num_of_Z 200.
Proof.
  apply (@memory_MB_of_row (fields (scenario_row_100 sample_columns))
           (str "204800") []).
  - vm_compute. reflexivity.
  - split; [discriminate|repeat constructor].
  - exact I.
  - unfold exactly_read. vm_compute. split; discriminate.
Defined.

(** ** The statistics of virtual memory *)

Lemma nonneg_of_Z (z : Z) : (0 <= z)%Z -> nonneg (num_of_Z z).
Proof.
  intros H. exists (inject_Z z). split; [reflexivity|].
  change 0 with (inject_Z 0). rewrite <- Zle_Qle. exact H.
Qed.

Lemma nonneg_add (a b : number) : nonneg a -> nonneg b -> nonneg (num_add a b).
Proof.
  intros (x & -> & Hx) (y & -> & Hy). exists (x + y).
  split; [reflexivity|lra].
Qed.

Lemma nonneg_mul (a b : number) : nonneg a -> nonneg b -> nonneg (num_mul a b).
Proof.
  intros (x & -> & Hx) (y & -> & Hy). exists (x * y).
  split; [reflexivity|apply Qmult_le_0_compat; assumption].
Qed.

Lemma nonneg_div (a : number) (d : Z) :
  (0 < d)%Z -> nonneg a -> nonneg (num_div a (num_of_Z d)).
Proof.
  intros Hd (x & -> & Hx). unfold num_of_Z, num_div.
  assert (0 < inject_Z d) as Hd'
      by (change 0 with (inject_Z 0); rewrite <- Zlt_Qlt; exact Hd).
  destruct (Qeq_bool (inject_Z d) 0) eqn:E.
  - apply Qeq_bool_iff in E. rewrite E in Hd'. discriminate Hd'.
  - exists (x / inject_Z d). split; [reflexivity|].
    apply Qle_shift_div_l; [exact Hd'|]. lra.
Qed.

Lemma nonneg_round (a : number) : nonneg a -> nonneg (Math_round a).
Proof.
  intros (x & -> & Hx). cbn [Math_round]. apply nonneg_of_Z.
  rewrite <- (Qfloor_Z 0). apply Qfloor_resp_le.
  change (inject_Z 0) with 0. lra.
Qed.

Lemma take_while_Forall (p : char -> bool) (s : jsstring) :
  Forall (fun c => p c = true) (take_while p s).
Proof.
  induction s as [|c s IH]; cbn [take_while]; [constructor|].
  destruct (p c) eqn:E; constructor; assumption.
Qed.

Lemma vm_at_digits (key s digits : jsstring) :
  vm_at key s = Some digits -> all_digits digits.
Proof.
  unfold vm_at. destruct (starts_with _ _); [|discriminate].
  destruct (take_while is_space _); [discriminate|].
  destruct (take_while is_digit _) as [|d ds] eqn:E; [discriminate|].
  intros H. injection H as <-. split; [discriminate|].
  rewrite <- E. apply take_while_Forall.
Qed.

Lemma vm_match_digits (key vmStat digits : jsstring) :
  vm_match key vmStat = Some digits -> all_digits digits.
Proof.
  induction vmStat as [|c vmStat IH]; cbn [vm_match].
  - destruct (vm_at key []) eqn:E; [|discriminate].
    intros H. injection H as <-. exact (vm_at_digits _ _ E).
  - destruct (vm_at key (c :: vmStat)) eqn:E; [|exact IH].
    intros H. injection H as <-. exact (vm_at_digits _ _ E).
Qed.

Lemma nonneg_to_GB (a : number) : nonneg a -> nonneg (to_GB a).
Proof.
  intros H. unfold to_GB. repeat apply nonneg_div; try lia. exact H.
Qed.

Lemma parseVmStat_nonneg (vmStat key : jsstring) :
  nonneg (parseVmStat vmStat key).
Proof.
  unfold parseVmStat.
  destruct (vm_match key vmStat) as [digits|] eqn:E;
    [|apply nonneg_of_Z; lia].
  apply vm_match_digits in E.
  rewrite <- (app_nil_r digits) at 1.
  rewrite parseInt_digits by (assumption || exact I).
  apply nonneg_to_GB, nonneg_mul; apply nonneg_of_Z; [|lia].
  apply digits_value_nonneg; [apply E|lia].
Qed.

Lemma starts_with_includes (pat s : jsstring) :
  starts_with pat s = true -> includes pat s = true.
Proof. intros H. destruct s; cbn [includes]; rewrite H; reflexivity. Qed.

Lemma vm_match_includes (key vmStat : jsstring) :
  includes (key ++ str ":") vmStat = false -> vm_match key vmStat = None.
Proof.
  induction vmStat as [|c vmStat IH]; cbn [includes vm_match];
    intros H; apply orb_false_iff in H as [H1 H2]; unfold vm_at;
    rewrite H1; [reflexivity|]. apply IH, H2.
Qed.

(** X2. Whatever [vm_stat] prints, each of the three statistics read from it
    is a number that is not negative, and so is the [used] field of every
    snapshot: it is never [NaN].  A statistic whose [key:] does not occur in
    the text counts as 0. *)
Theorem used_memory_is_a_number :
  (forall vmStat key : jsstring, nonneg (parseVmStat vmStat key))
  /\ (forall vmStat key : jsstring,
         includes (key ++ str ":") vmStat = false ->
         parseVmStat vmStat key = num_of_Z 0)
  /\ (forall (e : Env) (s : SystemMemory.t),
         getSystemMemory e = Ok s -> nonneg (SystemMemory.used s)).
Proof.
  split; [exact parseVmStat_nonneg|]. split.
  - intros vmStat key H. unfold parseVmStat.
    rewrite vm_match_includes by assumption. reflexivity.
  - intros e s H.
    apply getSystemMemory_inv in H as (m & v & p & _ & _ & _ & ->).
    unfold snapshot_of, round1, used_of. cbn [SystemMemory.used].
    apply nonneg_div; [lia|]. apply nonneg_round, nonneg_mul;
      [|apply nonneg_of_Z; lia].
    repeat apply nonneg_add; apply parseVmStat_nonneg.
Qed.

Lemma used_memory_is_a_number_witness :
  parseVmStat sample_vm_stat (str "Pages purgeable") = num_of_Z 0.
Proof.
  apply used_memory_is_a_number. vm_compute. reflexivity.
Defined.

Lemma take_while_run (p : char -> bool) (run rest : jsstring) :
  Forall (fun c => p c = true) run -> p (hd 0%N rest) = false \/ rest = [] ->
  take_while p (run ++ rest) = run.
Proof.
  intros Hrun Hrest. induction Hrun as [|c run Hc _ IH].
  - destruct Hrest as [H| ->]; [|reflexivity].
    destruct rest as [|c rest]; [reflexivity|].
    cbn in *. rewrite H. reflexivity.
  - cbn [app take_while]. rewrite Hc, IH. reflexivity.
Qed.







(** ** Rows and fields *)

Lemma drop_while_split (p : char -> bool) (s : jsstring) :
  exists pre, s = pre ++ drop_while p s.
Proof.
  induction s as [|c s [pre IH]]; [exists []; reflexivity|].
  cbn [drop_while]. destruct (p c).
  - exists (c :: pre). cbn [app]. f_equal. exact IH.
  - exists []. reflexivity.
Qed.

Lemma drop_while_hd (p : char -> bool) (s : jsstring) :
  drop_while p s <> [] -> p (hd 0%N (drop_while p s)) = false.
Proof.
  induction s as [|c s IH]; cbn [drop_while]; [congruence|].
  destruct (p c) eqn:E; [exact IH|]. intros _. exact E.
Qed.

(** What [trim] returns is empty or has no white space at either end. *)
Lemma trim_ends (s : jsstring) :
  trim s <> [] ->
  is_space (hd 0%N (trim s)) = false /\ is_space (last (trim s) 0%N) = false.
Proof.
  unfold trim. set (t := drop_while is_space s).
  set (u := drop_while is_space (rev t)). intros Hne.
  assert (u <> []) as Hu by (intros E; apply Hne; rewrite E; reflexivity).
  split.
  - destruct (drop_while_split is_space (rev t)) as [pre Hpre]. fold u in Hpre.
    apply (f_equal (@rev char)) in Hpre.
    rewrite rev_involutive, rev_app_distr in Hpre.
    assert (hd 0%N t = hd 0%N (rev u)) as E.
    { rewrite Hpre. destruct (rev u); [congruence|reflexivity]. }
    rewrite <- E. apply drop_while_hd. fold t. rewrite Hpre.
    intros F. apply app_eq_nil in F as [F _]. congruence.
  - rewrite <- hd_rev, rev_involutive. apply drop_while_hd, Hu.
Qed.

Lemma split_ws_go_columns (s cur : jsstring) (b : bool) :
  Forall (fun c => is_space c = false) cur ->
  (b = true -> cur = []) ->
  (cur = [] -> s <> [] /\ (b = false -> is_space (hd 0%N s) = false)) ->
  (s <> [] -> is_space (last s 0%N) = false) ->
  Forall column (split_ws_go s b cur).
Proof.
  revert cur b. induction s as [|c s IH]; intros cur b H1 H2 H3 H4.
  - cbn [split_ws_go]. constructor; [|constructor]. split.
    + intros E. apply (f_equal (@rev char)) in E.
      rewrite rev_involutive in E. destruct (H3 E) as [F _]. congruence.
    + apply Forall_rev, H1.
  - cbn [split_ws_go].
    assert (s <> [] -> is_space (last s 0%N) = false) as H4'.
    { intros Hs. specialize (H4 ltac:(discriminate)).
      destruct s; [congruence|exact H4]. }
    destruct (is_space c) eqn:Ec.
    + assert (s <> []) as Hs.
      { intros ->. specialize (H4 ltac:(discriminate)). cbn in H4. congruence. }
      assert (Forall column (split_ws_go s true [])) as Hrec.
      { apply IH; [constructor|reflexivity| |exact H4'].
        intros _. split; [exact Hs|discriminate]. }
      destruct b; [rewrite (H2 eq_refl); exact Hrec|].
      constructor; [|exact Hrec].
      split; [|apply Forall_rev, H1].
      intros E. apply (f_equal (@rev char)) in E.
      rewrite rev_involutive in E. destruct (H3 E) as [_ F].
      specialize (F eq_refl). cbn in F. congruence.
    + apply IH; [constructor; assumption|discriminate|discriminate|exact H4'].
Qed.

Lemma split_ws_go_nonempty (s cur : jsstring) (b : bool) :
  split_ws_go s b cur <> [].
Proof.
  revert cur b. induction s as [|c s IH]; intros cur b; cbn [split_ws_go];
    [discriminate|].
  destruct (is_space c); [destruct b|]; try apply IH; discriminate.
Qed.

(** X4. The fields of a row that is not blank are not empty and hold no
    white space, and they are a normal form of the row: joined by single
    spaces and split again they are the same fields.  A blank row has the
    single field [""]. *)
Theorem fields_normal_form (line : jsstring) :
  (trim line = [] -> fields line = [[]])
  /\ (trim line <> [] ->
      Forall column (fields line)
      /\ fields (join (str " ") (fields line)) = fields line).
Proof.
  split.
  - intros E. unfold fields. rewrite E. reflexivity.
  - intros Hne. destruct (trim_ends line Hne) as [Hh Hl].
    assert (Forall column (fields line)) as Hc.
    { unfold fields, split_ws. apply split_ws_go_columns.
      - constructor.
      - discriminate.
      - intros _. split; [exact Hne|intros _; exact Hh].
      - intros _. exact Hl. }
    split; [exact Hc|].
    destruct (fields line) as [|t ts] eqn:E.
    + exfalso. exact (split_ws_go_nonempty _ _ _ E).
    + apply fields_join, Hc.
Qed.

Lemma fields_normal_form_witness :
  Forall column (fields (str "  max   4242  0.0 claude  "))
  /\ fields (join (str " ") (fields (str "  max   4242  0.0 claude  ")))
     = fields (str "  max   4242  0.0 claude  ").
Proof.
  apply (proj2 (fields_normal_form (str "  max   4242  0.0 claude  "))).
  vm_compute. discriminate.
Defined.

Lemma rows_ok (rows : list (list jsstring)) :
  Forall row_columns rows -> Forall row_ok (map (join (str " ")) rows).
Proof.
  intros H. induction H as [|r rows [Hne Hr] _ IH]; [constructor|].
  cbn [map]. constructor; [|exact IH].
  destruct r as [|t ts]; [congruence|]. apply join_row_ok, Hr.
Qed.

Lemma fields_of_rows (rows : list (list jsstring)) :
  Forall row_columns rows -> map fields (map (join (str " ")) rows) = rows.
Proof.
  intros H. induction H as [|r rows [Hne Hr] _ IH]; [reflexivity|].
  cbn [map]. rewrite IH. f_equal.
  destruct r as [|t ts]; [congruence|]. apply fields_join, Hr.
Qed.

(** X5. Printing and reading a table is a round trip.  For rows made of
    columns (non-empty, without white space) separated by single spaces and
    ended by newlines, the lines that the four breakdowns read, split into
    fields, are the rows; the classifier, which drops the first line as the
    header, reads the rows after it. *)
Theorem table_round_trip (header : list jsstring)
    (rows : list (list jsstring)) :
  row_columns header -> Forall row_columns rows ->
  map fields (output_lines (table_text rows)) = rows
  /\ map fields (table_lines (table_text (header :: rows))) = rows.
Proof.
  intros Hh Hrows. unfold table_text. split.
  - rewrite output_lines_text by (apply rows_ok, Hrows).
    apply fields_of_rows, Hrows.
  - assert (Forall row_ok (map (join (str " ")) (header :: rows))) as Hok
        by (apply rows_ok; constructor; assumption).
    cbn [map] in *. unfold table_lines. rewrite text_join.
    destruct (join_lines_ends Hok) as (Hne & Hhd & Hl).
    rewrite trim_trailing_newline by assumption.
    rewrite split_lines by assumption. cbn [skipn].
    apply fields_of_rows, Hrows.
Qed.

Lemma table_round_trip_witness :
  map fields
    (output_lines
       (table_text [[str "max"; str "100"; str "python3"];
                    [str "max"; str "101"; str "node"; str "server.js"]]))
  = [[str "max"; str "100"; str "python3"];
     [str "max"; str "101"; str "node"; str "server.js"]].
Proof.
  apply (@table_round_trip [str "USER"; str "PID"; str "COMMAND"]
           [[str "max"; str "100"; str "python3"];
            [str "max"; str "101"; str "node"; str "server.js"]]).
  - split; [discriminate|repeat constructor; discriminate].
  - repeat constructor; discriminate.
Defined.

(** ** The scripts *)

Lemma includes_cons (pat s : jsstring) (c : char) :
  includes pat s = true -> includes pat (c :: s) = true.
Proof. intros H. cbn [includes]. rewrite H. apply orb_true_r. Qed.

Lemma py_at_sound (s m : jsstring) :
  py_at s = Some m ->
  exists stem,
    m = stem ++ str ".py" /\ stem <> []
    /\ Forall (fun c => is_name_char c = true) stem
    /\ starts_with m s = true.
Proof.
  revert m. induction s as [|c s IH]; intros m; cbn [py_at]; [discriminate|].
  destruct (is_name_char c) eqn:Hc; [|discriminate].
  destruct (py_at s) as [m'|].
  - intros H. injection H as <-.
    destruct (IH m' eq_refl) as (stem & -> & Hne & Hstem & Hs).
    exists (c :: stem). repeat split; try discriminate.
    + constructor; assumption.
    + cbn [app starts_with]. unfold char_eqb. rewrite N.eqb_refl. exact Hs.
  - destruct (starts_with (str ".py") s) eqn:E; [|discriminate].
    intros H. injection H as <-. exists [c].
    repeat split; try discriminate.
    + constructor; [assumption|constructor].
    + cbn [starts_with]. unfold char_eqb. rewrite N.eqb_refl. exact E.
Qed.

Lemma pyMatch_sound (command m : jsstring) :
  pyMatch command = Some m ->
  exists stem,
    m = stem ++ str ".py" /\ stem <> []
    /\ Forall (fun c => is_name_char c = true) stem
    /\ includes m command = true.
Proof.
  induction command as [|c command IH]; cbn [pyMatch].
  - destruct (py_at []) eqn:E; [|discriminate]. cbn in E. discriminate E.
  - destruct (py_at (c :: command)) as [m'|] eqn:E.
    + intros H. injection H as <-.
      destruct (py_at_sound _ E) as (stem & H1 & H2 & H3 & H4).
      exists stem. repeat split; try assumption.
      apply starts_with_includes, H4.
    + intros H. destruct (IH H) as (stem & H1 & H2 & H3 & H4).
      exists stem. repeat split; try assumption.
      apply includes_cons, H4.
Qed.

Lemma pyMatch_complete (command : jsstring) :
  py_inside command = true -> pyMatch command <> None.
Proof.
  induction command as [|c command IH]; cbn [py_inside pyMatch py_at];
    [discriminate|].
  intros H. destruct (is_name_char c).
  - destruct (py_at command); [discriminate|].
    destruct (starts_with (str ".py") command); [discriminate|].
    apply IH. exact H.
  - apply IH. exact H.
Qed.

Lemma pyMatch_inside (command m : jsstring) :
  pyMatch command = Some m -> py_inside command = true.
Proof.
  induction command as [|c command IH]; cbn [pyMatch].
  - destruct (py_at []) eqn:E; [|discriminate]. cbn in E. discriminate E.
  - destruct (py_at (c :: command)) as [m'|] eqn:E.
    + intros _. exact (py_at_inside _ E).
    + intros H. cbn [py_inside]. rewrite (IH H). apply orb_true_r.
Qed.

(** X6. A command line gets a label from the [.py] pattern exactly when
    somewhere in it [.py] comes right after a character other than white
    space and the slash.  That label always ends in [.py] after at least one
    character, holds neither white space nor a slash, and occurs in the
    command line. *)
Theorem script_pattern_characterised :
  (forall command : jsstring,
      pyMatch command = None <-> py_inside command = false)
  /\ (forall command m : jsstring,
         pyMatch command = Some m ->
         exists stem,
           m = stem ++ str ".py" /\ stem <> []
           /\ Forall (fun c => is_name_char c = true) stem
           /\ includes m command = true).
Proof.
  split; [|exact pyMatch_sound].
  intros command. split.
  - intros H. destruct (py_inside command) eqn:E; [|reflexivity].
    apply pyMatch_complete in E. contradiction.
  - intros H. destruct (pyMatch command) as [m|] eqn:E; [|reflexivity].
    apply pyMatch_inside in E. congruence.
Qed.

Lemma script_pattern_characterised_witness :
  exists stem,
    str "run.py" = stem ++ str ".py" /\ stem <> []
    /\ Forall (fun c => is_name_char c = true) stem
    /\ includes (str "run.py") (str "python3 /opt/app/run.py --fast") = true.
Proof.
  apply (proj2 script_pattern_characterised
           (str "python3 /opt/app/run.py --fast") (str "run.py")).
  vm_compute. reflexivity.
Defined.

Lemma script_label_kind (command script : jsstring) (memory : number) :
  script_label command memory = Some script -> label_kind script memory.
Proof.
  unfold script_label. destruct (pyMatch command) as [m|] eqn:E.
  - intros H. injection H as <-.
    destruct (pyMatch_sound _ E) as (stem & H1 & H2 & H3 & _).
    exact (@label_py _ memory stem H2 H3 H1).
  - destruct (includes (str "voice-mode") command).
    { intros H. injection H as <-. apply label_tool. cbn. auto. }
    destruct (includes (str "ingest") command).
    { intros H. injection H as <-. apply label_tool. cbn. auto. }
    destruct (includes (str "uv run") command).
    { intros H. injection H as <-. apply label_tool. cbn. auto. }
    destruct (num_gt memory (num_of_Z 100)) eqn:G; [|discriminate].
    intros H. injection H as <-.
    apply (@label_truncated _ _ (substring0 40 command));
      [apply firstn_le_length|reflexivity|exact G].
Qed.

Lemma python_step_invariant (P : PythonProcess.t -> Prop)
    (processes : list PythonProcess.t) (line : jsstring) :
  (forall script memory pid,
      label_kind script memory -> num_gt memory (num_of_Z 10) = true ->
      P (PythonProcess.mk script memory pid)) ->
  Forall P processes -> Forall P (python_step processes line).
Proof.
  intros HP H. unfold python_step.
  destruct (script_label _ _) as [script|] eqn:E; [|exact H].
  destruct (num_gt _ _) eqn:G; [|exact H].
  apply Forall_app. split; [exact H|]. constructor; [|constructor].
  apply HP; [exact (script_label_kind _ _ E)|exact G].
Qed.

(** X7. Every script entry that [getPythonProcesses] returns has a memory
    that is a number above 10 MB, and a label of one of three kinds: a
    [.py] name without white space or slash, the friendly name of a known
    tool, or at most 40 characters of the command followed by three dots;
    an entry of the third kind always has more than 100 MB.  There are no
    more entries than lines read. *)
Theorem scripts_invariant (e : Env) (scripts : list PythonProcess.t) :
  getPythonProcesses e = Ok scripts ->
  Forall (fun p =>
            num_gt (PythonProcess.memory p) (num_of_Z 10) = true
            /\ label_kind (PythonProcess.script p) (PythonProcess.memory p))
         scripts
  /\ (forall output, ps_python e = Ok output ->
                     (List.length scripts
                      <= List.length (output_lines output))%nat).
Proof.
  rewrite getPythonProcesses_presort. intros H. injection H as <-.
  split.
  - eapply Permutation_Forall; [apply sort_perm|].
    unfold python_presort. destruct (ps_python e) as [output|];
      [|constructor].
    unfold python_unsorted.
    assert (forall lines acc,
               Forall (fun p =>
                         num_gt (PythonProcess.memory p) (num_of_Z 10) = true
                         /\ label_kind (PythonProcess.script p)
                              (PythonProcess.memory p)) acc ->
               Forall (fun p =>
                         num_gt (PythonProcess.memory p) (num_of_Z 10) = true
                         /\ label_kind (PythonProcess.script p)
                              (PythonProcess.memory p))
                      (fold_left python_step lines acc)) as G.
    { induction lines as [|line lines IH]; intros acc Hacc; [exact Hacc|].
      cbn [fold_left]. apply IH. apply python_step_invariant; [|exact Hacc].
      intros script memory pid Hk Hm. split; assumption. }
    apply G. constructor.
  - intros output Ho. rewrite sort_length. unfold python_presort.
    rewrite Ho. unfold python_unsorted.
    assert (forall lines acc,
               (List.length (fold_left python_step lines acc)
                <= List.length acc + List.length lines)%nat) as G.
    { induction lines as [|line lines IH]; intros acc; cbn [fold_left];
        [cbn; lia|].
      specialize (IH (python_step acc line)).
      assert (List.length (python_step acc line) <= S (List.length acc))%nat.
      { unfold python_step. destruct (script_label _ _); [|lia].
        destruct (num_gt _ _); [|lia]. rewrite length_app. cbn. lia. }
      cbn [List.length]. lia. }
    apply (G _ []).
Qed.

Lemma scripts_invariant_witness :
  Forall (fun p =>
            num_gt (PythonProcess.memory p) (num_of_Z 10) = true
            /\ label_kind (PythonProcess.script p) (PythonProcess.memory p))
         [PythonProcess.mk (str "ingest_pipeline.py")
            (num_of_Z 200) (num_of_Z 100)].
Proof.
  apply (@scripts_invariant sample_env).
  vm_compute. reflexivity.
Defined.

(** ** The sessions *)

Section SplitChar.
Variable c0 : char.

Lemma split_go_char_step (c : char) (s cur : jsstring) :
  split_go [c0] (c :: s) 0 cur
  = if char_eqb c0 c then rev cur :: split_go [c0] s 0 []
    else split_go [c0] s 0 (c :: cur).
Proof.
  cbn [split_go starts_with List.length Nat.sub]. rewrite andb_true_r.
  reflexivity.
Qed.

Lemma split_go_char_pieces (s cur : jsstring) :
  Forall (fun c => c <> c0) cur ->
  Forall (Forall (fun c => c <> c0)) (split_go [c0] s 0 cur).
Proof.
  revert cur. induction s as [|c s IH]; intros cur Hcur.
  - cbn [split_go]. constructor; [apply Forall_rev, Hcur|constructor].
  - rewrite split_go_char_step. unfold char_eqb.
    destruct (N.eqb_spec c0 c) as [E|E].
    + constructor; [apply Forall_rev, Hcur|]. apply IH. constructor.
    + apply IH. constructor; [congruence|exact Hcur].
Qed.

Lemma split_go_char_app (a b cur : jsstring) :
  split_go [c0] (a ++ c0 :: b) 0 cur
  = split_go [c0] a 0 cur ++ split_go [c0] b 0 [].
Proof.
  revert cur. induction a as [|c a IH]; intros cur.
  - cbn [app]. rewrite split_go_char_step. unfold char_eqb.
    rewrite N.eqb_refl. reflexivity.
  - cbn [app]. rewrite !split_go_char_step.
    destruct (char_eqb c0 c); rewrite IH; reflexivity.
Qed.

Lemma split_go_char_none (s cur : jsstring) :
  Forall (fun c => c <> c0) s -> split_go [c0] s 0 cur = [rev cur ++ s].
Proof.
  intros Hs. revert cur. induction Hs as [|c s Hc _ IH]; intros cur.
  - cbn [split_go]. rewrite app_nil_r. reflexivity.
  - rewrite split_go_char_step. unfold char_eqb.
    destruct (N.eqb_spec c0 c) as [E|E]; [congruence|].
    rewrite IH. cbn [rev]. rewrite <- app_assoc. reflexivity.
Qed.

Lemma split_go_char_cons (s cur : jsstring) :
  exists p l, split_go [c0] s 0 cur = p :: l.
Proof.
  revert cur. induction s as [|c s IH]; intros cur.
  - cbn [split_go]. eauto.
  - rewrite split_go_char_step. destruct (char_eqb c0 c); eauto.
Qed.

(** Splitting what was joined gives the pieces back. *)
Lemma split_join_char (segs : list jsstring) :
  segs <> [] -> Forall (Forall (fun c => c <> c0)) segs ->
  split_go [c0] (join [c0] segs) 0 [] = segs.
Proof.
  intros Hne H. revert Hne.
  induction H as [|p segs Hp Hsegs IH]; intros Hne;
    [exfalso; apply Hne; reflexivity|].
  destruct segs as [|q segs].
  - cbn [join]. apply (split_go_char_none [] Hp).
  - change (join [c0] (p :: q :: segs))
      with (p ++ c0 :: join [c0] (q :: segs)).
    rewrite split_go_char_app, (split_go_char_none [] Hp), IH by discriminate.
    reflexivity.
Qed.

(** Joining the pieces gives the text back. *)
Lemma join_split_char (s cur : jsstring) :
  join [c0] (split_go [c0] s 0 cur) = rev cur ++ s.
Proof.
  revert cur. induction s as [|c s IH]; intros cur.
  - cbn [split_go join]. rewrite app_nil_r. reflexivity.
  - rewrite split_go_char_step. unfold char_eqb.
    destruct (N.eqb_spec c0 c) as [E|E].
    + pose proof (IH []) as IH'.
      destruct (split_go_char_cons s []) as (p & l & Hs).
      rewrite Hs in *.
      change (join [c0] (rev cur :: p :: l))
        with (rev cur ++ c0 :: join [c0] (p :: l)).
      rewrite IH', E. reflexivity.
    + rewrite IH. cbn [rev]. rewrite <- app_assoc. reflexivity.
Qed.
End SplitChar.

Lemma project_name_unfold (workingDir : jsstring) :
  project_name workingDir
  = match rev (filter keeps_segment (split (str "/") workingDir)) with
    | p :: _ => p
    | [] => str "Home"
    end.
Proof. reflexivity. Qed.

Lemma keeps_informative (p : jsstring) :
  informative p -> keeps_segment p = true.
Proof.
  intros (H1 & _ & H3 & H4). unfold keeps_segment.
  apply str_eqb_neq in H3, H4. rewrite H3, H4.
  destruct p; [congruence|reflexivity].
Qed.

Lemma keeps_segment_spec (p : jsstring) :
  keeps_segment p = true ->
  p <> [] /\ p <> str "Users" /\ p <> str "maxghenis".
Proof.
  unfold keeps_segment. rewrite !andb_true_iff, !negb_true_iff.
  intros [[H1 H2] H3]. apply str_eqb_neq in H2, H3.
  repeat split; try assumption. intros ->. discriminate H1.
Qed.

Lemma filtered_segments (l : list jsstring) :
  Forall (fun p => p = [] \/ p = str "Users" \/ p = str "maxghenis") l ->
  filter keeps_segment l = []
  /\ Forall (Forall (fun c => c <> 47%N)) l.
Proof.
  intros H. induction H as [|p l Hp _ [IH1 IH2]]; [split; constructor|].
  cbn [filter]. rewrite IH1. split.
  - destruct Hp as [->|[->| ->]]; reflexivity.
  - constructor; [|exact IH2].
    destruct Hp as [->|[->| ->]]; repeat constructor; discriminate.
Qed.

(** X8. The project name of a working directory is its last segment that is
    not empty and is neither [Users] nor [maxghenis], and [Home] when it has
    none: it is never empty, never holds a slash and is never one of the two
    filtered names; a slash at the end of the directory changes nothing.
    Every directory is a list of segments joined by slashes, so the two
    cases cover every directory: the segment that is followed by filtered
    segments only is the name, whatever comes before it. *)
Theorem project_name_last_segment :
  (forall dir : jsstring, informative (project_name dir))
  /\ (forall dir seg : jsstring,
         informative seg ->
         project_name (dir ++ str "/" ++ seg) = seg
         /\ project_name (dir ++ str "/" ++ seg ++ str "/") = seg)
  /\ (forall dir : jsstring,
         Forall (fun p => p = [] \/ p = str "Users" \/ p = str "maxghenis")
                (split (str "/") dir) ->
         project_name dir = str "Home")
  /\ (forall (before after : list jsstring) (seg : jsstring),
         Forall (Forall (fun c => c <> 47%N)) before ->
         informative seg ->
         Forall (fun p => p = [] \/ p = str "Users" \/ p = str "maxghenis")
                after ->
         project_name (join (str "/") (before ++ seg :: after)) = seg)
  /\ (forall segs : list jsstring,
         Forall (fun p => p = [] \/ p = str "Users" \/ p = str "maxghenis")
                segs ->
         project_name (join (str "/") segs) = str "Home")
  /\ (forall dir : jsstring,
         exists segs : list jsstring,
           segs <> [] /\ Forall (Forall (fun c => c <> 47%N)) segs
           /\ dir = join (str "/") segs).
Proof.
  split; [|split; [|split; [|split; [|split]]]].
  - intros dir. rewrite project_name_unfold.
    destruct (rev (filter keeps_segment (split (str "/") dir)))
      as [|p rest] eqn:E.
    + repeat split; try discriminate. repeat constructor; discriminate.
    + assert (In p (filter keeps_segment (split (str "/") dir))) as Hin.
      { apply in_rev. rewrite E. left. reflexivity. }
      apply filter_In in Hin as [Hin Hk].
      apply keeps_segment_spec in Hk as (H1 & H2 & H3).
      repeat split; try assumption.
      pose proof (@split_go_char_pieces 47%N dir [] (Forall_nil _)) as Hp.
      rewrite Forall_forall in Hp. exact (Hp p Hin).
  - intros dir seg Hseg. pose proof (keeps_informative Hseg) as Hk.
    destruct Hseg as (_ & Hslash & _).
    rewrite !project_name_unfold. unfold split.
    change (str "/") with [47%N].
    change (dir ++ [47%N] ++ seg) with (dir ++ 47%N :: seg).
    change (dir ++ [47%N] ++ seg ++ [47%N])
      with (dir ++ 47%N :: (seg ++ 47%N :: [])).
    rewrite !split_go_char_app, !filter_app.
    rewrite (@split_go_char_none 47%N seg [] Hslash).
    cbn [rev app split_go filter]. rewrite Hk.
    change (keeps_segment []) with false. cbn iota.
    rewrite app_nil_r, rev_app_distr. split; reflexivity.
  - intros dir H. rewrite project_name_unfold.
    rewrite (proj1 (filtered_segments H)). reflexivity.
  - intros before after seg Hb Hseg Ha.
    pose proof (keeps_informative Hseg) as Hk.
    destruct (filtered_segments Ha) as [Hf Hs].
    rewrite project_name_unfold. unfold split.
    change (str "/") with [47%N].
    rewrite split_join_char.
    + rewrite filter_app. cbn [filter]. rewrite Hk, Hf, rev_app_distr.
      reflexivity.
    + destruct before; discriminate.
    + apply Forall_app. split; [exact Hb|].
      constructor; [apply Hseg|exact Hs].
  - intros segs H. destruct (filtered_segments H) as [Hf Hs].
    destruct segs as [|p segs]; [reflexivity|].
    rewrite project_name_unfold. unfold split.
    change (str "/") with [47%N].
    rewrite split_join_char by (discriminate || exact Hs).
    rewrite Hf. reflexivity.
  - intros dir. exists (split (str "/") dir). split; [|split].
    + destruct (split_go_char_cons 47%N dir []) as (p & l & Hs).
      assert (split (str "/") dir = p :: l) as -> by exact Hs.
      discriminate.
    + exact (@split_go_char_pieces 47%N dir [] (Forall_nil _)).
    + symmetry. exact (join_split_char 47%N dir []).
Qed.

Lemma project_name_last_segment_witness :
  project_name (str "/Users/maxghenis/code" ++ str "/" ++ str "ram-dashboard")
  = str "ram-dashboard"
  /\ project_name (join (str "/") ([[]; str "tmp"] ++ str "x" :: [str "Users"]))
     = str "x"
  /\ project_name (join (str "/") [[]; str "Users"; str "maxghenis"])
     = str "Home".
Proof.
  split; [|split].
  - apply (proj1 (proj2 project_name_last_segment)
             (str "/Users/maxghenis/code") (str "ram-dashboard")).
    repeat split; try discriminate. repeat constructor; discriminate.
  - apply (proj1 (proj2 (proj2 (proj2 project_name_last_segment)))
             [[]; str "tmp"] [str "Users"] (str "x")).
    + repeat constructor; discriminate.
    + repeat split; try discriminate. repeat constructor; discriminate.
    + constructor; [right; left; reflexivity|constructor].
  - apply (proj1 (proj2 (proj2 (proj2 (proj2 project_name_last_segment))))
             [[]; str "Users"; str "maxghenis"]).
    constructor; [left; reflexivity|].
    constructor; [right; left; reflexivity|].
    constructor; [right; right; reflexivity|constructor].
Defined.

Lemma trim_idempotent (s : jsstring) : trim (trim s) = trim s.
Proof.
  destruct (trim s) as [|c t] eqn:E; [reflexivity|].
  rewrite <- E. assert (trim s <> []) as Hne by (rewrite E; discriminate).
  destruct (trim_ends s Hne) as [Hh Hl]. apply trim_id; assumption.
Qed.

Lemma num_lt_false_ge (q : Q) (z : Z) :
  num_lt (Num q) (num_of_Z z) = false -> inject_Z z <= q.
Proof.
  unfold num_lt, num_of_Z. rewrite negb_false_iff. apply Qle_bool_iff.
Qed.

Lemma num_lt_true (a : number) (z : Z) :
  num_lt a (num_of_Z z) = true -> exists q, a = Num q /\ q < inject_Z z.
Proof.
  destruct a as [|q]; [discriminate|]. unfold num_lt, num_of_Z.
  rewrite negb_true_iff. intros H. exists q. split; [reflexivity|].
  apply Qnot_le_lt. intros F. apply Qle_bool_iff in F. congruence.
Qed.

Lemma claude_step_ok (lsof : number -> result jsstring)
    (sessions : list ClaudeSession.t) (line : jsstring) :
  Forall session_ok sessions ->
  Forall session_ok (claude_step lsof sessions line).
Proof.
  intros H. unfold claude_step.
  destruct (num_lt (memory_MB (fields line)) (num_of_Z 50)) eqn:E;
    [exact H|].
  apply Forall_app. split; [exact H|]. constructor; [|constructor].
  unfold session_ok.
  cbn [ClaudeSession.memory ClaudeSession.projectName
       ClaudeSession.workingDir ClaudeSession.isSubagent].
  split; [exact E|]. split; [reflexivity|]. split.
  - destruct (lsof _); [apply trim_idempotent|reflexivity].
  - intros Hsub. apply andb_true_iff in Hsub as [Hsub _].
    apply num_lt_true in Hsub as (q & Hq & Hlt).
    rewrite Hq in E |- *. apply num_lt_false_ge in E.
    exists q. split; [reflexivity|].
    change (inject_Z 50) with 50 in E. change (inject_Z 500) with 500 in Hlt.
    split; assumption.
Qed.

Lemma claude_presort_ok (e : Env) : Forall session_ok (claude_presort e).
Proof.
  unfold claude_presort. destruct (ps_claude e) as [output|]; [|constructor].
  unfold claude_unsorted.
  assert (forall lines acc,
             Forall session_ok acc ->
             Forall session_ok (fold_left (claude_step (lsof_cwd e)) lines acc))
    as G.
  { induction lines as [|line lines IH]; intros acc Hacc; [exact Hacc|].
    cbn [fold_left]. apply IH, claude_step_ok, Hacc. }
  apply G. constructor.
Qed.

(** X9. Every session that [getClaudeSessions] returns has a memory that is
    not below 50 MB, a project name derived from its working directory, and
    a working directory without white space at its ends (empty when the
    lookup failed); a session marked as a sub-agent has a memory that is a
    number from 50 MB to below 500 MB. *)
Theorem sessions_invariant (e : Env) (sessions : list ClaudeSession.t) :
  getClaudeSessions e = Ok sessions -> Forall session_ok sessions.
Proof.
  rewrite getClaudeSessions_presort. intros H. injection H as <-.
  eapply Permutation_Forall; [apply sort_perm|apply claude_presort_ok].
Qed.

Lemma sessions_invariant_witness :
  Forall session_ok
    [ClaudeSession.mk (str "/Users/maxghenis/ram-dashboard")
       (str "ram-dashboard") (num_of_Z 600) (num_of_Z 210) false;
     ClaudeSession.mk (str "/Users/maxghenis/ram-dashboard")
       (str "ram-dashboard") (num_of_Z 100) (num_of_Z 211) true].
Proof.
  apply (@sessions_invariant sample_env).
  vm_compute. reflexivity.
Defined.

(** X10. The page agrees with the server on sub-agents: a session that the
    server marks as a sub-agent is badged [subagent] and is never in the
    memory class [high]; a session badged [main] is not marked as a
    sub-agent and counts among the main sessions.  A session that the server
    returns is left out of the page only when its memory is exactly 50 MB or
    is not a number. *)
Theorem page_sessions_consistent (e : Env) (sessions : list ClaudeSession.t) :
  getClaudeSessions e = Ok sessions ->
  (forall s, In s sessions -> ClaudeSession.isSubagent s = true ->
             session_badge (ClaudeSession.memory s) = str "subagent"
             /\ getMemClass (ClaudeSession.memory s) <> str "high")
  /\ (forall s, In s sessions ->
                session_badge (ClaudeSession.memory s) = str "main" ->
                ClaudeSession.isSubagent s = false
                /\ num_gt (ClaudeSession.memory s) (num_of_Z 200) = true)
  /\ (forall s, In s sessions -> ~ In s (shown_sessions sessions) ->
                ClaudeSession.memory s = NaN
                \/ exists q, ClaudeSession.memory s = Num q /\ q == 50).
Proof.
  intros H.
  rewrite getClaudeSessions_presort in H. injection H as <-.
  assert (forall s, In s (sort (by_memory_desc ClaudeSession.memory)
                            (claude_presort e)) -> session_ok s) as Hok.
  { intros s Hs. apply sort_In in Hs.
    pose proof (claude_presort_ok e) as F. rewrite Forall_forall in F.
    exact (F s Hs). }
  split; [|split].
  - intros s Hs Hsub. destruct (Hok s Hs) as (_ & _ & _ & Hq).
    destruct (Hq Hsub) as (q & Hm & Hlo & Hhi). rewrite Hm.
    unfold session_badge, getMemClass, num_gt, num_lt, num_ge, num_of_Z.
    assert (Qle_bool (inject_Z 500) q = false) as G.
    { destruct (Qle_bool (inject_Z 500) q) eqn:G; [|reflexivity].
      apply Qle_bool_iff in G. change (inject_Z 500) with 500 in G. lra. }
    assert (Qle_bool q (inject_Z 500) = true) as G'.
    { apply Qle_bool_iff. change (inject_Z 500) with 500. lra. }
    rewrite G, G'. cbn [negb]. split; [reflexivity|].
    destruct (Qle_bool (inject_Z 200) q); discriminate.
  - intros s Hs Hb. unfold session_badge in Hb.
    destruct (num_gt (ClaudeSession.memory s) (num_of_Z 500)) eqn:G;
      [|discriminate Hb].
    destruct (Hok s Hs) as (_ & _ & _ & Hq).
    destruct (ClaudeSession.memory s) as [|q] eqn:Hm; [discriminate G|].
    unfold num_gt, num_lt, num_of_Z in G. rewrite negb_true_iff in G.
    assert (500 < q) as Hbig.
    { apply Qnot_le_lt. intros F. apply Qle_bool_iff in F.
      change 500 with (inject_Z 500) in F. congruence. }
    split.
    + destruct (ClaudeSession.isSubagent s); [|reflexivity].
      destruct (Hq eq_refl) as (q' & Hq' & _ & Hhi).
      injection Hq' as <-. lra.
    + unfold num_gt, num_lt, num_of_Z. rewrite negb_true_iff.
      destruct (Qle_bool q (inject_Z 200)) eqn:G2; [|reflexivity].
      apply Qle_bool_iff in G2. change (inject_Z 200) with 200 in G2. lra.
  - intros s Hs Hhidden.
    destruct (Hok s Hs) as (Hlo & _).
    destruct (ClaudeSession.memory s) as [|q] eqn:Hm; [left; reflexivity|].
    right. exists q. split; [reflexivity|].
    apply num_lt_false_ge in Hlo. change (inject_Z 50) with 50 in Hlo.
    assert (num_gt (ClaudeSession.memory s) (num_of_Z 50) = false) as G.
    { destruct (num_gt (ClaudeSession.memory s) (num_of_Z 50)) eqn:G;
        [|reflexivity].
      exfalso. apply Hhidden. unfold shown_sessions.
      apply filter_In. split; assumption. }
    rewrite Hm in G. unfold num_gt, num_lt, num_of_Z in G.
    rewrite negb_false_iff in G. apply Qle_bool_iff in G.
    change (inject_Z 50) with 50 in G. lra.
Qed.

Lemma page_sessions_consistent_witness :
  session_badge (num_of_Z 100) = str "subagent"
  /\ getMemClass (num_of_Z 100) <> str "high".
Proof.
  apply (proj1 (@page_sessions_consistent sample_env _ eq_refl)
           (ClaudeSession.mk (str "/Users/maxghenis/ram-dashboard")
              (str "ram-dashboard") (num_of_Z 100) (num_of_Z 211) true)).
  - vm_compute. auto.
  - reflexivity.
Defined.

(** ** The tabs *)

Lemma StronglySorted_app_cross (A : Type) (R : A -> A -> Prop)
    (a b : list A) (x y : A) :
  StronglySorted R (a ++ b) -> In x a -> In y b -> R x y.
Proof.
  induction a as [|z a IH]; intros H Hx Hy; [contradiction|].
  cbn [app] in H. apply StronglySorted_inv in H as [H Hz].
  destruct Hx as [->|Hx]; [|apply IH; assumption].
  rewrite Forall_forall in Hz. apply Hz, in_or_app. right. exact Hy.
Qed.

Lemma fallback_truthy (a : number) : in_fallback_range a -> truthy a = true.
Proof.
  intros (z & -> & Hz). unfold truthy, num_of_Z. rewrite negb_true_iff.
  destruct (Qeq_bool (inject_Z z) 0) eqn:E; [|reflexivity].
  apply Qeq_bool_iff in E. unfold Qeq in E. cbn in E. lia.
Qed.

Lemma known_truthy (rendererMemory : list number) (i : nat) (m : number) :
  known_memory rendererMemory i = Some m -> truthy m = true.
Proof.
  unfold known_memory. destruct (nth_error rendererMemory i) as [m'|];
    [|discriminate].
  destruct (truthy m') eqn:E; [|discriminate].
  intros H. injection H as <-. exact E.
Qed.

(** X11. With draws of [Math.random()] in their interval, no tab that
    [getChromeTabs] returns has the memory 0 or [NaN]: a tab without a usable
    renderer value carries an estimate of at least 50 MB. *)
Theorem tabs_memory_never_zero (e : Env) (tabs : list ChromeTab.t) :
  random_ok (random e) -> getChromeTabs e = Ok tabs ->
  Forall (fun tab => truthy (ChromeTab.memory tab) = true) tabs.
Proof.
  intros Hr H. rewrite getChromeTabs_presort in H. injection H as <-.
  eapply Permutation_Forall; [apply sort_perm|].
  unfold tabs_presort.
  destruct (ps_renderers e) as [psOutput|]; [|constructor].
  destruct (osascript_tabs e) as [tabsOutput|]; [|constructor].
  apply Forall_forall. intros tab Hin.
  apply In_nth_error in Hin as [i Hi]. unfold correlate_tabs in Hi.
  apply (tabs_loop_memory _ _ _ _ _ Hr) in Hi. cbn [Nat.add] in Hi.
  destruct (known_memory (renderers_of_output psOutput) i) as [m|] eqn:E.
  - rewrite Hi. exact (known_truthy _ _ E).
  - apply fallback_truthy, Hi.
Qed.

Lemma tabs_memory_never_zero_witness :
  Forall (fun tab => truthy (ChromeTab.memory tab) = true)
    [ChromeTab.mk (str "Inbox") (str "https://mail.example") (num_of_Z 300);
     ChromeTab.mk (str "News") (str "https://news.example") (num_of_Z 120);
     ChromeTab.mk (str "Docs") (str "https://docs.example") (num_of_Z 83)].
Proof.
  apply (@tabs_memory_never_zero sample_env).
  - intros n. split; [discriminate|reflexivity].
  - vm_compute. reflexivity.
Defined.

(** X12. The page shows the first 15 tabs of the list: these are 15 tabs of
    the largest memory, every tab that is shown having at least the memory
    of every tab that is left out; with 15 tabs or fewer all are shown. *)
Theorem page_shows_largest_tabs (e : Env) (tabs : list ChromeTab.t) :
  getChromeTabs e = Ok tabs ->
  (forall shown hidden,
      In shown (shown_tabs tabs) -> In hidden (skipn 15 tabs) ->
      num_ge (ChromeTab.memory shown) (ChromeTab.memory hidden) = true)
  /\ List.length (shown_tabs tabs) = Nat.min 15 (List.length tabs)
  /\ ((List.length tabs <= 15)%nat -> shown_tabs tabs = tabs).
Proof.
  intros H. rewrite getChromeTabs_presort in H. injection H as <-.
  set (tabs := sort (by_memory_desc ChromeTab.memory) (tabs_presort e)).
  assert (descending ChromeTab.memory tabs) as D
      by (apply sort_descending, tabs_presort_numeric).
  unfold shown_tabs. split; [|split].
  - intros shown hidden Hs Hh. unfold descending in D.
    rewrite <- (firstn_skipn 15 tabs) in D.
    exact (@StronglySorted_app_cross _ _ _ _ _ _ D Hs Hh).
  - apply length_firstn.
  - intros Hlen. apply firstn_all2, Hlen.
Qed.

Lemma page_shows_largest_tabs_witness :
  List.length
    (shown_tabs
       [ChromeTab.mk (str "Inbox") (str "https://mail.example") (num_of_Z 300);
        ChromeTab.mk (str "News") (str "https://news.example") (num_of_Z 120);
        ChromeTab.mk (str "Docs") (str "https://docs.example") (num_of_Z 83)])
  = Nat.min 15 3.
Proof.
  apply (@page_shows_largest_tabs sample_env).
  vm_compute. reflexivity.
Defined.

(** ** The workspaces *)

(** X13. When the windows of VS Code cannot be enumerated,
    [getVSCodeWorkspaces] returns the single entry [VS Code (total)] whose
    memory is the sum of the memories of the process rows and whose count
    is their number (one entry of 0 MB and 0 processes when there is no
    row). *)
Theorem vscode_fallback_aggregate (e : Env) (output : jsstring) :
  ps_vscode e = Ok output -> osascript_windows e = Throw ->
  getVSCodeWorkspaces e
  = Ok [VSCodeWorkspace.mk (str "VS Code (total)")
          (vscode_total_memory output) (vscode_total_processes output)].
Proof.
  intros H1 H2. unfold getVSCodeWorkspaces. rewrite H1.
  cbn [bind try_catch]. unfold vscode_of_output, vscode_unsorted.
  rewrite H2. change (num_of_Z 0, num_of_Z 0) with (num_of_Z 0, num_of_nat 0).
  rewrite vscode_totals. reflexivity.
Qed.

Lemma vscode_fallback_aggregate_witness :
  getVSCodeWorkspaces (with_osascript_windows Throw sample_env)
  = Ok [VSCodeWorkspace.mk (str "VS Code (total)")
          (vscode_total_memory sample_ps_vscode)
          (vscode_total_processes sample_ps_vscode)].
Proof.
  apply vscode_fallback_aggregate; reflexivity.
Defined.

Section WindowLoop.
Variable data : WorkspaceData.

Let step := window_step (ws_memory data) (ws_processes data).

Lemma map_set_length (m : Map WorkspaceData) (k : jsstring) :
  (List.length (map_set m k data) <= S (List.length m))%nat.
Proof.
  induction m as [|[k' v'] m IH]; cbn [map_set List.length]; [lia|].
  destruct (str_eqb k' k); cbn [List.length]; lia.
Qed.

Lemma map_set_values (m : Map WorkspaceData) (k : jsstring) :
  Forall (fun entry => snd entry = data) m ->
  Forall (fun entry => snd entry = data) (map_set m k data).
Proof.
  intros H. induction H as [|[k' v'] m Hv Hm IH]; cbn [map_set].
  - repeat constructor.
  - destruct (str_eqb k' k); constructor;
      first [reflexivity | assumption].
Qed.

Lemma map_set_key_in (V : Type) (m : Map V) (k g : jsstring) (v : V) :
  In g (map fst (map_set m k v)) <-> g = k \/ In g (map fst m).
Proof.
  rewrite !map_get_In, map_get_set.
  destruct (str_eqb k g) eqn:E.
  - apply str_eqb_eq in E. split; [auto|discriminate].
  - apply str_eqb_neq in E. split; [auto|]. intros [F|F]; congruence.
Qed.

Lemma window_loop (windows : list jsstring) (m : Map WorkspaceData) :
  NoDup (map fst m) -> Forall (fun entry => snd entry = data) m ->
  let m' := fold_left step windows m in
  NoDup (map fst m')
  /\ Forall (fun entry => snd entry = data) m'
  /\ (List.length m' <= List.length m + List.length windows)%nat
  /\ (forall g, In g (map fst m')
                <-> In g (map fst m) \/ In g (map window_path windows)).
Proof.
  revert m. induction windows as [|w windows IH]; intros m Hnd Hv.
  - cbn. repeat split; auto; try lia. intros [H|[]]; exact H.
  - cbn [fold_left]. set (m1 := step m w).
    assert (m1 = map_set m (window_path w) data) as E
        by (destruct data; reflexivity).
    destruct (IH m1) as (H1 & H2 & H3 & H4).
    + rewrite E. apply map_set_keys, Hnd.
    + rewrite E. apply map_set_values, Hv.
    + repeat split; try assumption.
      * pose proof (map_set_length m (window_path w)) as L.
        rewrite <- E in L. cbn [List.length]. lia.
      * intros H. apply H4 in H. rewrite E, map_set_key_in in H.
        cbn [map In]. intuition auto.
      * intros H. apply H4. rewrite E, map_set_key_in.
        cbn [map In] in H. intuition auto.
Qed.
End WindowLoop.

Lemma Math_max_one (n : nat) :
  Math_max (num_of_nat n) (num_of_Z 1) = num_of_nat (Nat.max n 1).
Proof.
  unfold Math_max, num_of_nat, num_of_Z.
  destruct (Qle_bool (inject_Z (Z.of_nat n)) (inject_Z 1)) eqn:E.
  - apply Qle_bool_iff in E. rewrite <- Zle_Qle in E.
    replace (Nat.max n 1) with 1%nat by lia. reflexivity.
  - assert (~ (Z.of_nat n <= 1)%Z) as F.
    { intros F. rewrite Zle_Qle in F. apply Qle_bool_iff in F. congruence. }
    replace (Nat.max n 1) with n by lia. reflexivity.
Qed.

Lemma vscode_of_output_windows (windowsOutput output : jsstring) :
  vscode_of_output (Ok windowsOutput) output
  = sort (by_memory_desc VSCodeWorkspace.memory)
      (map (fun entry =>
              VSCodeWorkspace.mk (fst entry) (ws_memory (snd entry))
                (ws_processes (snd entry)))
         (fold_left
            (window_step
               (window_share (vscode_total_memory output)
                  (List.length (window_titles windowsOutput)))
               (window_share (vscode_total_processes output)
                  (List.length (window_titles windowsOutput))))
            (window_titles windowsOutput) [])).
Proof.
  unfold vscode_of_output, vscode_unsorted.
  change (num_of_Z 0, num_of_Z 0) with (num_of_Z 0, num_of_nat 0).
  rewrite vscode_totals. reflexivity.
Qed.

(** X14. When the windows of VS Code are enumerated, [getVSCodeWorkspaces]
    returns one workspace for each distinct path read off the window titles
    (two windows with the same path share one entry, and no window gives no
    entry); every workspace carries the same memory and the same count of
    processes, the totals of the process rows divided by the number of
    windows and rounded. *)
Theorem vscode_windows_share (e : Env) (output windowsOutput : jsstring) :
  ps_vscode e = Ok output -> osascript_windows e = Ok windowsOutput ->
  let windows := window_titles windowsOutput in
  let n := List.length windows in
  exists workspaces,
    getVSCodeWorkspaces e = Ok workspaces
    /\ (List.length workspaces <= n)%nat
    /\ NoDup (map VSCodeWorkspace.path workspaces)
    /\ (forall p, In p (map VSCodeWorkspace.path workspaces)
                  <-> In p (map window_path windows))
    /\ Forall (fun w =>
                 VSCodeWorkspace.memory w
                 = window_share (vscode_total_memory output) n
                 /\ VSCodeWorkspace.processes w
                    = window_share (vscode_total_processes output) n)
              workspaces.
Proof.
  intros H1 H2 windows n. unfold getVSCodeWorkspaces. rewrite H1.
  cbn [bind try_catch]. rewrite H2, vscode_of_output_windows.
  change (window_titles windowsOutput) with windows.
  change (List.length windows) with n.
  set (data := mkWorkspaceData (window_share (vscode_total_memory output) n)
                 (window_share (vscode_total_processes output) n)).
  destruct (@window_loop data windows [] (NoDup_nil _) (Forall_nil _))
    as (K1 & K2 & K3 & K4).
  cbn [ws_memory ws_processes data] in K1, K2, K3, K4.
  set (m' := fold_left
               (window_step (window_share (vscode_total_memory output) n)
                  (window_share (vscode_total_processes output) n))
               windows []) in *.
  set (unsorted := map (fun entry =>
                          VSCodeWorkspace.mk (fst entry)
                            (ws_memory (snd entry)) (ws_processes (snd entry)))
                     m').
  assert (map VSCodeWorkspace.path unsorted = map fst m') as Hp
      by (unfold unsorted; rewrite map_map; reflexivity).
  pose proof (sort_perm VSCodeWorkspace.memory unsorted) as P.
  eexists. split; [reflexivity|]. split; [|split; [|split]].
  - rewrite sort_length. unfold unsorted. rewrite length_map.
    cbn [List.length] in K3. exact K3.
  - eapply Permutation_NoDup; [apply Permutation_map, P|].
    rewrite Hp. exact K1.
  - intros p. rewrite <- (Permutation_map VSCodeWorkspace.path P), Hp, K4.
    cbn [map In]. tauto.
  - eapply Permutation_Forall; [exact P|].
    unfold unsorted. apply Forall_map.
    eapply Forall_impl; [|exact K2].
    intros [k v] Hv. cbn [snd] in Hv. subst v. split; reflexivity.
Qed.

Lemma vscode_windows_share_witness :
  exists workspaces,
    getVSCodeWorkspaces sample_env = Ok workspaces
    /\ (List.length workspaces <= 2)%nat.
Proof.
  destruct (@vscode_windows_share sample_env sample_ps_vscode
              (str "server.ts " ++ [8212%N] ++ str " ram-dashboard, notes.md "
                 ++ [8212%N] ++ str " notes [2]") eq_refl eq_refl)
    as (workspaces & H1 & H2 & _).
  exists workspaces. split; [exact H1|exact H2].
Defined.

Lemma window_at_no_dash (c : char) (s : jsstring) :
  c <> 8212%N -> window_at (c :: s) = None.
Proof.
  intros H. unfold window_at. cbn [starts_with]. unfold char_eqb.
  destruct (N.eqb_spec 8212 c); [congruence|reflexivity].
Qed.

Lemma window_match_no_dash (title : jsstring) :
  Forall (fun c => c <> 8212%N) title -> window_match title = None.
Proof.
  intros H. induction H as [|c title Hc _ IH]; [reflexivity|].
  cbn [window_match]. rewrite (window_at_no_dash _ Hc). exact IH.
Qed.

Lemma window_at_path (cap post : jsstring) :
  cap <> [] -> Forall (fun c => c <> 91%N) cap ->
  post = [] \/ hd 0%N post = 91%N ->
  window_at (dash_space ++ cap ++ post) = Some cap.
Proof.
  intros Hne Hcap Hpost. unfold window_at, dash_space.
  cbn [app starts_with skipn]. unfold char_eqb. rewrite !N.eqb_refl.
  cbn [andb]. rewrite take_while_run.
  - destruct cap; [congruence|reflexivity].
  - eapply Forall_impl; [|exact Hcap]. intros c Hc.
    apply negb_true_iff, N.eqb_neq, Hc.
  - destruct Hpost as [->|Hp]; [right; reflexivity|left].
    rewrite Hp. reflexivity.
Qed.

(** X15. The path of a window title: a title without an em dash is its own
    path; in a title [pre — path] or [pre — path [...]], where [pre] has no
    em dash and [path] no opening bracket, the path is [path] without the
    white space at its ends. *)
Theorem window_path_of_title :
  (forall title : jsstring,
      Forall (fun c => c <> 8212%N) title -> window_path title = title)
  /\ (forall pre cap post : jsstring,
         Forall (fun c => c <> 8212%N) pre ->
         cap <> [] -> Forall (fun c => c <> 91%N) cap ->
         post = [] \/ hd 0%N post = 91%N ->
         window_path (pre ++ dash_space ++ cap ++ post) = trim cap).
Proof.
  split.
  - intros title H. unfold window_path.
    rewrite window_match_no_dash by assumption. reflexivity.
  - intros pre cap post Hpre Hne Hcap Hpost. unfold window_path.
    assert (window_match (pre ++ dash_space ++ cap ++ post) = Some cap) as ->;
      [|reflexivity].
    induction Hpre as [|c pre Hc _ IH].
    + cbn [app]. pose proof (window_at_path Hne Hcap Hpost) as E.
      unfold dash_space in *. cbn [app] in *.
      cbn [window_match]. rewrite E. reflexivity.
    + cbn [app window_match]. rewrite (window_at_no_dash _ Hc). exact IH.
Qed.

Lemma window_path_of_title_witness :
  window_path (str "server.ts " ++ dash_space ++ str "ram-dashboard "
                 ++ str "[SSH: box]")
  = trim (str "ram-dashboard ").
Proof.
  apply (proj2 window_path_of_title (str "server.ts ") (str "ram-dashboard ")
           (str "[SSH: box]")).
  - repeat constructor; discriminate.
  - discriminate.
  - repeat constructor; discriminate.
  - right. reflexivity.
Defined.

(** ** The application groups *)

Lemma list_sum_zero (A : Type) (l : list A) :
  list_sum (map (fun _ => 0%nat) l) = 0%nat.
Proof. induction l as [|x l IH]; [reflexivity|exact IH]. Qed.

Lemma list_sum_add (A : Type) (f g : A -> nat) (l : list A) :
  list_sum (map (fun x => (f x + g x)%nat) l)
  = (list_sum (map f l) + list_sum (map g l))%nat.
Proof.
  unfold list_sum. induction l as [|x l IH]; cbn [map fold_right];
    [reflexivity|].
  rewrite IH. lia.
Qed.

Lemma list_sum_head (x : nat) (l : list nat) :
  list_sum (x :: l) = (x + list_sum l)%nat.
Proof. reflexivity. Qed.

Lemma list_sum_indicator (n : jsstring) (G : list jsstring) :
  NoDup G -> In n G ->
  list_sum (map (fun g => if str_eqb n g then 1%nat else 0%nat) G) = 1%nat.
Proof.
  intros Hnd. induction Hnd as [|g G Hnot _ IH]; intros Hin; [contradiction|].
  cbn [map]. rewrite list_sum_head. destruct (str_eqb n g) eqn:E.
  - apply str_eqb_eq in E. subst g.
    replace (map (fun g => if str_eqb n g then 1%nat else 0%nat) G)
      with (map (fun _ : jsstring => 0%nat) G);
      [rewrite list_sum_zero; reflexivity|].
    apply map_ext_in. intros g Hg.
    destruct (str_eqb n g) eqn:F; [|reflexivity].
    apply str_eqb_eq in F. congruence.
  - apply str_eqb_neq in E. destruct Hin as [F|Hin]; [congruence|].
    rewrite IH by assumption. reflexivity.
Qed.

Lemma rows_partition (patterns : list AppPattern) (G : list jsstring)
    (lines : list jsstring) :
  NoDup G ->
  (forall line app, In line lines -> owner patterns line = Some app ->
                    In (name app) G) ->
  list_sum (map (fun g => List.length (rows_of patterns g lines)) G)
  = List.length (filter (has_owner patterns) lines).
Proof.
  intros Hnd. induction lines as [|line lines IH]; intros Hin.
  - apply list_sum_zero.
  - rewrite (map_ext _
               (fun g => ((if owned_by patterns g line then 1 else 0)
                          + List.length (rows_of patterns g lines))%nat)).
    + rewrite (list_sum_add
                 (fun g => if owned_by patterns g line then 1%nat else 0%nat)
                 (fun g => List.length (rows_of patterns g lines))).
      rewrite IH by (intros; eapply Hin; [right|]; eassumption).
      cbn [filter]. unfold has_owner at 2, owned_by.
      destruct (owner patterns line) as [app|] eqn:E.
      * rewrite list_sum_indicator;
          [reflexivity|exact Hnd|apply (Hin line app); [left|]; auto].
      * rewrite list_sum_zero. reflexivity.
    + intros g. unfold rows_of. cbn [filter].
      destruct (owned_by patterns g line); reflexivity.
Qed.

Lemma owner_has_group (patterns : list AppPattern) (lines : list jsstring)
    (line : jsstring) (app : AppPattern) :
  In line lines -> owner patterns line = Some app ->
  In (name app) (map fst (classify patterns lines)).
Proof.
  intros Hin Ho. apply map_get_In. intros F.
  pose proof (classify_entry patterns lines (name app)) as H.
  rewrite F in H.
  assert (In line (rows_of patterns (name app) lines)) as Hr.
  { apply filter_In. split; [exact Hin|].
    unfold owned_by. rewrite Ho. apply str_eqb_refl. }
  rewrite H in Hr. contradiction.
Qed.

(** X16. No row of the process table is counted twice and none with an owner
    is lost: the process counts of the groups of the output are positive
    integers, and they add up to the number of rows that have an owner. *)
Theorem groups_count_each_row_once (patterns : list AppPattern)
    (lines : list jsstring) :
  exists counts : list nat,
    map AppMemory.processes (apps_of_map (classify patterns lines))
    = map num_of_nat counts
    /\ Forall (fun c => (0 < c)%nat) counts
    /\ list_sum counts = List.length (filter (has_owner patterns) lines).
Proof.
  set (apps := apps_of_map (classify patterns lines)).
  assert (Permutation (map fst (classify patterns lines))
            (map AppMemory.name apps)) as P.
  { rewrite <- apps_unsorted_names. apply Permutation_map, sort_perm. }
  assert (forall a, In a apps ->
                    rows_of patterns (AppMemory.name a) lines <> []
                    /\ AppMemory.processes a
                       = num_of_nat
                           (List.length
                              (rows_of patterns (AppMemory.name a) lines)))
    as Ha.
  { intros a Hin. apply sort_In in Hin. unfold apps_unsorted in Hin.
    apply in_map_iff in Hin as ([k data] & <- & Hin).
    cbn [fst snd AppMemory.name AppMemory.processes].
    apply map_get_of_In in Hin; [|apply classify_keys].
    pose proof (classify_entry patterns lines k) as H.
    rewrite Hin in H. destruct H as (H1 & H2 & _). auto. }
  exists (map (fun a => List.length
                          (rows_of patterns (AppMemory.name a) lines)) apps).
  split; [|split].
  - rewrite map_map. apply map_ext_in. intros a Hin. apply Ha, Hin.
  - apply Forall_map, Forall_forall. intros a Hin.
    destruct (Ha a Hin) as [Hne _].
    destruct (rows_of patterns (AppMemory.name a) lines);
      [congruence|cbn; lia].
  - rewrite <- (map_map AppMemory.name
                  (fun g => List.length (rows_of patterns g lines))).
    apply rows_partition.
    + eapply Permutation_NoDup; [exact P|apply classify_keys].
    + intros line app Hin Ho. rewrite <- P.
      exact (@owner_has_group patterns lines line app Hin Ho).
Qed.

Lemma istarts_with_app (a b s : jsstring) :
  istarts_with (a ++ b) s = true ->
  istarts_with b (skipn (List.length a) s) = true.
Proof.
  revert s. induction a as [|x a IH]; intros s; [cbn; auto|].
  destruct s as [|y s]; cbn [app istarts_with]; [discriminate|].
  intros H. apply andb_true_iff in H as [_ H]. cbn [List.length skipn].
  apply IH, H.
Qed.

Lemma iincludes_tail (lit s : jsstring) (c : char) :
  iincludes lit s = true -> iincludes lit (c :: s) = true.
Proof. intros H. cbn [iincludes]. rewrite H. apply orb_true_r. Qed.

Lemma iincludes_skipn (lit s : jsstring) (n : nat) :
  iincludes lit (skipn n s) = true -> iincludes lit s = true.
Proof.
  revert s. induction n as [|n IH]; intros s; [cbn; auto|].
  destruct s as [|c s]; [cbn; auto|]. cbn [skipn]. intros H.
  apply iincludes_tail, IH, H.
Qed.

Lemma istarts_iincludes (lit s : jsstring) :
  istarts_with lit s = true -> iincludes lit s = true.
Proof. intros H. destruct s; cbn [iincludes]; rewrite H; reflexivity. Qed.

Lemma google_chrome_is_chrome (command : jsstring) :
  iincludes (str "Google Chrome") command = true ->
  iincludes (str "chrome") command = true.
Proof.
  induction command as [|c command IH].
  - cbn. discriminate.
  - intros H.
    change (iincludes (str "Google Chrome") (c :: command))
      with (istarts_with (str "Google Chrome") (c :: command)
            || iincludes (str "Google Chrome") command) in H.
    apply orb_true_iff in H as [H|H].
    + apply (iincludes_skipn _ _ 7).
      apply istarts_iincludes.
      exact (@istarts_with_app (str "Google ") (str "Chrome") _ H).
    + apply iincludes_tail, IH, H.
Qed.

(** X17. With the rules of the server, a row is attributed to the group
    [Chrome] exactly when it has at least eleven fields and its command line
    contains [chrome] in any letter case: the alternative [Google Chrome] of
    the pattern never decides, and no later rule gives this group. *)
Theorem chrome_group_characterised (line : jsstring) :
  owned_by appPatterns (str "Chrome") line = true
  <-> (11 <= List.length (fields line))%nat
      /\ iincludes (str "chrome") (command_of (fields line)) = true.
Proof.
  unfold owned_by, owner.
  destruct (List.length (fields line) <? 11)%nat eqn:L.
  - apply Nat.ltb_lt in L. split; [discriminate|lia].
  - apply Nat.ltb_ge in L.
    set (command := command_of (fields line)).
    unfold appPatterns. cbn [find pattern].
    destruct (iincludes (str "Google Chrome") command) eqn:G.
    + cbn [orb name]. split; [|reflexivity].
      intros _. split; [exact L|apply google_chrome_is_chrome, G].
    + cbn [orb]. destruct (iincludes (str "chrome") command) eqn:C.
      * cbn [name]. split; [auto|reflexivity].
      * split; [|intros [_ F]; discriminate F].
        repeat match goal with
               | |- context [if ?b then _ else _] =>
                   destruct b; [cbn [name]; vm_compute; discriminate|]
               end.
        discriminate.
Qed.

Lemma round_GB (k : Z) :
  Math_round (to_GB (num_of_Z k))
  = num_of_Z ((k + 536870912) / 1073741824).
Proof.
  unfold to_GB, num_of_Z, num_div, Math_round.
  change (Qeq_bool (inject_Z 1024) 0) with false. cbn iota.
  unfold num_of_Z. do 2 f_equal.
  assert (inject_Z k / inject_Z 1024 / inject_Z 1024 / inject_Z 1024 + (1 # 2)
          == (k + 536870912) # 1073741824) as E.
  { unfold Qeq, Qdiv, Qmult, Qplus, Qinv, inject_Z. simpl. lia. }
  rewrite (Qfloor_comp _ _ E). reflexivity.
Qed.

(** X18. When [sysctl] prints the size of the memory as the decimal number
    of bytes [b], [b] being at most [2^53] so that [parseInt] returns it
    exactly, the field [total] of the snapshot is [b] in GB rounded to the
    nearest integer, a half going up; the newline after the number is
    ignored. *)
Theorem total_is_rounded_GB (e : Env) (s : SystemMemory.t)
    (ds rest : jsstring) :
  sysctl_memsize e = Ok (ds ++ rest) -> all_digits ds -> ends_number rest ->
  exactly_read (digits_value ds 0) ->
  getSystemMemory e = Ok s ->
  SystemMemory.total s
  = num_of_Z ((digits_value ds 0 + 536870912) / 1073741824).
Proof.
  intros Hm Hds Hrest _ H.
  apply getSystemMemory_inv in H as (m & v & p & H1 & _ & _ & ->).
  rewrite Hm in H1. injection H1 as <-.
  unfold snapshot_of. cbn [SystemMemory.total].
  rewrite parseInt_digits by assumption. apply round_GB.
Qed.

Lemma total_is_rounded_GB_witness :
  SystemMemory.total
    (snapshot_of sample_env (str "34359738368" ++ newline) sample_vm_stat
       sample_ps_aux)
  = num_of_Z 32.
Proof.
  apply (@total_is_rounded_GB sample_env _ (str "34359738368") newline).
  - reflexivity.
  - split; [discriminate|repeat constructor].
  - repeat split; discriminate.
  - unfold exactly_read. vm_compute. split; discriminate.
  - vm_compute. reflexivity.
Defined.

(** ** The lookup of the working directory *)

Lemma sort_map_memory (A : Type) (key : A -> number) (f : A -> A)
    (l : list A) :
  (forall x, key (f x) = key x) ->
  sort (by_memory_desc key) (map f l) = map f (sort (by_memory_desc key) l).
Proof.
  intros Hf.
  assert (forall x l, insert (by_memory_desc key) (f x) (map f l)
                      = map f (insert (by_memory_desc key) x l)) as Hins.
  { intros x l0. induction l0 as [|y l0 IH]; [reflexivity|].
    cbn [map insert]. unfold precedes, by_memory_desc. rewrite !Hf.
    destruct (num_lt (num_sub (key x) (key y)) (num_of_Z 0)).
    - cbn [map]. f_equal. exact IH.
    - reflexivity. }
  induction l as [|x l IH]; [reflexivity|].
  cbn [map sort]. rewrite IH. apply Hins.
Qed.

Lemma claude_step_directory (l1 l2 : number -> result jsstring)
    (acc1 acc2 : list ClaudeSession.t) (line : jsstring) :
  map without_directory acc1 = map without_directory acc2 ->
  map without_directory (claude_step l1 acc1 line)
  = map without_directory (claude_step l2 acc2 line).
Proof.
  intros H. unfold claude_step.
  destruct (num_lt (memory_MB (fields line)) (num_of_Z 50)); [exact H|].
  rewrite !map_app, H. reflexivity.
Qed.

Lemma claude_unsorted_directory (l1 l2 : number -> result jsstring)
    (output : jsstring) :
  map without_directory (claude_unsorted l1 output)
  = map without_directory (claude_unsorted l2 output).
Proof.
  unfold claude_unsorted.
  assert (forall lines acc1 acc2,
             map without_directory acc1 = map without_directory acc2 ->
             map without_directory (fold_left (claude_step l1) lines acc1)
             = map without_directory (fold_left (claude_step l2) lines acc2))
    as G.
  { induction lines as [|line lines IH]; intros acc1 acc2 H; [exact H|].
    cbn [fold_left]. apply IH, claude_step_directory, H. }
  apply G. reflexivity.
Qed.

Lemma claude_unsorted_failed_lookup (lsof : number -> result jsstring)
    (output : jsstring) :
  (forall pid, lsof pid = Throw) ->
  map without_directory (claude_unsorted lsof output)
  = claude_unsorted lsof output.
Proof.
  intros Hl. unfold claude_unsorted.
  assert (forall lines acc,
             map without_directory acc = acc ->
             map without_directory (fold_left (claude_step lsof) lines acc)
             = fold_left (claude_step lsof) lines acc) as G.
  { induction lines as [|line lines IH]; intros acc H; [exact H|].
    cbn [fold_left]. apply IH. unfold claude_step.
    destruct (num_lt (memory_MB (fields line)) (num_of_Z 50)); [exact H|].
    rewrite map_app, H, Hl. reflexivity. }
  apply G. reflexivity.
Qed.

(** X19. The lookup of the working directory decides the working directory
    and the project name of a session and nothing else: with another lookup
    the same sessions are returned, in the same order, with the same memory,
    pid and sub-agent mark; when every lookup fails each session is kept
    with the working directory [''] and the project name [Home]. *)
Theorem lookup_decides_directory_only (e : Env)
    (lsof : number -> result jsstring)
    (sessions sessions' : list ClaudeSession.t) :
  getClaudeSessions e = Ok sessions ->
  getClaudeSessions (with_lsof_cwd lsof e) = Ok sessions' ->
  map without_directory sessions = map without_directory sessions'
  /\ ((forall pid, lsof pid = Throw) ->
      sessions' = map without_directory sessions).
Proof.
  rewrite !getClaudeSessions_presort. intros H H'.
  injection H as <-. injection H' as <-.
  unfold claude_presort. cbn [ps_claude lsof_cwd with_lsof_cwd].
  destruct (ps_claude e) as [output|]; [|split; reflexivity].
  rewrite <- !(sort_map_memory ClaudeSession.memory without_directory)
    by reflexivity.
  rewrite (claude_unsorted_directory (lsof_cwd e) lsof).
  split; [reflexivity|].
  intros Hl. rewrite claude_unsorted_failed_lookup by assumption.
  reflexivity.
Qed.

Lemma lookup_decides_directory_only_witness :
  map without_directory
    [ClaudeSession.mk (str "/Users/maxghenis/ram-dashboard")
       (str "ram-dashboard") (num_of_Z 600) (num_of_Z 210) false;
     ClaudeSession.mk (str "/Users/maxghenis/ram-dashboard")
       (str "ram-dashboard") (num_of_Z 100) (num_of_Z 211) true]
  = map without_directory
      [ClaudeSession.mk [] (str "Home") (num_of_Z 600) (num_of_Z 210) false;
       ClaudeSession.mk [] (str "Home") (num_of_Z 100) (num_of_Z 211) true].
Proof.
  refine (proj1 (@lookup_decides_directory_only sample_env (fun _ => Throw)
           [ClaudeSession.mk (str "/Users/maxghenis/ram-dashboard")
              (str "ram-dashboard") (num_of_Z 600) (num_of_Z 210) false;
            ClaudeSession.mk (str "/Users/maxghenis/ram-dashboard")
              (str "ram-dashboard") (num_of_Z 100) (num_of_Z 211) true]
           [ClaudeSession.mk [] (str "Home") (num_of_Z 600) (num_of_Z 210)
              false;
            ClaudeSession.mk [] (str "Home") (num_of_Z 100) (num_of_Z 211)
              true] _ _)).
  - vm_compute. reflexivity.
  - vm_compute. reflexivity.
Defined.

(** ** The rule of Node.js *)

Lemma node_test_includes (s : jsstring) :
  node_test s = true -> iincludes (str "node") s = true.
Proof.
  induction s as [|c s IH]; [cbn; discriminate|].
  change (node_test (c :: s))
    with ((istarts_with (str "node") (c :: s)
           && negb (dot_star_then (str "code") (skipn 4 (c :: s))))
          || node_test s).
  intros H. apply orb_true_iff in H as [H|H].
  - apply andb_true_iff in H as [H _]. apply istarts_iincludes, H.
  - apply iincludes_tail, IH, H.
Qed.

Lemma dot_star_one_line (lit s : jsstring) :
  one_line s -> dot_star_then lit s = iincludes lit s.
Proof.
  intros H. induction H as [|c s Hc _ IH]; [reflexivity|].
  cbn [dot_star_then iincludes]. rewrite Hc, IH. reflexivity.
Qed.

Lemma iincludes_app_r (lit x r : jsstring) :
  iincludes lit r = true -> iincludes lit (x ++ r) = true.
Proof.
  intros H. induction x as [|c x IH]; [exact H|].
  cbn [app]. apply iincludes_tail, IH.
Qed.

Lemma istarts_with_more (p s r : jsstring) :
  istarts_with p s = true -> istarts_with p (s ++ r) = true.
Proof.
  revert s. induction p as [|a p IH]; intros s; [reflexivity|].
  destruct s as [|b s]; cbn [app istarts_with]; [discriminate|].
  intros H. apply andb_true_iff in H as [H1 H2].
  rewrite H1. apply IH, H2.
Qed.

Lemma one_line_skipn (n : nat) (s : jsstring) :
  one_line s -> one_line (skipn n s).
Proof.
  intros H. revert n. induction H as [|c s Hc Hs IH]; intros n.
  - rewrite skipn_nil. constructor.
  - destruct n; [constructor; assumption|apply IH].
Qed.

(** X20. The rule of Node.js on a command line without line terminator:
    when [node] (in any letter case) occurs in it, the rule matches exactly
    when no [code] (in any letter case) comes after the last [node]; when
    [node] does not occur, the rule does not match. *)
Theorem node_rule_last_occurrence :
  (forall s : jsstring,
      iincludes (str "node") s = false -> node_test s = false)
  /\ (forall a n r : jsstring,
         List.length n = 4%nat -> istarts_with (str "node") n = true ->
         iincludes (str "node") (skipn 1 (n ++ r)) = false ->
         one_line (a ++ n ++ r) ->
         node_test (a ++ n ++ r) = negb (iincludes (str "code") r)).
Proof.
  split.
  - intros s H. destruct (node_test s) eqn:E; [|reflexivity].
    apply node_test_includes in E. congruence.
  - intros a n r Hlen Hn Hlast Hline.
    destruct n as [|n1 [|n2 [|n3 [|n4 [|? ?]]]]]; try discriminate Hlen.
    induction a as [|x a IH].
    + cbn [app] in *.
      change (node_test (n1 :: n2 :: n3 :: n4 :: r))
        with ((istarts_with (str "node") (n1 :: n2 :: n3 :: n4 :: r)
               && negb (dot_star_then (str "code") r))
              || node_test (n2 :: n3 :: n4 :: r)).
      assert (istarts_with (str "node") (n1 :: n2 :: n3 :: n4 :: r) = true)
        as -> by exact (@istarts_with_more _ [n1; n2; n3; n4] r Hn).
      rewrite dot_star_one_line
        by (exact (one_line_skipn 4 Hline)).
      cbn [skipn] in Hlast.
      destruct (node_test (n2 :: n3 :: n4 :: r)) eqn:E.
      * apply node_test_includes in E. congruence.
      * rewrite orb_false_r. reflexivity.
    + change ((x :: a) ++ [n1; n2; n3; n4] ++ r)
        with (x :: (a ++ [n1; n2; n3; n4] ++ r)) in *.
      inversion Hline as [|? ? Hx Hline']; subst.
      change (node_test (x :: a ++ [n1; n2; n3; n4] ++ r))
        with ((istarts_with (str "node") (x :: a ++ [n1; n2; n3; n4] ++ r)
               && negb (dot_star_then (str "code")
                          (skipn 3 (a ++ [n1; n2; n3; n4] ++ r))))
              || node_test (a ++ [n1; n2; n3; n4] ++ r)).
      rewrite (IH Hline').
      destruct (iincludes (str "code") r) eqn:C;
        [|apply orb_true_r].
      rewrite orb_false_r.
      rewrite dot_star_one_line by (exact (one_line_skipn 3 Hline')).
      replace (iincludes (str "code")
                 (skipn 3 (a ++ [n1; n2; n3; n4] ++ r))) with true;
        [apply andb_false_r|].
      symmetry. rewrite app_assoc.
      rewrite skipn_app.
      apply iincludes_app_r.
      replace (3 - List.length (a ++ [n1; n2; n3; n4]))%nat with 0%nat
        by (rewrite length_app; cbn [List.length]; lia).
      exact C.
Qed.

Lemma node_rule_last_occurrence_witness :
  node_test (str "/usr/local/bin/" ++ str "node" ++ str " server.js")
  = negb (iincludes (str "code") (str " server.js")).
Proof.
  apply (proj2 node_rule_last_occurrence (str "/usr/local/bin/") (str "node")
           (str " server.js")).
  - reflexivity.
  - reflexivity.
  - reflexivity.
  - repeat constructor.
Defined.
